(** * ScraperAnyRun: the crawl and extraction coordinator, embedded in Rocq

    The development embeds three Python sources:

    - [src/scraper.py]                       ([ReportScraper], module [Report]);
    - [src/any_run_scraper.py]               ([AnyRunScraper], date buckets, module [Dated]);
    - [src/Link Scarper/any_run_scraper.py]  ([AnyRunScraper], page counter, module [Link]).

    Browser, clock, terminal, mail server and disk are an environment that is
    read through a logical clock: the n-th observation the program makes reads
    the n-th snapshot of the environment ([Env]).  Exceptions are explicit
    ([outcome]), loops that Python writes as [while True] take fuel and end in
    [OutOfFuel] when it runs out, and everything the program does to the outside
    is logged in a chronological [trace]. *)

From Stdlib Require Import String Ascii ZArith List Bool Lia.
From stdpp Require Import base gmap sets list strings sorting pretty.

Set Warnings "-register-all,-clear-no-such-hyp".

(* stdpp blocks [simpl] on string concatenation; the proofs compute with it. *)
Arguments String.append !s1 s2 : simpl nomatch.

Open Scope string_scope.
Open Scope Z_scope.
Import ListNotations.

(** ** Python string primitives (code points below 256) *)

Module Py.

Definition ascii_code (c : ascii) : N := N_of_ascii c.

Definition is_upper (c : ascii) : bool :=
  ((65 <=? ascii_code c) && (ascii_code c <=? 90))%N.

(** [str.lower] on the ASCII range, which is also XPath's
    [translate(s, 'ABC...Z', 'abc...z')]. *)
Definition lower_char (c : ascii) : ascii :=
  if is_upper c then ascii_of_N (ascii_code c + 32) else c.

Fixpoint lower (s : string) : string :=
  match s with
  | EmptyString => EmptyString
  | String c t => String (lower_char c) (lower t)
  end.

(** [needle in hay] *)
Fixpoint contains (needle hay : string) : bool :=
  String.prefix needle hay
  || match hay with
     | EmptyString => false
     | String _ t => contains needle t
     end.

(** Python's [str.isspace] on one character below 256: the ASCII white
    space, the separators 28 to 31, NEL (133) and the no-break space (160). *)
Definition is_space (c : ascii) : bool :=
  let n := ascii_code c in
  ((9 <=? n) && (n <=? 13) || (28 <=? n) && (n <=? 32) || (n =? 133) || (n =? 160))%N.

Fixpoint lstrip (s : string) : string :=
  match s with
  | String c t => if is_space c then lstrip t else s
  | EmptyString => EmptyString
  end.

Fixpoint rstrip (s : string) : string :=
  match s with
  | EmptyString => EmptyString
  | String c t =>
      match rstrip t with
      | EmptyString => if is_space c then EmptyString else String c EmptyString
      | t' => String c t'
      end
  end.

(** [s.strip()] *)
Definition strip (s : string) : string := rstrip (lstrip s).

(** [s.split(sep)] for a one-character separator. *)
Fixpoint split (sep : ascii) (s : string) : list string :=
  match s with
  | EmptyString => [EmptyString]
  | String c t =>
      if Ascii.eqb c sep then EmptyString :: split sep t
      else match split sep t with
           | [] => [String c EmptyString]
           | w :: ws => String c w :: ws
           end
  end.

(** Truthiness of [Optional[str]]: [None] and the empty string are falsy. *)
Definition truthy (o : option string) : bool :=
  match o with
  | Some (String _ _) => true
  | _ => false
  end.

Definition is_digit (c : ascii) : bool :=
  ((48 <=? ascii_code c) && (ascii_code c <=? 57))%N.

Definition digit_value (c : ascii) : Z := Z.of_N (ascii_code c) - 48.

(** The digits of [int(text)]: groups of decimal digits, a single underscore
    allowed between two digits.  [acc] is the value read so far, [after_digit]
    tells whether the previous character was a digit. *)
Fixpoint int_digits (s : string) (acc : Z) (after_digit : bool) : option Z :=
  match s with
  | EmptyString => if after_digit then Some acc else None
  | String c t =>
      if is_digit c then int_digits t (10 * acc + digit_value c) true
      else if Ascii.eqb c "_" then
        if after_digit then
          match t with
          | String d _ => if is_digit d then int_digits t acc false else None
          | EmptyString => None
          end
        else None
      else None
  end.

(** [int(text)]: surrounding blanks, an optional sign, decimal digits;
    [None] is [ValueError]. *)
Definition int (text : string) : option Z :=
  match strip text with
  | String "-" t => option_map Z.opp (int_digits t 0 false)
  | String "+" t => int_digits t 0 false
  | t => int_digits t 0 false
  end.

(** A [float] as far as [time.sleep] looks at it: a finite number of
    seconds, given in nanoseconds the way [time.sleep] rounds it (away from
    zero, so that its sign is the sign of the float), a NaN or an
    infinity. *)
Inductive pyfloat : Type :=
| Finite (nanos : Z)
| NaN
| Infinity (negative : bool).

End Py.

(** ** JSON documents and files on disk *)

(** What [json.load] returns and [json.dump] takes.  A float is carried as the
    literal Python prints for it; floating-point arithmetic is not modelled. *)
Inductive json : Type :=
| JNull
| JBool (b : bool)
| JInt (z : Z)
| JFloat (literal : string)
| JStr (s : string)
| JList (items : list json)
| JDict (fields : list (string * json)).

Module Json.

(** [data.get(key)] on a [dict] given as its items in order. *)
Fixpoint get (key : string) (fields : list (string * json)) : option json :=
  match fields with
  | [] => None
  | (k, v) :: rest => if String.eqb k key then Some v else get key rest
  end.

Definition quote : ascii := "034"%char.
Definition backslash : ascii := "092"%char.
Definition newline : ascii := "010"%char.

Definition hex_digit (n : N) : ascii :=
  if (n <? 10)%N then ascii_of_N (48 + n) else ascii_of_N (87 + n).

(** One character of a string literal as [ensure_ascii=True] writes it. *)
Definition escape_char (c : ascii) : string :=
  let n := Py.ascii_code c in
  if Ascii.eqb c quote then String backslash (String quote EmptyString)
  else if Ascii.eqb c backslash then String backslash (String backslash EmptyString)
  else if (n =? 10)%N then String backslash "n"
  else if (n =? 13)%N then String backslash "r"
  else if (n =? 9)%N then String backslash "t"
  else if (n =? 8)%N then String backslash "b"
  else if (n =? 12)%N then String backslash "f"
  else if ((n <? 32) || (126 <? n))%N then
    String backslash
      ("u00" ++ String (hex_digit (n / 16)) (String (hex_digit (n mod 16)) EmptyString))
  else String c EmptyString.

Fixpoint escape (s : string) : string :=
  match s with
  | EmptyString => EmptyString
  | String c t => escape_char c ++ escape t
  end.

Definition literal (s : string) : string :=
  String quote (escape s) ++ String quote EmptyString.

Fixpoint spaces (n : nat) : string :=
  match n with
  | O => EmptyString
  | S k => String " " (spaces k)
  end.

Definition sep_line (level : nat) : string := String newline (spaces (2 * level)).

(** [json.dumps(value, indent=2)] at nesting depth [level]. *)
Fixpoint dumps_at (level : nat) (j : json) : string :=
  match j with
  | JNull => "null"
  | JBool true => "true"
  | JBool false => "false"
  | JInt z => pretty z
  | JFloat lit => lit
  | JStr s => literal s
  | JList [] => "[]"
  | JList items =>
      "[" ++ sep_line (S level)
      ++ String.concat ("," ++ sep_line (S level)) (map (dumps_at (S level)) items)
      ++ sep_line level ++ "]"
  | JDict [] => "{}"
  | JDict fields =>
      "{" ++ sep_line (S level)
      ++ String.concat ("," ++ sep_line (S level))
           (map (fun kv => literal (fst kv) ++ ": " ++ dumps_at (S level) (snd kv)) fields)
      ++ sep_line level ++ "}"
  end.

Definition dumps (j : json) : string := dumps_at 0 j.

End Json.

(** A file as the next reader finds it: the complete text of a document, or
    text that [json.load] rejects (for instance what an interrupted
    [json.dump] left behind). *)
Inductive file : Type :=
| Doc (j : json)
| Torn (text : string).

Definition file_text (f : file) : string :=
  match f with
  | Doc j => Json.dumps j
  | Torn text => text
  end.

(** The first [n] characters of [s]. *)
Fixpoint take_chars (n : nat) (s : string) : string :=
  match n, s with
  | S k, String c t => String c (take_chars k t)
  | _, _ => EmptyString
  end.

(** What is on disk when a writer that opened the file with mode ["w"] and
    started [json.dump doc] is killed after [n] characters reached the disk:
    opening truncates, then the text is appended in order. *)
Definition interrupted_write (doc : json) (n : nat) : file :=
  if (n <? String.length (Json.dumps doc))%nat
  then Torn (take_chars n (Json.dumps doc))
  else Doc doc.

(** ** Exceptions, outcomes and the state monad of a run *)

Inductive exn : Type :=
| TimeoutException
| NoSuchElementException
| StaleElementReferenceException
| WebDriverException
| EOFError
| OSError
| SMTPException
| AttributeError
| TypeError
| ValueError
| OverflowError
| RuntimeError.

(** The exception classes an [except] clause names. *)
Inductive handler : Type :=
| Only (classes : list exn)
| AnyException.

Definition exn_eqb (a b : exn) : bool :=
  match a, b with
  | TimeoutException, TimeoutException
  | NoSuchElementException, NoSuchElementException
  | StaleElementReferenceException, StaleElementReferenceException
  | WebDriverException, WebDriverException
  | EOFError, EOFError
  | OSError, OSError
  | SMTPException, SMTPException
  | AttributeError, AttributeError
  | TypeError, TypeError
  | ValueError, ValueError
  | OverflowError, OverflowError
  | RuntimeError, RuntimeError => true
  | _, _ => false
  end.

Definition catches (h : handler) (e : exn) : bool :=
  match h with
  | AnyException => true
  | Only classes => existsb (exn_eqb e) classes
  end.

Inductive outcome (A : Type) : Type :=
| Ok (a : A)
| Raise (e : exn)
| OutOfFuel.

Arguments Ok {A} a.
Arguments Raise {A} e.
Arguments OutOfFuel {A}.

(** What the program does to the outside world, in the order it does it. *)
Inductive event : Type :=
| EvProbe (present : bool)          (* [_is_bot_challenge_present] answered *)
| EvAlert (delivered : bool)        (* the e-mail alert was attempted *)
| EvRecoveryClick                   (* [click_on_bot_challenge] *)
| EvPrompt (answered : bool)        (* [input(...)]; [false]: EOFError *)
| EvPollSleep                       (* [time.sleep(bot_check_poll_interval)] *)
| EvNavigate (url : string)         (* [driver.get(url)] *)
| EvLogin                           (* the login flow ran *)
| EvFind (locator : string)         (* an element was looked up or waited for *)
| EvClick (target : string)         (* an element of the page was clicked *)
| EvRead (what : string)            (* text was read off the page *)
| EvRowScan (rows : nat)            (* the rows of the list page were read *)
| EvForm (day : string)             (* the date filter form was filled in *)
| EvExtract (section : string)      (* one field extractor ran *)
| EvWriteRecord (path : string) (complete : bool)
| EvProcessed (url : string)        (* [processed_urls.add(url)] *)
| EvSaveCheckpoint (written : bool)
| EvSaveState (written : bool)
| EvSaveResults (final : bool)
| EvClearState.

(** Events that act on the page under scrape or read data from it.  The
    probe, the alert, the recovery click on the challenge itself and the
    operator prompt are the challenge protocol, not interactions. *)
Definition is_interaction (ev : event) : bool :=
  match ev with
  | EvNavigate _ | EvLogin | EvFind _ | EvClick _ | EvRead _
  | EvRowScan _ | EvForm _ | EvExtract _ => true
  | _ => false
  end.

(** The state of a run: the Python object [obj], the logical clock, the log
    and the disk. *)
Record state (O : Type) : Type := MkState {
  obj : O;
  tick : nat;
  trace : list event;
  disk : gmap string file
}.

Arguments MkState {O} obj tick trace disk.
Arguments obj {O} s.
Arguments tick {O} s.
Arguments trace {O} s.
Arguments disk {O} s.

Definition M (O A : Type) : Type := state O -> outcome A * state O.

Definition ret {O A} (a : A) : M O A := fun s => (Ok a, s).

Definition bind {O A B} (m : M O A) (k : A -> M O B) : M O B :=
  fun s =>
    match m s with
    | (Ok a, s') => k a s'
    | (Raise e, s') => (Raise e, s')
    | (OutOfFuel, s') => (OutOfFuel, s')
    end.

Definition raise {O A} (e : exn) : M O A := fun s => (Raise e, s).

Definition out_of_fuel {O A} : M O A := fun s => (OutOfFuel, s).

(** [try: body  except h: recover(e)] *)
Definition try_except {O A} (body : M O A) (h : handler) (recover : exn -> M O A) : M O A :=
  fun s =>
    match body s with
    | (Raise e, s') => if catches h e then recover e s' else (Raise e, s')
    | r => r
    end.

Notation "'let*' x ':=' m 'in' k" := (bind m (fun x => k))
  (at level 10, x pattern, m at level 100, k at level 200).

Definition get_obj {O} : M O O := fun s => (Ok (obj s), s).

Definition set_obj {O} (f : O -> O) : M O unit :=
  fun s => (Ok tt, MkState (f (obj s)) (tick s) (trace s) (disk s)).

Definition emit {O} (ev : event) : M O unit :=
  fun s => (Ok tt, MkState (obj s) (tick s) (trace s ++ [ev]) (disk s)).

Definition get_disk {O} : M O (gmap string file) := fun s => (Ok (disk s), s).

Definition set_disk {O} (f : gmap string file -> gmap string file) : M O unit :=
  fun s => (Ok tt, MkState (obj s) (tick s) (trace s) (f (disk s))).

(** One observation of the environment: the reading at the current tick,
    after which the clock moves on. *)
Definition observe {O A} (reading : nat -> A) : M O A :=
  fun s => (Ok (reading (tick s)), MkState (obj s) (S (tick s)) (trace s) (disk s)).

(** [time.sleep(secs)]: the exception it raises, if any.  The argument is
    converted to a 64-bit count of nanoseconds first ([OverflowError] when it
    does not fit, [ValueError] for a NaN) and must not be negative. *)
Definition sleep_error (secs : Py.pyfloat) : option exn :=
  match secs with
  | Py.Finite nanos =>
      if (nanos <? - 2 ^ 63) || (2 ^ 63 - 1 <? nanos) then Some OverflowError
      else if nanos <? 0 then Some ValueError
      else None
  | Py.NaN => Some ValueError
  | Py.Infinity _ => Some OverflowError
  end.

Definition sleep {O} (secs : Py.pyfloat) : M O unit :=
  match sleep_error secs with
  | Some e => raise e
  | None => ret tt
  end.

(** [try: body  finally: cleanup]: the cleanup runs however the body ends,
    and an exception of the cleanup replaces the outcome of the body. *)
Definition finally {O A} (body : M O A) (cleanup : M O unit) : M O A :=
  fun s =>
    let '(r, s') := body s in
    match cleanup s' with
    | (Ok _, s'') => (r, s'')
    | (Raise e, s'') => (Raise e, s'')
    | (OutOfFuel, s'') => (OutOfFuel, s'')
    end.

(** [for x in xs: body(x)] *)
Fixpoint for_each {O A} (xs : list A) (body : A -> M O unit) : M O unit :=
  match xs with
  | [] => ret tt
  | x :: rest => let* _ := body x in for_each rest body
  end.

(** ** The page as the driver shows it *)

(** An element of the document, as far as the locators of the sources look at
    it. *)
Record element : Type := MkElement {
  el_first_text : string;      (* XPath [text()] as a string: the first text-node child *)
  el_string_value : string;    (* XPath [.]: all text below the element *)
  el_displayed : option bool   (* [is_displayed()]; [None]: it raises *)
}.

(** The string expressions and predicates the XPath locators use. *)
Inductive xstr : Type :=
| XText
| XSelf
| XLit (s : string)
| XNormalizeSpace (e : xstr)
| XTranslate (e : xstr) (source target : string).

Inductive xpred : Type :=
| XContains (hay needle : xstr)
| XOr (p q : xpred)
| XAnd (p q : xpred).

Module XPath.

Definition is_space (c : ascii) : bool :=
  let n := Py.ascii_code c in
  ((n =? 32) || (n =? 9) || (n =? 13) || (n =? 10))%N.

(** [normalize-space]: blanks at both ends go, every inner run of blanks
    becomes one space.  [started]: a non-blank was already written; [gap]:
    blanks were skipped since. *)
Fixpoint normalize_from (s : string) (started gap : bool) : string :=
  match s with
  | EmptyString => EmptyString
  | String c t =>
      if is_space c then normalize_from t started true
      else if started && gap then String " " (String c (normalize_from t true false))
      else String c (normalize_from t true false)
  end.

Definition normalize_space (s : string) : string := normalize_from s false false.

Fixpoint index_of (c : ascii) (s : string) : option nat :=
  match s with
  | EmptyString => None
  | String d t => if Ascii.eqb c d then Some O else option_map S (index_of c t)
  end.

(** [translate(s, source, target)]: a character of [source] becomes the
    character of [target] at the same place, or goes when [target] is
    shorter. *)
Fixpoint translate (s source target : string) : string :=
  match s with
  | EmptyString => EmptyString
  | String c t =>
      match index_of c source with
      | None => String c (translate t source target)
      | Some i =>
          match String.get i target with
          | Some d => String d (translate t source target)
          | None => translate t source target
          end
      end
  end.

Fixpoint eval_str (el : element) (e : xstr) : string :=
  match e with
  | XText => el_first_text el
  | XSelf => el_string_value el
  | XLit s => s
  | XNormalizeSpace e' => normalize_space (eval_str el e')
  | XTranslate e' source target => translate (eval_str el e') source target
  end.

Fixpoint eval (el : element) (p : xpred) : bool :=
  match p with
  | XContains hay needle => Py.contains (eval_str el needle) (eval_str el hay)
  | XOr p q => eval el p || eval el q
  | XAnd p q => eval el p && eval el q
  end.

End XPath.

(** A locator: [//*[p]] or a CSS selector, which the browser interprets. *)
Inductive locator : Type :=
| ByXPath (p : xpred)
| ByCss (selector : string).

(** What a call on an element of the page gives: a value, or the exception
    it raises (the element went stale, it has no such child). *)
Inductive fetched (A : Type) : Type :=
| Got (a : A)
| Failed (e : exn).

Arguments Got {A} a.
Arguments Failed {A} e.

(** One row of the submissions table. *)
Record row : Type := MkRow {
  row_time : fetched string;      (* [row.find_element(".os__time").text] *)
  row_links : option (list (fetched (option string)))
    (* [get_attribute("href")] of each [a] of the row; [None]: the row went
       stale and [_extract_links] answers with no links *)
}.

(** The attributes [_is_button_enabled] reads off the next-page button. *)
Record button : Type := MkButton {
  btn_disabled : option string;
  btn_aria_disabled : option string;
  btn_class : option string;
  btn_error : option exn          (* what reading an attribute raises *)
}.

(** One snapshot of what the driver can see and do. *)
Record page : Type := MkPage {
  pg_elements : option (list element);      (* all elements in document order; [None]: the XPath query raises *)
  pg_css : string -> option (list element); (* [find_elements(By.CSS_SELECTOR, s)]; [None]: it raises *)
  pg_table : bool;                          (* the list container shows up before the wait times out *)
  pg_rows : list row;
  pg_page_spans : option (list (fetched string));
    (* [.text] of each hidden pagination span; [None]: the query raises *)
  pg_next : outcome button;                 (* looking up the clickable next-page button *)
  pg_script : option exn;                   (* what [execute_script] on the button raises *)
  pg_click : option exn;                    (* what a click raises, if anything *)
  pg_filter : option exn;                   (* what driving the date filter form raises *)
  pg_get : option exn;                      (* what [driver.get] raises *)
  pg_login : option exn;                    (* what the login flow raises *)
  pg_present : string -> bool;              (* the locator is present before the wait times out *)
  pg_body : option string;                  (* text of [body]; [None]: reading it raises *)
  pg_section : string -> option json;       (* what a field extractor returns; [None]: it raises *)
  pg_pcap_tab : bool;                       (* the PCAP tab button exists *)
  pg_pcap_button : bool                     (* the PCAP download item exists *)
}.

(** How a write of a document to a file ends: all of it reaches the file, the
    file cannot be opened, or the write stops after [n] characters (an
    [OSError] from the disk, or the process being killed there). *)
Inductive write_fate : Type :=
| Written
| NotOpened
| Cut (n : nat).

(** [with open(path, "w") as f: json.dump(doc, f, indent=2)] on the disk. *)
Definition write_file (path : string) (doc : json) (fate : write_fate)
    (d : gmap string file) : gmap string file :=
  match fate with
  | Written => <[path := Doc doc]> d
  | NotOpened => d
  | Cut n => <[path := interrupted_write doc n]> d
  end.

Definition written (fate : write_fate) : bool :=
  match fate with
  | Written => true
  | _ => false
  end.

(** The environment of a run, read by logical time. *)
Record Env : Type := MkEnv {
  page_at : nat -> page;
  clock_at : nat -> Z;          (* [time.time()], in milliseconds *)
  stdin_at : nat -> bool;       (* [input()] returns ([false]: EOFError) *)
  mail_at : nat -> bool;        (* the SMTP exchange succeeds *)
  disk_at : nat -> write_fate;  (* how a write to disk ends *)
  gui_at : nat -> bool;         (* [pyautogui.click] succeeds *)
  today_at : nat -> Z;          (* [datetime.now()] at midnight, as a day number *)
  driver_at : nat -> option exn (* what starting or quitting the browser raises *)
}.

Definition find_elements (pg : page) (loc : locator) : option (list element) :=
  match loc with
  | ByXPath p => filter (fun el => XPath.eval el p = true) <$> pg_elements pg
  | ByCss selector => pg_css pg selector
  end.

(** [any(el.is_displayed() for el in els)]; [None]: an [is_displayed] raised
    before a displayed element was found. *)
Fixpoint any_displayed (els : list element) : option bool :=
  match els with
  | [] => Some false
  | el :: rest =>
      match el_displayed el with
      | None => None
      | Some true => Some true
      | Some false => any_displayed rest
      end
  end.

(** The inner loop of the probes: some element is displayed, an element whose
    [is_displayed] raises being skipped. *)
Fixpoint some_displayed (els : list element) : bool :=
  match els with
  | [] => false
  | el :: rest =>
      match el_displayed el with
      | Some true => true
      | _ => some_displayed rest
      end
  end.

(** The outer loop of the probes over [(by, selector)] pairs; a query that
    raises is skipped. *)
Definition selectors_hit (pg : page) (selectors : list locator) : bool :=
  existsb (fun loc =>
             match find_elements pg loc with
             | Some els => some_displayed els
             | None => false
             end) selectors.

Definition upper_letters : string := "ABCDEFGHIJKLMNOPQRSTUVWXYZ".
Definition lower_letters : string := "abcdefghijklmnopqrstuvwxyz".

Definition css_challenge : string :=
  "form#challenge-form, div#cf-spinner, div[class*='cf-challenge'], div[class*='botcheck']".
Definition css_frames : string :=
  "iframe[src*='challenge'], iframe[src*='turnstile'], iframe[id*='cf-chl'], iframe[title*='challenge']".

(** [_is_button_enabled] (both collectors). *)
Definition is_button_enabled (b : button) : bool :=
  negb (match btn_disabled b with Some _ => true | None => false end
        || match btn_aria_disabled b with
           | Some a => Py.truthy (Some a) && String.eqb (Py.lower a) "true"
           | None => false
           end
        || Py.contains "disabled" (Py.lower (default "" (btn_class b)))).

(** [WebDriverWait.until]: it polls the condition, passes over the
    [NoSuchElementException] of a poll and ends in [TimeoutException] when
    the condition never held; other exceptions leave it as they are. *)
Definition wait_until {A} (found : outcome A) : outcome A :=
  match found with
  | Raise e => if exn_eqb e NoSuchElementException then Raise TimeoutException else Raise e
  | r => r
  end.

(** [time.time()] *)
Definition now {O} (env : Env) : M O Z := observe (clock_at env).

(** [input(...)] under [try ... except EOFError] *)
Definition prompt_operator {O} (env : Env) : M O unit :=
  let* answered := observe (stdin_at env) in
  emit (EvPrompt answered).

(** ** [src/scraper.py]: the report scraper *)

Module Report.

Record scraper : Type := MkScraper {
  output_dir : string;
  checkpoint_file : string;
  login_email : option string;
  login_password : option string;
  smtp_host : option string;
  smtp_from : option string;
  smtp_to : option string;
  last_bot_prompt : Z;
  bot_notification_sent : bool;
  processed_urls : gset string;
  driver : bool;
  page_delay : Py.pyfloat
}.

Definition with_notified (b : bool) (o : scraper) : scraper :=
  MkScraper (output_dir o) (checkpoint_file o) (login_email o) (login_password o)
    (smtp_host o) (smtp_from o) (smtp_to o) (last_bot_prompt o) b
    (processed_urls o) (driver o) (page_delay o).

Definition with_last_prompt (t : Z) (o : scraper) : scraper :=
  MkScraper (output_dir o) (checkpoint_file o) (login_email o) (login_password o)
    (smtp_host o) (smtp_from o) (smtp_to o) t (bot_notification_sent o)
    (processed_urls o) (driver o) (page_delay o).

Definition with_processed (p : gset string) (o : scraper) : scraper :=
  MkScraper (output_dir o) (checkpoint_file o) (login_email o) (login_password o)
    (smtp_host o) (smtp_from o) (smtp_to o) (last_bot_prompt o)
    (bot_notification_sent o) p (driver o) (page_delay o).

Definition with_driver (b : bool) (o : scraper) : scraper :=
  MkScraper (output_dir o) (checkpoint_file o) (login_email o) (login_password o)
    (smtp_host o) (smtp_from o) (smtp_to o) (last_bot_prompt o)
    (bot_notification_sent o) (processed_urls o) b (page_delay o).

Abbreviation run_state := (state scraper).

(** [set(data.get("processed_urls", []))]: [None] when building the set
    raises (an unhashable item, a value that is not iterable).  Hashable items
    that are not strings never equal a URL and are left out. *)
Fixpoint hashable_strings (items : list json) : option (gset string) :=
  match items with
  | [] => Some ∅
  | JStr s :: rest => (fun acc => {[ s ]} ∪ acc) <$> hashable_strings rest
  | JList _ :: _ | JDict _ :: _ => None
  | _ :: rest => hashable_strings rest
  end.

Fixpoint chars_of (s : string) : gset string :=
  match s with
  | EmptyString => ∅
  | String c t => {[ String c EmptyString ]} ∪ chars_of t
  end.

Definition set_of_json (j : json) : option (gset string) :=
  match j with
  | JList items => hashable_strings items
  | JStr s => Some (chars_of s)
  | JDict fields => Some (list_to_set (map fst fields))
  | _ => None
  end.

(** [_load_checkpoint] *)
Definition load_checkpoint (path : string) (d : gmap string file) : gset string :=
  match d !! path with
  | Some (Doc (JDict fields)) =>
      default ∅ (set_of_json (default (JList []) (Json.get "processed_urls" fields)))
  | _ => ∅
  end.

Definition checkpoint_doc (o : scraper) : json :=
  JDict [("processed_urls", JList (map JStr (elements (processed_urls o))))].

(** [_save_checkpoint] *)
Definition save_checkpoint (env : Env) : M scraper unit :=
  let* o := get_obj in
  let* fate := observe (disk_at env) in
  let* _ := set_disk (write_file (checkpoint_file o) (checkpoint_doc o) fate) in
  emit (EvSaveCheckpoint (written fate)).

(** The disk when the process is killed inside [_save_checkpoint] after [n]
    characters of the document reached the file. *)
Definition save_checkpoint_killed (n : nat) (s : run_state) : gmap string file :=
  write_file (checkpoint_file (obj s)) (checkpoint_doc (obj s)) (Cut n) (disk s).

(** The character class [[a-f0-9-]]. *)
Definition is_task_char (c : ascii) : bool :=
  let n := Py.ascii_code c in
  ((97 <=? n) && (n <=? 102) || (48 <=? n) && (n <=? 57) || (n =? 45))%N.

Fixpoint take_while (p : ascii -> bool) (s : string) : string :=
  match s with
  | String c t => if p c then String c (take_while p t) else EmptyString
  | EmptyString => EmptyString
  end.

Fixpoint strip_prefix (p s : string) : option string :=
  match p, s with
  | EmptyString, _ => Some s
  | String a p', String b s' => if Ascii.eqb a b then strip_prefix p' s' else None
  | String _ _, EmptyString => None
  end.

(** A match of [/tasks/([a-f0-9-]+)] that starts at the first character:
    group 1. *)
Definition task_id_here (url : string) : option string :=
  match strip_prefix "/tasks/" url with
  | Some rest =>
      match take_while is_task_char rest with
      | EmptyString => None
      | id => Some id
      end
  | None => None
  end.

(** [_extract_task_id]: [re.search], the leftmost match wins. *)
Fixpoint extract_task_id (url : string) : option string :=
  match task_id_here url with
  | Some id => Some id
  | None =>
      match url with
      | EmptyString => None
      | String _ t => extract_task_id t
      end
  end.

Definition smtp_configured (o : scraper) : bool :=
  Py.truthy (smtp_host o) && Py.truthy (smtp_from o) && Py.truthy (smtp_to o).

(** [[addr.strip() for addr in smtp_to.split(",") if addr.strip()]] *)
Definition recipients (smtp_to : string) : list string :=
  List.filter (fun a => Py.truthy (Some a)) (map Py.strip (Py.split "," smtp_to)).

(** [_send_email_notification]; its exceptions are the caller's to catch. *)
Definition send_email_notification (env : Env) : M scraper unit :=
  let* o := get_obj in
  if negb (smtp_configured o) then (let* _ := emit (EvAlert false) in raise ValueError)
  else match recipients (default "" (smtp_to o)) with
       | [] => let* _ := emit (EvAlert false) in raise ValueError
       | _ =>
           let* ok := observe (mail_at env) in
           let* _ := emit (EvAlert ok) in
           if ok then ret tt else raise SMTPException
       end.

(** [_is_bot_challenge_present]: the probe on one snapshot. *)
Definition xp_notice_exact : xpred :=
  XOr (XContains XText (XLit "We noticed a large number of requests"))
      (XContains XText (XLit "We noticed large number of requests")).

Definition xp_lowered : xstr :=
  XTranslate (XNormalizeSpace XSelf) upper_letters lower_letters.

Definition xp_notice_any_case : xpred :=
  XAnd (XContains xp_lowered (XLit "we noticed"))
       (XContains xp_lowered (XLit "requests")).

Definition selectors : list locator :=
  [ByXPath xp_notice_exact; ByCss css_challenge; ByCss css_frames].

Definition probe (pg : page) : bool :=
  match any_displayed <$> find_elements pg (ByXPath xp_notice_any_case) with
  | Some (Some true) => true
  | _ => selectors_hit pg selectors
  end.

Definition is_bot_challenge_present (env : Env) : M scraper bool :=
  let* o := get_obj in
  if negb (driver o) then ret false
  else
    let* pg := observe (page_at env) in
    let* _ := emit (EvProbe (probe pg)) in
    ret (probe pg).

(** [_notify_bot_challenge] *)
Definition notify_bot_challenge (env : Env) : M scraper unit :=
  let* o := get_obj in
  if bot_notification_sent o then ret tt
  else if negb (smtp_configured o) then ret tt
  else
    (* the body of the message reads [driver.current_url] *)
    let* pg := observe (page_at env) in
    match pg_get pg with
    | Some e => raise e
    | None =>
        let* _ := try_except (send_email_notification env) AnyException (fun _ => ret tt) in
        set_obj (with_notified true)
    end.

(** [click_on_bot_challenge] *)
Definition click_on_bot_challenge (env : Env) : M scraper unit :=
  let* _ := observe (gui_at env) in
  emit EvRecoveryClick.

(** [_check_for_bot_challenge] *)
Definition check_for_bot_challenge (env : Env) : M scraper bool :=
  let* o := get_obj in
  if negb (driver o) then ret false
  else
    let* present := is_bot_challenge_present env in
    if negb present then
      let* o := get_obj in
      let* _ := (if bot_notification_sent o then set_obj (with_notified false) else ret tt) in
      ret false
    else
      let* _ := notify_bot_challenge env in
      let* t := now env in
      let* o := get_obj in
      if t - last_bot_prompt o <? 2000 then ret true
      else
        let* _ := click_on_bot_challenge env in
        let* still := is_bot_challenge_present env in
        if still then
          let* _ := notify_bot_challenge env in
          let* _ := prompt_operator env in
          let* t' := now env in
          let* _ := set_obj (with_last_prompt t') in
          ret true
        else
          let* t' := now env in
          let* _ := set_obj (with_last_prompt t') in
          ret true.

(** [_handle_login_if_needed]: without credentials it returns at once; the
    login flow itself is the browser layer's. *)
Definition handle_login_if_needed (env : Env) : M scraper unit :=
  let* o := get_obj in
  if negb (Py.truthy (login_email o) && Py.truthy (login_password o)) then ret tt
  else
    let* pg := observe (page_at env) in
    let* _ := emit EvLogin in
    match pg_login pg with
    | Some e => raise e
    | None => ret tt
    end.

(** [_initial_login] *)
Definition initial_login (env : Env) : M scraper unit :=
  let* o := get_obj in
  if negb (Py.truthy (login_email o) && Py.truthy (login_password o)) then ret tt
  else
    try_except
      (let* pg := observe (page_at env) in
       let* _ := emit (EvNavigate "https://app.any.run/") in
       match pg_get pg with
       | Some e => raise e
       | None => handle_login_if_needed env
       end)
      AnyException (fun _ => ret tt).

(** [len(driver.find_element(By.TAG_NAME, "body").text) > least] under a
    bare [except]. *)
Definition body_longer_than (env : Env) (least : nat) : M scraper bool :=
  let* pg := observe (page_at env) in
  let* _ := emit (EvRead "body") in
  match pg_body pg with
  | Some text => ret (least <? String.length text)%nat
  | None => ret false
  end.

Definition page_load_selectors : list string :=
  ["//div[contains(@class, 'task')]"; "body"].

(** The [for by, selector in selectors_to_try] loop of
    [_wait_for_page_load]; [true]: the loop returned [True]. *)
Fixpoint wait_for_selectors (env : Env) (sels : list string) : M scraper bool :=
  match sels with
  | [] => ret false
  | sel :: rest =>
      let* loaded :=
        try_except
          (let* pg := observe (page_at env) in
           let* _ := emit (EvFind sel) in
           if pg_present pg sel then
             let* _ := check_for_bot_challenge env in
             body_longer_than env 100
           else raise TimeoutException)
          (Only [TimeoutException])
          (fun _ => let* _ := check_for_bot_challenge env in ret false) in
      if loaded then ret true else wait_for_selectors env rest
  end.

(** [_wait_for_page_load] *)
Definition wait_for_page_load (env : Env) : M scraper bool :=
  let* _ := check_for_bot_challenge env in
  let* loaded := wait_for_selectors env page_load_selectors in
  if loaded then ret true
  else
    let* _ := check_for_bot_challenge env in
    body_longer_than env 50.

(** [find_and_click_pcap_download] *)
Definition find_and_click_pcap_download (env : Env) : M scraper bool :=
  try_except
    (let* pg := observe (page_at env) in
     let* _ := emit (EvFind "pcap-tab") in
     if negb (pg_pcap_tab pg) then ret false
     else
       let* _ := emit (EvClick "pcap-tab") in
       match pg_click pg with
       | Some e => raise e
       | None =>
           let* _ := check_for_bot_challenge env in
           let* _ := check_for_bot_challenge env in
           let* pg' := observe (page_at env) in
           let* _ := emit (EvFind "pcap-button") in
           if negb (pg_pcap_button pg') then ret false
           else
             let* _ := check_for_bot_challenge env in
             let* pg'' := observe (page_at env) in
             let* _ := emit (EvClick "pcap-button") in
             match pg_click pg'' with
             | Some e => raise e
             | None =>
                 let* _ := check_for_bot_challenge env in
                 ret true
             end
       end)
    AnyException (fun _ => ret false).

(** The characters [re.sub] replaces by an underscore in [download_pcap]:
    angle brackets, colon, double quote, both slashes, bar, question mark and
    star. *)
Definition is_unsafe_char (c : ascii) : bool :=
  existsb (Ascii.eqb c) ["<"; ">"; ":"; Json.quote; "/"; Json.backslash; "|"; "?"; "*"]%char.

Fixpoint sanitize (s : string) : string :=
  match s with
  | EmptyString => EmptyString
  | String c t => String (if is_unsafe_char c then "_"%char else c) (sanitize t)
  end.

(** [d.get(key, fallback)] where the extractors only ever store strings;
    [None]: the value is no string and the caller's string operation raises. *)
Definition get_string (key fallback : string) (fields : list (string * json)) : option string :=
  match Json.get key fields with
  | None => Some fallback
  | Some (JStr s) => Some s
  | Some _ => None
  end.

(** The file name [download_pcap] builds from the report. *)
Definition pcap_path (pcap_dir task_id : string) (report : list (string * json)) : option string :=
  match default (JDict []) (Json.get "general_info" report) with
  | JDict info =>
      verdict ← get_string "verdict" "unknown" info;
      file_name ← get_string "file_name" "unknown" info;
      md5 ← get_string "md5" "" info;
      Some (pcap_dir ++ "/" ++ task_id ++ "_" ++ verdict ++ "_"
            ++ take_chars 50 (sanitize file_name) ++ "_" ++ take_chars 8 md5 ++ ".pcap")
  | _ => None
  end.

(** [download_pcap] *)
Definition download_pcap (env : Env) (task_id : string) (report : list (string * json))
  : M scraper (option string) :=
  try_except
    (let* clicked := find_and_click_pcap_download env in
     if negb clicked then ret None
     else
       match pcap_path "pcap_files" task_id report with
       | None => raise TypeError
       | Some path =>
           let* _ := check_for_bot_challenge env in
           ret (Some path)
       end)
    AnyException (fun _ => ret None).

(** One of the field extractors [scrape_general_info], [scrape_process_info],
    [scrape_ioc_details] and [scrape_mitre_attack]: what it reads off the
    page, or the exception that leaves it. *)
Definition extractor (env : Env) (name : string) : M scraper json :=
  let* pg := observe (page_at env) in
  let* _ := emit (EvExtract name) in
  match pg_section pg name with
  | None => raise WebDriverException
  | Some payload => ret payload
  end.

(** The sections of the Deep Analysis panel in the order of its tabs, each
    with the selectors [_wait_for_deep_analysis_section] polls: the
    container, its rows, the empty marker, the preloader. *)
Record section_config : Type := MkSection {
  sec_key : string;
  sec_container : string;
  sec_row : string;
  sec_empty : string;
  sec_loading : string
}.

Definition deep_sections : list section_config :=
  [MkSection "http_requests" "#deep-analysis-reqs-table" ".reqs-table-item"
     ".no-data" ".loading, .ar-preloader";
   MkSection "connections" "#deep-analysis-conns-table" ".conns-table-item"
     ".no-data" ".loading, .ar-preloader";
   MkSection "dns_requests" "#deep-analysis-dns-table" ".dns-table-item"
     ".no-data" ".loading, .ar-preloader";
   MkSection "threats" "#deep-analysis-threat-table" ".threat-table-item"
     ".no-data" ".loading, .ar-preloader";
   MkSection "files" "#deep-analysis-files-table"
     ".deep-analysis-files-table-item, .files-table-item"
     ".no-data" ".loading, .ar-preloader"].

(** [container.find_elements(By.CSS_SELECTOR, selector)], asked of the
    snapshot as a query below the container. *)
Definition find_below (pg : page) (container selector : string) : option (list element) :=
  pg_css pg (container ++ " " ++ selector).

(** The [while time.time() < end_time] loop of
    [_wait_for_deep_analysis_section].  Every round starts with
    [_check_for_bot_challenge]; a round that does not return sleeps a quarter
    of a second, so [rounds] bounds them by the time allowed.  A query of
    the driver that raises ends the loop ([except Exception: break]), a
    missing container and a stale element are passed over. *)
Fixpoint poll_section (env : Env) (sec : section_config) (end_time : Z) (rounds : nat)
  : M scraper bool :=
  match rounds with
  | O => ret false
  | S n =>
      let* t := now env in
      if negb (t <? end_time) then ret false
      else
        let* _ := check_for_bot_challenge env in
        let* pg := observe (page_at env) in
        let* _ := emit (EvFind (sec_container sec)) in
        match pg_css pg (sec_container sec) with
        | None => ret false
        | Some [] => poll_section env sec end_time n
        | Some (container :: _) =>
            match el_displayed container with
            | Some true =>
                match find_below pg (sec_container sec) (sec_loading sec) with
                | Some [] =>
                    match find_below pg (sec_container sec) (sec_row sec) with
                    | Some (_ :: _) => ret true
                    | Some [] =>
                        match find_below pg (sec_container sec) (sec_empty sec) with
                        | Some (_ :: _) => ret true
                        | _ => poll_section env sec end_time n
                        end
                    | None => poll_section env sec end_time n
                    end
                | _ => poll_section env sec end_time n
                end
            | _ => poll_section env sec end_time n
            end
        end
  end.

(** [_wait_for_deep_analysis_section(section_key, timeout=8.0)]: eight
    seconds in rounds of a quarter of a second. *)
Definition wait_for_deep_analysis_section (env : Env) (sec : section_config) : M scraper bool :=
  let* t := now env in
  poll_section env sec (t + 8000) 32.

(** [data[section_key] = ...] on a [dict] that has the key. *)
Fixpoint set_item (key : string) (v : json) (fields : list (string * json))
  : list (string * json) :=
  match fields with
  | [] => []
  | (k, old) :: rest =>
      if String.eqb k key then (k, v) :: rest else (k, old) :: set_item key v rest
  end.

(** The [for index, nav_item in enumerate(navigation_items)] loop of
    [scrape_deep_analysis], one tab per section: the tab is clicked (by
    JavaScript when the click fails, and skipped when that fails too), the
    section is waited for and read.  An exception that leaves the wait or
    the reading of the section ends the loop with what [data] holds. *)
Fixpoint scrape_sections (env : Env) (sections : list section_config) (tabs : list element)
    (data : list (string * json)) : M scraper (list (string * json)) :=
  match sections, tabs with
  | sec :: sections', _ :: tabs' =>
      let* pg := observe (page_at env) in
      let* _ := emit (EvClick "li.deep-analysis-navigation-item") in
      let* clicked :=
        match pg_click pg with
        | None => ret true
        | Some _ =>
            let* pg' := observe (page_at env) in
            let* _ := emit (EvClick "li.deep-analysis-navigation-item") in
            ret (match pg_click pg' with None => true | Some _ => false end)
        end in
      if negb clicked then scrape_sections env sections' tabs' data
      else
        let* waited :=
          try_except
            (let* _ := wait_for_deep_analysis_section env sec in ret true)
            AnyException (fun _ => ret false) in
        if negb waited then ret data
        else
          let* pg' := observe (page_at env) in
          let* _ := emit (EvExtract (sec_key sec)) in
          match pg_section pg' (sec_key sec) with
          | None => ret data
          | Some payload =>
              scrape_sections env sections' tabs' (set_item (sec_key sec) payload data)
          end
  | _, _ => ret data
  end.

(** [scrape_deep_analysis]: it returns [data] whatever happens. *)
Definition scrape_deep_analysis (env : Env) : M scraper json :=
  let data := [("http_requests", JList []); ("connections", JList []);
               ("dns_requests", JList []); ("threats", JList []); ("files", JList [])] in
  let* pg := observe (page_at env) in
  let* _ := emit (EvExtract "deep_analysis") in
  match pg_css pg "li.deep-analysis-navigation-item" with
  | None => ret (JDict data)
  | Some tabs =>
      let* data := scrape_sections env deep_sections tabs data in
      ret (JDict data)
  end.

Definition report_file (o : scraper) (task_id : string) : string :=
  output_dir o ++ "/" ++ task_id ++ "_report.json".

(** The end of [scrape_report]: the record is written to
    [<output_dir>/<task_id>_report.json] and returned. *)
Definition write_report (env : Env) (task_id : string) (report : list (string * json))
  : M scraper (option json) :=
  let* o := get_obj in
  let* fate := observe (disk_at env) in
  let* _ := set_disk (write_file (report_file o task_id) (JDict report) fate) in
  let* _ := emit (EvWriteRecord (report_file o task_id) (written fate)) in
  if written fate then ret (Some (JDict report)) else raise OSError.

(** [scrape_report] *)
Definition scrape_report (env : Env) (url : string) : M scraper (option json) :=
  match extract_task_id url with
  | None => ret None
  | Some task_id =>
      try_except
        (let* pg := observe (page_at env) in
         let* _ := emit (EvNavigate url) in
         match pg_get pg with
         | Some e => raise e
         | None =>
             let* _ := handle_login_if_needed env in
             let* _ := check_for_bot_challenge env in
             let* loaded := wait_for_page_load env in
             let* loaded := (if loaded then ret true else wait_for_page_load env) in
             if negb loaded then ret None
             else
               let* general_info := extractor env "general_info" in
               let* process_info := extractor env "process_info" in
               let* ioc_details := extractor env "ioc_details" in
               let* mitre_attack := extractor env "mitre_attack" in
               let* deep_analysis := scrape_deep_analysis env in
               let report :=
                 [("task_id", JStr task_id); ("url", JStr url);
                  ("general_info", general_info); ("process_info", process_info);
                  ("ioc_details", ioc_details); ("mitre_attack", mitre_attack);
                  ("deep_analysis", deep_analysis)] in
               let* pcap := download_pcap env task_id report in
               let report :=
                 if Py.truthy pcap then (report ++ [("pcap_file", JStr (default "" pcap))])%list
                 else report in
               write_report env task_id report
         end)
        AnyException (fun _ => ret None)
  end.

(** [_init_driver]: the browser is started, then its page-load timeout is
    set; either call may raise. *)
Definition init_driver (env : Env) : M scraper unit :=
  let* started := observe (driver_at env) in
  match started with
  | Some e => raise e
  | None =>
      let* _ := set_obj (with_driver true) in
      let* configured := observe (driver_at env) in
      match configured with
      | Some e => raise e
      | None => ret tt
      end
  end.

(** [_close_driver] *)
Definition close_driver (env : Env) : M scraper unit :=
  let* o := get_obj in
  if negb (driver o) then ret tt
  else
    let* quit := observe (driver_at env) in
    match quit with
    | Some e => raise e
    | None => set_obj (with_driver false)
    end.

(** The body of the [for] loop of [run] up to the pause. *)
Definition process_url (env : Env) (url : string) : M scraper unit :=
  let* result := scrape_report env url in
  match result with
  | Some _ =>
      let* _ := set_obj (fun o => with_processed ({[ url ]} ∪ processed_urls o) o) in
      let* _ := emit (EvProcessed url) in
      save_checkpoint env
  | None => ret tt
  end.

(** One turn of the [for i, url in enumerate(urls_to_process, 1)] loop of
    [run]: the URL is processed, and before every URL but the last the loop
    sleeps [page_delay] seconds. *)
Definition turn (env : Env) (total : nat) (numbered : nat * string) : M scraper unit :=
  let* _ := process_url env (snd numbered) in
  if (fst numbered <? total)%nat then
    let* o := get_obj in
    sleep (page_delay o)
  else ret tt.

(** [enumerate(xs, 1)] *)
Definition enumerate {A} (xs : list A) : list (nat * A) :=
  combine (seq 1 (length xs)) xs.

(** [run]; [urls] is the [report_url] column of the input sheet, [None] when
    the sheet cannot be read. *)
Definition run (env : Env) (urls : option (list string)) : M scraper unit :=
  match urls with
  | None => ret tt
  | Some urls =>
      let* o := get_obj in
      let urls_to_process :=
        List.filter (fun url => negb (bool_decide (url ∈ processed_urls o))) urls in
      match urls_to_process with
      | [] => ret tt
      | _ =>
          let* _ := init_driver env in
          let* _ := initial_login env in
          finally
            (for_each (enumerate urls_to_process) (turn env (length urls_to_process)))
            (close_driver env)
      end
  end.

End Report.

(** ** The two versions of [AnyRunScraper], the URL collector *)

(** The calendar functions of [datetime] the date-bucket version calls; a day
    is a day number. *)
Record Calendar : Type := MkCalendar {
  parse_long : string -> option Z;   (* [strptime(s, "%d %B %Y, %H:%M")], time of day dropped *)
  parse_short : string -> option Z;  (* [strptime(s, "%d %B %Y")] *)
  format_mdy : Z -> string           (* [strftime("%m/%d/%Y")] *)
}.

Module Collector.

(** The fields of an [AnyRunScraper] object.  [pages_processed] and
    [last_bot_prompt] belong to the page-counter version alone,
    [last_processed_date], [current_scraping_date] and [driver] to the
    date-bucket version; each version ignores the other's. *)
Record scraper : Type := MkScraper {
  state_path : option string;
  output_path : string;
  bot_check_selector : option string;
  smtp_host : option string;
  smtp_from : option string;
  smtp_to : option string;
  collected_urls : gset string;
  pages_processed : Z;
  last_processed_date : option string;
  current_scraping_date : option Z;
  bot_notified : bool;
  last_bot_prompt : Z;
  driver : bool
}.

Definition with_collected (u : gset string) (o : scraper) : scraper :=
  MkScraper (state_path o) (output_path o) (bot_check_selector o) (smtp_host o)
    (smtp_from o) (smtp_to o) u (pages_processed o) (last_processed_date o)
    (current_scraping_date o) (bot_notified o) (last_bot_prompt o) (driver o).

Definition with_pages (n : Z) (o : scraper) : scraper :=
  MkScraper (state_path o) (output_path o) (bot_check_selector o) (smtp_host o)
    (smtp_from o) (smtp_to o) (collected_urls o) n (last_processed_date o)
    (current_scraping_date o) (bot_notified o) (last_bot_prompt o) (driver o).

Definition with_last_date (d : option string) (o : scraper) : scraper :=
  MkScraper (state_path o) (output_path o) (bot_check_selector o) (smtp_host o)
    (smtp_from o) (smtp_to o) (collected_urls o) (pages_processed o) d
    (current_scraping_date o) (bot_notified o) (last_bot_prompt o) (driver o).

Definition with_current_date (d : option Z) (o : scraper) : scraper :=
  MkScraper (state_path o) (output_path o) (bot_check_selector o) (smtp_host o)
    (smtp_from o) (smtp_to o) (collected_urls o) (pages_processed o)
    (last_processed_date o) d (bot_notified o) (last_bot_prompt o) (driver o).

Definition with_notified (b : bool) (o : scraper) : scraper :=
  MkScraper (state_path o) (output_path o) (bot_check_selector o) (smtp_host o)
    (smtp_from o) (smtp_to o) (collected_urls o) (pages_processed o)
    (last_processed_date o) (current_scraping_date o) b (last_bot_prompt o) (driver o).

Definition with_last_prompt (t : Z) (o : scraper) : scraper :=
  MkScraper (state_path o) (output_path o) (bot_check_selector o) (smtp_host o)
    (smtp_from o) (smtp_to o) (collected_urls o) (pages_processed o)
    (last_processed_date o) (current_scraping_date o) (bot_notified o) t (driver o).

Abbreviation run_state := (state scraper).

(** The object [__init__] builds from the configuration of [o], before it
    calls [_load_state]. *)
Definition init (o : scraper) : scraper :=
  MkScraper (state_path o) (output_path o) (bot_check_selector o) (smtp_host o)
    (smtp_from o) (smtp_to o) ∅ 0 None None false 0 false.

Definition str_le (a b : string) : Prop := String.leb a b = true.

#[global] Instance str_le_dec (a b : string) : Decision (str_le a b).
Proof. unfold str_le. apply _. Defined.

(** [sorted(self._collected_urls)] *)
Definition sorted_urls (u : gset string) : list string := merge_sort str_le (elements u).

(** [time.time()] as [json.dump] prints it, which is [repr] of the float:
    for a reading in milliseconds the shortest decimal, that is the
    thousandths without trailing zeros and with one decimal at least. *)
Definition float_literal (ms : Z) : string :=
  let whole := Z.abs ms / 1000 in
  let frac := Z.abs ms mod 1000 in
  (if ms <? 0 then "-" else "") ++ pretty whole ++ "."
  ++ (if frac mod 100 =? 0 then pretty (frac / 100)
      else if frac mod 10 =? 0 then pretty (frac / 100) ++ pretty (frac / 10 mod 10)
      else pretty (frac / 100) ++ pretty (frac / 10 mod 10) ++ pretty (frac mod 10)).

(** [str(url) for url in urls if isinstance(url, str)] *)
Fixpoint strings_of (items : list json) : list string :=
  match items with
  | [] => []
  | JStr s :: rest => s :: strings_of rest
  | _ :: rest => strings_of rest
  end.

(** The [collected_urls] part of [_load_state]. *)
Definition loaded_urls (fields : list (string * json)) : gset string :=
  match default (JList []) (Json.get "collected_urls" fields) with
  | JList items => list_to_set (strings_of items)
  | _ => ∅
  end.

Definition smtp_configured (o : scraper) : bool :=
  Py.truthy (smtp_host o) && Py.truthy (smtp_from o) && Py.truthy (smtp_to o).

Definition recipients (smtp_to : string) : list string :=
  List.filter (fun a => Py.truthy (Some a)) (map Py.strip (Py.split "," smtp_to)).

(** [_send_email_alert] *)
Definition send_email_alert (env : Env) : M scraper unit :=
  let* o := get_obj in
  match recipients (default "" (smtp_to o)) with
  | [] => let* _ := emit (EvAlert false) in raise ValueError
  | _ =>
      let* ok := observe (mail_at env) in
      let* _ := emit (EvAlert ok) in
      if ok then ret tt else raise SMTPException
  end.

(** [_notify_bot_block] *)
Definition notify_bot_block (env : Env) : M scraper unit :=
  let* _ := set_obj (with_notified true) in
  let* o := get_obj in
  if negb (smtp_configured o) then ret tt
  else try_except (send_email_alert env) AnyException (fun _ => ret tt).

(** The [driver] and [wait] properties: [RuntimeError] when no browser was
    started. *)
Definition require_driver : M scraper unit :=
  let* o := get_obj in
  if driver o then ret tt else raise RuntimeError.

(** The [href]s [_collect_current_page_urls] keeps from one row. *)
Definition keeps (href : option string) : bool :=
  match href with
  | Some h => Py.truthy (Some h) && Py.contains "/tasks" h && negb (Py.contains "/browse" h)
  | None => false
  end.

(** The [href]s that can be read off the links of a row. *)
Definition hrefs (links : list (fetched (option string))) : list (option string) :=
  omap (fun link => match link with Got href => Some href | Failed _ => None end) links.

(** The links of a row that [_collect_current_page_urls] keeps when it can
    read them all. *)
Definition row_urls (r : row) : list string :=
  omap id (List.filter keeps (hrefs (default [] (row_links r)))).

(** The [for link in self._extract_links(row)] loop: [get_attribute] is not
    under a [try], an exception it raises leaves the scan. *)
Fixpoint add_links (links : list (fetched (option string))) : M scraper unit :=
  match links with
  | [] => ret tt
  | Got href :: rest =>
      let* _ :=
        (if keeps href
         then set_obj (fun o => with_collected ({[ default "" href ]} ∪ collected_urls o) o)
         else ret tt) in
      add_links rest
  | Failed e :: _ => raise e
  end.

(** [_get_current_page_number] on one snapshot: the first span whose text
    is an integer.  Reading the text of a span is not under a [try]. *)
Fixpoint first_int (texts : list (fetched string)) : fetched (option Z) :=
  match texts with
  | [] => Got None
  | Got text :: rest =>
      match Py.strip text with
      | EmptyString => first_int rest
      | t => match Py.int t with
             | Some n => Got (Some n)
             | None => first_int rest
             end
      end
  | Failed e :: _ => Failed e
  end.

Definition page_number (pg : page) : fetched (option Z) :=
  match pg_page_spans pg with
  | Some texts => first_int texts
  | None => Got None
  end.

(** [_get_current_page_number]; the [driver] property raising is one of the
    exceptions it answers with [None]. *)
Definition get_current_page_number (env : Env) : M scraper (option Z) :=
  let* o := get_obj in
  if negb (driver o) then ret None
  else
    let* pg := observe (page_at env) in
    let* _ := emit (EvRead "page-number") in
    match page_number pg with
    | Got n => ret n
    | Failed e => raise e
    end.

(** [_save_results]: the sheet is rewritten; a failing write is not caught. *)
Definition save_results (env : Env) (final : bool) : M scraper unit :=
  let* fate := observe (disk_at env) in
  let* _ := emit (EvSaveResults final) in
  if written fate then ret tt else raise OSError.

(** [_clear_state] *)
Definition clear_state (env : Env) : M scraper unit :=
  let* o := get_obj in
  match state_path o with
  | None => ret tt
  | Some path =>
      let* d := get_disk in
      match d !! path with
      | None => ret tt
      | Some _ =>
          let* fate := observe (disk_at env) in
          let* _ := emit EvClearState in
          if written fate then set_disk (delete path) else ret tt
      end
  end.

(** [_ensure_authenticated]: the login flow is the browser layer's. *)
Definition ensure_authenticated (env : Env) : M scraper unit :=
  let* _ := require_driver in
  let* pg := observe (page_at env) in
  let* _ := emit EvLogin in
  match pg_login pg with
  | Some e => raise e
  | None => ret tt
  end.

Section Shared.

(** What the two versions write differently. *)
Variable env : Env.
Variable handle_bot_challenge : M scraper bool.
Variable state_data : scraper -> Z -> json.

(** [while self._handle_bot_challenge(): pass] *)
Fixpoint await_clear (fuel : nat) : M scraper unit :=
  match fuel with
  | O => out_of_fuel
  | S n =>
      let* again := handle_bot_challenge in
      if again then await_clear n else ret tt
  end.

(** [_ensure_table_loaded] *)
Fixpoint ensure_table_loaded (fuel : nat) : M scraper unit :=
  match fuel with
  | O => out_of_fuel
  | S n =>
      let* _ := require_driver in
      let* pg := observe (page_at env) in
      let* _ := emit (EvFind "history-table--content") in
      let* again := handle_bot_challenge in
      if again then ensure_table_loaded n
      else if pg_table pg then ret tt
      else raise TimeoutException
  end.

(** The end of [_go_to_next_page], once the button was waited for: the
    enabled check (three attribute reads), the scroll, the click, the wait
    for the table.  Only the click and the wait for the table are under a
    [try]. *)
Definition press_next (next : outcome button) (fuel : nat) : M scraper bool :=
  match next with
  | OutOfFuel => out_of_fuel
  | Raise e => if exn_eqb e NoSuchElementException then ret false else raise e
  | Ok next_button =>
      match btn_error next_button with
      | Some e => raise e
      | None =>
          if negb (is_button_enabled next_button) then ret false
          else
            let* pg' := observe (page_at env) in
            match pg_script pg' with
            | Some e => raise e
            | None =>
                let* _ := emit (EvClick "history-pagination__next") in
                match pg_click pg' with
                | Some e =>
                    if exn_eqb e StaleElementReferenceException then ret false else raise e
                | None =>
                    try_except
                      (let* _ := ensure_table_loaded fuel in ret true)
                      (Only [TimeoutException]) (fun _ => ret false)
                end
            end
      end
  end.

(** [_go_to_next_page] *)
Definition go_to_next_page (fuel : nat) : M scraper bool :=
  let* _ := await_clear fuel in
  let* _ := require_driver in
  let* pg := observe (page_at env) in
  let* _ := emit (EvFind "history-pagination__next") in
  press_next (wait_until (pg_next pg)) fuel.

(** [_save_state] *)
Definition save_state : M scraper unit :=
  let* o := get_obj in
  match state_path o with
  | None => ret tt
  | Some path =>
      let* t := now env in
      let* fate := observe (disk_at env) in
      let* _ := set_disk (write_file path (state_data o t) fate) in
      emit (EvSaveState (written fate))
  end.

(** [_persist_progress] *)
Definition persist_progress : M scraper unit :=
  let* _ := save_results env false in
  save_state.

End Shared.

End Collector.

(** ** [src/Link Scarper/any_run_scraper.py]: the page-counter version *)

Module Link.

Import Collector.

Definition xp_suspicious : xpred :=
  XOr (XContains XText (XLit "Suspicious activity"))
      (XContains XText (XLit "confirm that you are not a bot")).

(** [[seg.strip() for seg in additional.split(",") if seg.strip()]] *)
Definition additional_selectors (o : scraper) : list locator :=
  if Py.truthy (bot_check_selector o) then
    map ByCss (List.filter (fun seg => Py.truthy (Some seg))
                 (map Py.strip (Py.split "," (default "" (bot_check_selector o)))))
  else [].

(** [_is_bot_challenge_present] on one snapshot. *)
Definition probe (o : scraper) (pg : page) : bool :=
  selectors_hit pg
    ([ByXPath xp_suspicious; ByCss css_challenge; ByCss css_frames] ++ additional_selectors o).

(** [_is_bot_challenge_present]; its [if not self.driver] reads the [driver]
    property, which raises when there is no browser. *)
Definition is_bot_challenge_present (env : Env) : M scraper bool :=
  let* o := get_obj in
  if negb (driver o) then raise RuntimeError
  else
    let* pg := observe (page_at env) in
    let* _ := emit (EvProbe (probe o pg)) in
    ret (probe o pg).

(** [_handle_bot_challenge] *)
Definition handle_bot_challenge (env : Env) : M scraper bool :=
  let* o := get_obj in
  if negb (Py.truthy (bot_check_selector o)) then ret false
  else
    let* present := is_bot_challenge_present env in
    if negb present then
      let* _ := (if bot_notified o then set_obj (with_notified false) else ret tt) in
      ret false
    else
      let* _ := (if bot_notified o then ret tt else notify_bot_block env) in
      let* t := now env in
      if t - last_bot_prompt o <? 2000 then ret true
      else
        let* _ := prompt_operator env in
        let* t' := now env in
        let* _ := set_obj (with_last_prompt t') in
        ret true.

Definition state_data (o : scraper) (t : Z) : json :=
  JDict [("collected_urls", JList (map JStr (sorted_urls (collected_urls o))));
         ("pages_processed", JInt (pages_processed o));
         ("timestamp", JFloat (float_literal t))].

(** [isinstance(v, int) and v >= 0]; a JSON boolean is a Python [bool], which
    is an [int]. *)
Definition loaded_pages (fields : list (string * json)) : option Z :=
  match default (JInt 0) (Json.get "pages_processed" fields) with
  | JInt n => if 0 <=? n then Some n else None
  | JBool b => Some (if b then 1 else 0)
  | _ => None
  end.

(** [_load_state] *)
Definition load_state : M scraper unit :=
  let* o := get_obj in
  match state_path o with
  | None => ret tt
  | Some path =>
      let* d := get_disk in
      match d !! path with
      | None | Some (Torn _) => ret tt
      | Some (Doc (JDict fields)) =>
          let* _ := set_obj (fun o => with_collected (collected_urls o ∪ loaded_urls fields) o) in
          match loaded_pages fields with
          | Some n => set_obj (with_pages n)
          | None => ret tt
          end
      | Some (Doc _) => raise AttributeError
      end
  end.

Definition await_clear (env : Env) := Collector.await_clear (handle_bot_challenge env).
Definition ensure_table_loaded (env : Env) :=
  Collector.ensure_table_loaded env (handle_bot_challenge env).
Definition go_to_next_page (env : Env) :=
  Collector.go_to_next_page env (handle_bot_challenge env).
Definition save_state (env : Env) := Collector.save_state env state_data.
Definition persist_progress (env : Env) := Collector.persist_progress env state_data.

(** The disk when the process is killed inside [_save_state] after [n]
    characters of the document reached the file; [t] is the time stamp. *)
Definition save_state_killed (n : nat) (t : Z) (s : run_state) : gmap string file :=
  match state_path (obj s) with
  | Some path => write_file path (state_data (obj s) t) (Cut n) (disk s)
  | None => disk s
  end.

(** [_collect_current_page_urls] *)
Definition collect_current_page_urls (env : Env) : M scraper unit :=
  let* _ := require_driver in
  let* pg := observe (page_at env) in
  let* _ := emit (EvRowScan (length (pg_rows pg))) in
  for_each (pg_rows pg) (fun r => add_links (default [] (row_links r))).

(** The [while attempts < max_attempts] loop of [_skip_processed_pages];
    [left] is [max_attempts - attempts]. *)
Fixpoint seek_page (env : Env) (fuel : nat) (target_page : Z) (left : nat) : M scraper bool :=
  match left with
  | O => ret false
  | S left' =>
      let* _ := await_clear env fuel in
      let* page_from_ui := get_current_page_number env in
      if match page_from_ui with
         | Some p => target_page <=? p
         | None => false
         end
      then ret true
      else
        let* advanced := go_to_next_page env fuel in
        if negb advanced then ret false
        else seek_page env fuel target_page left'
  end.

(** [_skip_processed_pages] *)
Definition skip_processed_pages (env : Env) (fuel : nat) : M scraper bool :=
  let* o := get_obj in
  let pages_to_skip := pages_processed o in
  if pages_to_skip <=? 0 then ret true
  else
    let target_page := pages_to_skip + 1 in
    let* current_page := get_current_page_number env in
    match current_page with
    | Some p =>
        if target_page <=? p then ret true
        else
          let pages_to_skip := Z.max (target_page - p) 0 in
          if pages_to_skip =? 0 then ret true
          else seek_page env fuel target_page (Z.to_nat (Z.max (pages_to_skip + 3) 5))
    | None =>
        seek_page env fuel target_page (Z.to_nat (Z.max (pages_to_skip + 3) 5))
    end.

(** The [while True] loop of [run]. *)
Fixpoint scan_pages (env : Env) (fuel : nat) : M scraper unit :=
  match fuel with
  | O => out_of_fuel
  | S n =>
      let* _ := await_clear env (S n) in
      let* _ := collect_current_page_urls env in
      let* _ := set_obj (fun o => with_pages (pages_processed o + 1) o) in
      let* _ := persist_progress env in
      let* _ := get_current_page_number env in
      let* more := go_to_next_page env (S n) in
      if more then scan_pages env n else ret tt
  end.

(** [run] *)
Definition run (env : Env) (fuel : nat) : M scraper (list string) :=
  let* _ := require_driver in
  let* pg := observe (page_at env) in
  let* _ := emit (EvNavigate "https://app.any.run/submissions") in
  match pg_get pg with
  | Some e => raise e
  | None =>
      let* _ := ensure_authenticated env in
      let* _ := ensure_table_loaded env fuel in
      let* aligned := skip_processed_pages env fuel in
      let* _ := (if aligned then scan_pages env fuel else ret tt) in
      let* o := get_obj in
      let* _ := save_results env true in
      let* _ := clear_state env in
      ret (sorted_urls (collected_urls o))
  end.

End Link.

(** ** [src/any_run_scraper.py]: the date-bucket version *)

Module Dated.

Import Collector.

(** [_is_bot_challenge_present]: the same locators as the report scraper. *)
Definition probe (pg : page) : bool := Report.probe pg.

Definition is_bot_challenge_present (env : Env) : M scraper bool :=
  let* o := get_obj in
  if negb (driver o) then ret false
  else
    let* pg := observe (page_at env) in
    let* _ := emit (EvProbe (probe pg)) in
    ret (probe pg).

(** [click_on_bot_challenge] *)
Definition click_on_bot_challenge (env : Env) : M scraper unit :=
  let* _ := observe (gui_at env) in
  emit EvRecoveryClick.

(** [_handle_bot_challenge] *)
Definition handle_bot_challenge (env : Env) : M scraper bool :=
  let* present := is_bot_challenge_present env in
  let* o := get_obj in
  if negb present then
    let* _ := (if bot_notified o then set_obj (with_notified false) else ret tt) in
    ret false
  else
    let* _ := (if bot_notified o then ret tt else notify_bot_block env) in
    let* _ := click_on_bot_challenge env in
    let* still := is_bot_challenge_present env in
    let* _ := (if still then emit EvPollSleep else ret tt) in
    ret true.

Section WithCalendar.

Variable cal : Calendar.

Definition state_data (o : scraper) (t : Z) : json :=
  JDict [("collected_urls", JList (map JStr (sorted_urls (collected_urls o))));
         ("last_processed_date",
          match last_processed_date o with Some d => JStr d | None => JNull end);
         ("current_scraping_date",
          match current_scraping_date o with
          | Some day => JStr (format_mdy cal day)
          | None => JNull
          end);
         ("timestamp", JFloat (float_literal t))].

(** The day [_load_state] resumes from, read off the text of the last row:
    the long format first, then the part before the first comma in the short
    one. *)
Definition resume_day (last_date : string) : option Z :=
  match parse_long cal last_date with
  | Some day => Some day
  | None => parse_short cal (default "" (head (Py.split "," last_date)))
  end.

(** [_load_state] *)
Definition load_state : M scraper unit :=
  let* o := get_obj in
  match state_path o with
  | None => ret tt
  | Some path =>
      let* d := get_disk in
      match d !! path with
      | None | Some (Torn _) => ret tt
      | Some (Doc (JDict fields)) =>
          let* _ := set_obj (fun o => with_collected (collected_urls o ∪ loaded_urls fields) o) in
          match Json.get "last_processed_date" fields with
          | Some (JStr (String c t)) =>
              let last_date := String c t in
              let* _ := set_obj (with_last_date (Some last_date)) in
              match resume_day last_date with
              | Some day => set_obj (with_current_date (Some day))
              | None => ret tt
              end
          | _ => ret tt
          end
      | Some (Doc _) => raise AttributeError
      end
  end.

Definition await_clear (env : Env) := Collector.await_clear (handle_bot_challenge env).
Definition ensure_table_loaded (env : Env) :=
  Collector.ensure_table_loaded env (handle_bot_challenge env).
Definition go_to_next_page (env : Env) :=
  Collector.go_to_next_page env (handle_bot_challenge env).
Definition save_state (env : Env) := Collector.save_state env state_data.
Definition persist_progress (env : Env) := Collector.persist_progress env state_data.

(** The disk when the process is killed inside [_save_state] after [n]
    characters of the document reached the file; [t] is the time stamp. *)
Definition save_state_killed (n : nat) (t : Z) (s : run_state) : gmap string file :=
  match state_path (obj s) with
  | Some path => write_file path (state_data (obj s) t) (Cut n) (disk s)
  | None => disk s
  end.

(** One row of [_collect_current_page_urls]: the date first, then the
    links. *)
Definition collect_row (r : row) : M scraper unit :=
  let* _ :=
    match row_time r with
    | Got text =>
        match Py.strip text with
        | EmptyString => ret tt
        | row_date => set_obj (with_last_date (Some row_date))
        end
    | Failed e => if exn_eqb e NoSuchElementException then ret tt else raise e
    end in
  add_links (default [] (row_links r)).

(** [_collect_current_page_urls] *)
Definition collect_current_page_urls (env : Env) : M scraper unit :=
  let* _ := require_driver in
  let* pg := observe (page_at env) in
  let* _ := emit (EvRowScan (length (pg_rows pg))) in
  for_each (pg_rows pg) collect_row.

(** [_apply_date_filter_for_day] *)
Definition apply_date_filter_for_day (env : Env) (fuel : nat) (date_str : string) : M scraper bool :=
  try_except
    (let* _ := require_driver in
     let* pg := observe (page_at env) in
     let* _ := emit (EvForm date_str) in
     match pg_filter pg with
     | Some e => raise e
     | None =>
         let* _ := ensure_table_loaded env fuel in
         ret true
     end)
    (Only [NoSuchElementException; TimeoutException]) (fun _ => ret false).

(** The inner [while True] loop of [run]: the pages of one day. *)
Fixpoint scan_day (env : Env) (fuel : nat) : M scraper unit :=
  match fuel with
  | O => out_of_fuel
  | S n =>
      let* _ := await_clear env (S n) in
      let* _ := collect_current_page_urls env in
      let* _ := persist_progress env in
      let* more := go_to_next_page env (S n) in
      if more then scan_day env n else ret tt
  end.

(** The outer [while True] loop of [run]: day after day, backwards. *)
Fixpoint scan_days (env : Env) (fuel days : nat) (current_date : Z) : M scraper unit :=
  match days with
  | O => out_of_fuel
  | S days' =>
      let* _ := set_obj (with_current_date (Some current_date)) in
      let* applied := apply_date_filter_for_day env fuel (format_mdy cal current_date) in
      if negb applied then ret tt
      else
        let* _ := scan_day env fuel in
        scan_days env fuel days' (current_date - 1)
  end.

(** [run] *)
Definition run (env : Env) (fuel : nat) : M scraper (list string) :=
  let* _ := require_driver in
  let* pg := observe (page_at env) in
  let* _ := emit (EvNavigate "https://app.any.run/submissions") in
  match pg_get pg with
  | Some e => raise e
  | None =>
      let* _ := ensure_authenticated env in
      let* _ := ensure_table_loaded env fuel in
      let* o := get_obj in
      let* current_date :=
        match current_scraping_date o with
        | Some day => ret day
        | None => observe (today_at env)
        end in
      let* _ := scan_days env fuel fuel current_date in
      let* o := get_obj in
      let* _ := save_results env true in
      let* _ := clear_state env in
      ret (sorted_urls (collected_urls o))
  end.

End WithCalendar.

End Dated.

(** ** [src/scraper.py]: the sheet utilities [create_subset] and
    [create_batches]

    A sheet is the list of its rows; [to_excel] either writes a whole sheet
    or raises. *)

Module Sheets.

Section Rows.

Context {A : Type}.

(** A slice bound as Python normalises it against a length: a negative
    bound counts from the end, and both ends are clamped. *)
Definition slice_bound (len i : Z) : Z :=
  if i <? 0 then Z.max (i + len) 0 else Z.min i len.

(** [df.iloc[start:stop]] *)
Definition iloc (start stop : Z) (df : list A) : list A :=
  let len := Z.of_nat (length df) in
  let first := slice_bound len start in
  let last := slice_bound len stop in
  take (Z.to_nat (last - first)) (drop (Z.to_nat first) df).

(** [df.head(n)], which pandas defines as [df.iloc[:n]]. *)
Definition head (n : Z) (df : list A) : list A := iloc 0 n df.

(** [create_subset]: what it returns and the sheet it writes.  [df] is
    [None] when [pd.read_excel] raises; [output_file] is the argument. *)
Definition create_subset (df : option (list A)) (num_urls : Z) (output_file : option string)
    (write_ok : bool) : option string * option (string * list A) :=
  let output_file :=
    match output_file with
    | Some name => name
    | None => "reports_" ++ pretty num_urls ++ ".xlsx"
    end in
  match df with
  | None => (None, None)
  | Some df =>
      let num_urls :=
        if Z.of_nat (length df) <? num_urls then Z.of_nat (length df) else num_urls in
      let subset_df := head num_urls df in
      if write_ok then (Some output_file, Some (output_file, subset_df))
      else (None, None)
  end.

(** [f"batch_{i+1:03d}.xlsx"], the name below [output_path]. *)
Definition zero_pad (width : nat) (digits : string) : string :=
  String.concat "" (replicate (width - String.length digits) "0") ++ digits.

Definition batch_name (i : nat) : string :=
  "batch_" ++ zero_pad 3 (pretty (S i)) ++ ".xlsx".

(** The [for i in range(num_batches)] loop of [create_batches] over the
    indices still to do; [written] are the sheets written so far.  A
    [to_excel] that raises ends the loop ([false]). *)
Fixpoint write_batches (df : list A) (batch_size total : Z) (write_ok : nat -> bool)
    (indices : list nat) (written : list (string * list A))
  : bool * list (string * list A) :=
  match indices with
  | [] => (true, written)
  | i :: rest =>
      let start_idx := Z.of_nat i * batch_size in
      let end_idx := Z.min (start_idx + batch_size) total in
      let batch_df := iloc start_idx end_idx df in
      if write_ok i
      then write_batches df batch_size total write_ok rest
             (written ++ [(batch_name i, batch_df)])
      else (false, written)
  end.

(** [create_batches]: what it returns (the names of the batch files, or
    the exception of [mkdir]) and the sheets it leaves in [output_dir].
    Whatever raises after [mkdir] makes it return the empty list: a sheet
    that cannot be read, the division by a batch size of zero, a sheet that
    cannot be written. *)
Definition create_batches (mkdir_ok : bool) (df : option (list A)) (batch_size : Z)
    (write_ok : nat -> bool) : outcome (list string) * list (string * list A) :=
  if negb mkdir_ok then (Raise OSError, [])
  else
    match df with
    | None => (Ok [], [])
    | Some df =>
        let total := Z.of_nat (length df) in
        if batch_size =? 0 then (Ok [], [])
        else
          let num_batches := (total + batch_size - 1) / batch_size in
          match write_batches df batch_size total write_ok
                  (seq 0 (Z.to_nat num_batches)) [] with
          | (true, written) => (Ok (map fst written), written)
          | (false, written) => (Ok [], written)
          end
    end.

End Rows.

End Sheets.


(** ** [src/scraper.py]: the summary of the scraped reports *)

Module Summary.

(** [d.get(key, fallback)] on what [json.load] returned; [None]: [d] is no
    [dict] and the call raises [AttributeError]. *)
Definition get (key : string) (fallback : json) (d : json) : option json :=
  match d with
  | JDict fields => Some (default fallback (Json.get key fields))
  | _ => None
  end.

(** [len(x)]; [None]: [TypeError]. *)
Definition len (x : json) : option Z :=
  match x with
  | JList items => Some (Z.of_nat (length items))
  | JStr s => Some (Z.of_nat (String.length s))
  | JDict fields => Some (Z.of_nat (length fields))
  | _ => None
  end.

Fixpoint chars (s : string) : list json :=
  match s with
  | EmptyString => []
  | String c t => JStr (String c EmptyString) :: chars t
  end.

(** What a [for] loop or [str.join] draws from [x]: the items of a list, the
    characters of a string, the keys of a dict; [None]: [TypeError]. *)
Definition iter (x : json) : option (list json) :=
  match x with
  | JList items => Some items
  | JStr s => Some (chars s)
  | JDict fields => Some (map (fun kv => JStr (fst kv)) fields)
  | _ => None
  end.

Definition as_str (x : json) : option string :=
  match x with
  | JStr s => Some s
  | _ => None
  end.

(** [sep.join(x)]; [None]: [TypeError], [x] is not iterable or an item is no
    string. *)
Definition join (sep : string) (x : json) : option string :=
  items ← iter x;
  texts ← mapM as_str items;
  Some (String.concat sep texts).

(** The [row] that [create_summary_dataset] builds from one report;
    [None]: an exception left the [try] block and the report is skipped. *)
Definition summary_row (data : json) : option (list (string * json)) :=
  task_id ← get "task_id" (JStr "") data;
  url ← get "url" (JStr "") data;
  general_info ← get "general_info" (JDict []) data;
  file_name ← get "file_name" (JStr "") general_info;
  verdict ← get "verdict" (JStr "") general_info;
  os ← get "os" (JStr "") general_info;
  md5 ← get "md5" (JStr "") general_info;
  sha1 ← get "sha1" (JStr "") general_info;
  sha256 ← get "sha256" (JStr "") general_info;
  mime_type ← get "mime_type" (JStr "") general_info;
  tags ← get "tags" (JList []) general_info ≫= join ", ";
  num_behaviors ← get "behavior_activities" (JList []) data ≫= len;
  mitre_attack ← get "mitre_attack" (JDict []) data;
  techniques ← get "techniques" (JList []) mitre_attack;
  num_mitre_techniques ← len techniques;
  technique_ids ← iter techniques ≫= mapM (get "technique_id" (JStr ""));
  mitre_techniques ← join ", " (JList technique_ids);
  num_network_connections ← get "network_data" (JList []) data ≫= len;
  num_processes ← get "process_info" (JList []) data ≫= len;
  pcap_file ← get "pcap_file" (JStr "") data;
  Some [("task_id", task_id); ("url", url); ("file_name", file_name);
        ("verdict", verdict); ("os", os); ("md5", md5); ("sha1", sha1);
        ("sha256", sha256); ("mime_type", mime_type); ("tags", JStr tags);
        ("num_behaviors", JInt num_behaviors);
        ("num_mitre_techniques", JInt num_mitre_techniques);
        ("mitre_techniques", JStr mitre_techniques);
        ("num_network_connections", JInt num_network_connections);
        ("num_processes", JInt num_processes); ("pcap_file", pcap_file)].

(** [json.load] of a report file; [None]: the file is gone or holds no
    complete document, and [open] or [json.load] raises. *)
Definition read_report (d : gmap string file) (path : string) : option json :=
  match d !! path with
  | Some (Doc data) => Some data
  | _ => None
  end.

(** [create_summary_dataset]: the rows it writes to [dataset_summary.csv],
    [None] when it writes no file.  [report_files] is what
    [output_dir.glob("*_report.json")] lists. *)
Definition create_summary_dataset (report_files : list string) (d : gmap string file)
  : option (list (list (string * json))) :=
  match report_files with
  | [] => None
  | _ =>
      match omap (fun path => read_report d path ≫= summary_row) report_files with
      | [] => None
      | dataset => Some dataset
      end
  end.

End Summary.

(** * Fixtures: recorded environments to run the programs on *)

Module Fixture.

(** A list page without challenge: the table is there, it has no rows and
    no further page. *)
Definition quiet_page : page :=
  MkPage (Some []) (fun _ => Some []) true [] (Some []) (Raise TimeoutException)
    None None None None None (fun _ => true)
    (Some "ANY.RUN - Interactive Online Malware Sandbox. The report of the task is shown here, section by section.")
    (fun _ => Some (JDict [])) false false.

(** An element that shows [text]. *)
Definition notice (text : string) : element := MkElement text text (Some true).

Definition with_elements (els : list element) (pg : page) : page :=
  MkPage (Some els) (pg_css pg) (pg_table pg) (pg_rows pg) (pg_page_spans pg)
    (pg_next pg) (pg_script pg) (pg_click pg) (pg_filter pg) (pg_get pg) (pg_login pg)
    (pg_present pg) (pg_body pg) (pg_section pg) (pg_pcap_tab pg) (pg_pcap_button pg).

Definition with_get (e : option exn) (pg : page) : page :=
  MkPage (pg_elements pg) (pg_css pg) (pg_table pg) (pg_rows pg) (pg_page_spans pg)
    (pg_next pg) (pg_script pg) (pg_click pg) (pg_filter pg) e (pg_login pg)
    (pg_present pg) (pg_body pg) (pg_section pg) (pg_pcap_tab pg) (pg_pcap_button pg).

Definition with_rows (rows : list row) (pg : page) : page :=
  MkPage (pg_elements pg) (pg_css pg) (pg_table pg) rows (pg_page_spans pg)
    (pg_next pg) (pg_script pg) (pg_click pg) (pg_filter pg) (pg_get pg) (pg_login pg)
    (pg_present pg) (pg_body pg) (pg_section pg) (pg_pcap_tab pg) (pg_pcap_button pg).

Definition with_page_number (text : string) (pg : page) : page :=
  MkPage (pg_elements pg) (pg_css pg) (pg_table pg) (pg_rows pg) (Some [Got text])
    (pg_next pg) (pg_script pg) (pg_click pg) (pg_filter pg) (pg_get pg) (pg_login pg)
    (pg_present pg) (pg_body pg) (pg_section pg) (pg_pcap_tab pg) (pg_pcap_button pg).

Definition enabled_button : button := MkButton None None (Some "history-pagination__next") None.

Definition with_next (b : outcome button) (click : option exn) (pg : page) : page :=
  MkPage (pg_elements pg) (pg_css pg) (pg_table pg) (pg_rows pg) (pg_page_spans pg)
    b (pg_script pg) click (pg_filter pg) (pg_get pg) (pg_login pg)
    (pg_present pg) (pg_body pg) (pg_section pg) (pg_pcap_tab pg) (pg_pcap_button pg).

(** The page that shows the rate-limit notice of the site. *)
Definition challenge_page : page :=
  with_elements [notice "We noticed a large number of requests"] quiet_page.

(** An environment that shows [pages], ten seconds passing between two
    observations; the operator answers prompts, mail and disk work. *)
Definition env_of (pages : nat -> page) : Env :=
  MkEnv pages (fun n => 10000 * Z.of_nat n) (fun _ => true) (fun _ => true)
    (fun _ => Written) (fun _ => true) (fun _ => 19787) (fun _ => None).

(** The pages of a list by observation number, [rest] after its end. *)
Definition replay (pages : list page) (rest : page) : nat -> page :=
  fun n => nth n pages rest.

Definition quiet : Env := env_of (fun _ => quiet_page).
Definition always_challenged : Env := env_of (fun _ => challenge_page).

(** A page that shows both notices: the one the page-counter version looks
    for and the rate-limit notice. *)
Definition suspicious_page : page :=
  with_elements [notice "Suspicious activity detected";
                 notice "We noticed a large number of requests"] quiet_page.

Definition always_suspicious : Env := env_of (fun _ => suspicious_page).

(** A challenge that is gone at observation [n] and back afterwards. *)
Definition gone_at (n : nat) : Env :=
  env_of (fun k => if (k =? n)%nat then quiet_page else challenge_page).

Definition start {O} (o : O) : state O := MkState o 0 [] ∅.

Definition fails_to_load : page := with_get (Some WebDriverException) quiet_page.

(** Two URLs of one task; the browser starts (two observations), the first
    report loads and is scraped (fourteen observations), the second
    navigation fails. *)
Definition second_visit_fails : Env :=
  env_of (fun n => if (n <? 16)%nat then quiet_page else fails_to_load).

Definition first_url : string := "https://app.any.run/tasks/abc-123".
Definition second_url : string := "https://app.any.run/tasks/abc-123/".

(** A report scraper as [main] of [scraper.py] configures it, the browser
    started, without login credentials, two seconds between two URLs. *)
Definition reporter : Report.scraper :=
  Report.MkScraper "scraped_data" "scraper_checkpoint.json" None None
    (Some "smtp.gmail.com") (Some "malikameerhamzaqtb@gmail.com") (Some "i221570@nu.edu.pk")
    0 false ∅ true (Py.Finite 2000000000).

(** The same scraper as [--delay -1] configures it: [main] passes the delay
    on as it is. *)
Definition hasty : Report.scraper :=
  Report.MkScraper "scraped_data" "scraper_checkpoint.json" None None
    (Report.smtp_host reporter) (Report.smtp_from reporter) (Report.smtp_to reporter)
    0 false ∅ true (Py.Finite (-1000000000)).

(** A URL collector with the defaults of [ScraperConfig] and the mail
    settings of [parse_args]. *)
Definition collector : Collector.scraper :=
  Collector.MkScraper (Some "scraper_state.json") "reports.xlsx"
    (Some "form#challenge-form, div#cf-spinner, div[class*='cf-challenge'], div[class*='botcheck'], iframe[src*='challenge']")
    (Some "smtp.gmail.com") (Some "malikameerhamzaqtb@gmail.com") (Some "i221570@nu.edu.pk")
    ∅ 0 None None false 0 true.

Definition disabled_button : button :=
  MkButton None None (Some "history-pagination__next disabled") None.

(** The last page of a list: the next-page button is marked disabled. *)
Definition last_page : page := with_next (Ok disabled_button) None quiet_page.

(** The only page of 5 March 2024: one submission. *)
Definition march_5_page : page :=
  with_rows [MkRow (Got "05 March 2024, 10:00")
               (Some [Got (Some "https://app.any.run/tasks/abc-123")])] last_page.

(** [datetime] on the strings and days of the example: 5 March 2024 is day
    19787 of the epoch. *)
Definition march_2024 : Calendar :=
  MkCalendar
    (fun text => if String.eqb text "05 March 2024, 10:00" then Some 19787 else None)
    (fun text => if String.eqb text "05 March 2024" then Some 19787 else None)
    (fun day => if day =? 19787 then "03/05/2024"
                else if day =? 19786 then "03/04/2024" else "03/03/2024").

(** Two days of a date-bucket run: 5 March has one page with one
    submission, 4 March has none. *)
Definition two_days : Env :=
  env_of (fun n => if (n <? 12)%nat then march_5_page else last_page).

(** The collector when the run over [two_days] stops during 4 March. *)
Definition stopped_on_march_4 : Collector.run_state :=
  snd (Dated.run march_2024 two_days 2 (start collector)).

(** A first list page whose next-page button goes stale on the click. *)
Definition stale_first_page : page :=
  with_next (Ok enabled_button) (Some StaleElementReferenceException)
    (with_rows [MkRow (Failed NoSuchElementException)
                  (Some [Got (Some "https://app.any.run/tasks/abc-123")])] quiet_page).

(** The second and last list page. *)
Definition second_page : page :=
  with_rows [MkRow (Failed NoSuchElementException)
               (Some [Got (Some "https://app.any.run/tasks/def-456")])] last_page.

(** Two list pages; while the first one is looked at (thirteen observations
    of the run) its next-page button goes stale when clicked. *)
Definition stale_once : Env :=
  env_of (fun n => if (n <? 13)%nat then stale_first_page else second_page).

(** A list whose pagination control always reads page 1 and whose next-page
    button always works. *)
Definition stuck_on_page_1 : Env :=
  env_of (fun _ => with_page_number "1" (with_next (Ok enabled_button) None quiet_page)).

(** A list that shows page 5 when the run resumes. *)
Definition on_page_5 : Env := env_of (fun _ => with_page_number "5" last_page).

(** A collector that resumes with three pages processed. *)
Definition three_pages_done : Collector.run_state :=
  start (Collector.with_pages 3 collector).

(** A collector that already holds the submission of 5 March. *)
Definition resumed : Collector.run_state :=
  start (Collector.with_collected {[ first_url ]} collector).

(** A report scraper that has processed two URLs while its checkpoint file
    still lists the first one. *)
Definition checkpointed : Report.run_state :=
  MkState
    (Report.with_processed {[ first_url; second_url ]} reporter) 0 []
    {[ "scraper_checkpoint.json" :=
         Doc (Report.checkpoint_doc (Report.with_processed {[ first_url ]} reporter)) ]}.

(** The report scraper after a run over the two URLs of one task. *)
Definition after_second_visit : Report.run_state :=
  snd (Report.run second_visit_fails (Some [first_url; second_url]) (start reporter)).

(** A report page on which every CSS query of the driver raises. *)
Definition broken_queries : page :=
  MkPage (Some []) (fun _ => None) true [] (Some []) (Raise TimeoutException)
    None None None None None (fun _ => true) (pg_body quiet_page)
    (fun _ => Some (JDict [])) false false.

(** A report page with the tabs of the Deep Analysis panel, a verdict, two
    MITRE techniques and one process. *)
Definition report_page : page :=
  MkPage (Some [])
    (fun selector =>
       if String.eqb selector "li.deep-analysis-navigation-item"
       then Some [notice "HTTP"; notice "Connections"]
       else if String.eqb selector "#deep-analysis-reqs-table" then Some [notice "requests"]
       else if String.eqb selector "#deep-analysis-reqs-table .reqs-table-item"
       then Some [notice "GET /"]
       else Some [])
    true [] (Some []) (Raise TimeoutException) None None None None None (fun _ => true)
    (pg_body quiet_page)
    (fun name =>
       if String.eqb name "general_info"
       then Some (JDict [("verdict", JStr "Malicious activity");
                         ("tags", JList [JStr "trojan"; JStr "stealer"])])
       else if String.eqb name "mitre_attack"
       then Some (JDict [("techniques",
                          JList [JDict [("technique_id", JStr "T1059")];
                                 JDict [("technique_id", JStr "T1082")]])])
       else if String.eqb name "process_info" then Some (JList [JDict [("pid", JInt 4)]])
       else if String.eqb name "http_requests" then Some (JList [JDict [("url", JStr "/")]])
       else Some (JList []))
    false false.

End Fixture.

(** * The vocabulary of the statements *)

(** A Hoare triple over the run monad: from a state in [P], the outcome and
    the final state of [m] are in [Q].  It is a statement about every run,
    also those that raise or run out of fuel. *)
Definition triple {O A} (P : state O -> Prop) (m : M O A)
    (Q : outcome A -> state O -> Prop) : Prop :=
  forall s, P s -> Q (fst (m s)) (snd (m s)).

(** [m] keeps the invariant [I], however it ends. *)
Definition preserves {O A} (I : state O -> Prop) (m : M O A) : Prop :=
  triple I m (fun _ s' => I s').

Definition touch {O} (s : state O) (t : nat) : state O :=
  MkState (obj s) t (trace s) (disk s).

Definition log {O} (s : state O) (ev : event) : state O :=
  MkState (obj s) (tick s) (trace s ++ [ev]) (disk s).

Definition update {O} (s : state O) (f : O -> O) : state O :=
  MkState (f (obj s)) (tick s) (trace s) (disk s).

(** The events of the challenge protocol. *)
Definition is_protocol (ev : event) : bool :=
  match ev with
  | EvProbe _ | EvAlert _ | EvRecoveryClick | EvPrompt _ | EvPollSleep => true
  | _ => false
  end.

(** The URL has a segment [/tasks/] followed by at least one character of
    [[a-f0-9-]]. *)
Definition has_task_segment (url : string) : Prop :=
  exists pre c rest,
    url = pre ++ "/tasks/" ++ String c rest /\ Report.is_task_char c = true.

(** What [_load_checkpoint] makes of the checkpoint file. *)
Definition checkpoint_set (f : option file) : gset string :=
  match f with
  | Some (Doc (JDict fields)) =>
      default ∅ (Report.set_of_json (default (JList []) (Json.get "processed_urls" fields)))
  | _ => ∅
  end.

(** [url] is not marked processed: not in the set, not in the checkpoint
    file, and no [processed_urls.add(url)] is on the log. *)
Definition never_marked (url : string) (s : Report.run_state) : Prop :=
  (url ∉ Report.processed_urls (obj s))
  /\ (url ∉ Report.load_checkpoint (Report.checkpoint_file (obj s)) (disk s))
  /\ (EvProcessed url ∉ trace s).

(** On the log [tr], every [processed_urls.add(u)] comes after a complete
    write of the record file named by the task id of [u]. *)
Definition recorded_before_marked (dir : string) (tr : list event) : Prop :=
  forall pre post u,
    tr = (pre ++ EvProcessed u :: post)%list ->
    exists id,
      Report.extract_task_id u = Some id
      /\ EvWriteRecord (dir ++ "/" ++ id ++ "_report.json") true ∈ pre.

(** What C5 claims of a state and a URL: a record file named by the task id
    of the URL is on disk exactly when the URL is in the processed set. *)
Definition record_iff_processed (s : Report.run_state) (url : string) : Prop :=
  (exists id, Report.extract_task_id url = Some id
              /\ is_Some (disk s !! Report.report_file (obj s) id))
  <-> url ∈ Report.processed_urls (obj s).

(** What C1 claims of a save: the file afterwards is the file as it was or
    the complete new document. *)
Definition atomic_save (before after : option file) (new : json) : Prop :=
  after = before \/ after = Some (Doc new).

(** The object a new process gets: [_save_state] on [s], then [__init__]
    with the same configuration, which calls [_load_state]. *)
Definition link_reload (env : Env) (s : Collector.run_state) : Collector.scraper :=
  obj (snd (Link.load_state
              (MkState (Collector.init (obj s)) 0 [] (disk (snd (Link.save_state env s)))))).

Definition dated_reload (cal : Calendar) (env : Env) (s : Collector.run_state)
  : Collector.scraper :=
  obj (snd (Dated.load_state cal
              (MkState (Collector.init (obj s)) 0 []
                 (disk (snd (Dated.save_state cal env s)))))).

(** The object [_load_state] makes of a state file that holds [fields]. *)
Definition link_load_fields (o : Collector.scraper) (path : string)
    (fields : list (string * json)) : Collector.scraper :=
  obj (snd (Link.load_state (MkState o 0 [] {[ path := Doc (JDict fields) ]}))).

Definition dated_load_fields (cal : Calendar) (o : Collector.scraper) (path : string)
    (fields : list (string * json)) : Collector.scraper :=
  obj (snd (Dated.load_state cal (MkState o 0 [] {[ path := Doc (JDict fields) ]}))).

(** No field of [extra] has a name that [_load_state] reads. *)
Definition unknown_fields (extra : list (string * json)) : Prop :=
  Forall (fun kv => fst kv <> "collected_urls" /\ fst kv <> "pages_processed"
                    /\ fst kv <> "last_processed_date") extra.

(** The collected set of [s] holds all of [u]. *)
Definition holds_all (u : gset string) (s : Collector.run_state) : Prop :=
  u ⊆ Collector.collected_urls (obj s).

(** The links [_collect_current_page_urls] keeps from a page. *)
Definition page_links (pg : page) : list string :=
  concat (map Collector.row_urls (pg_rows pg)).

#[global] Instance event_eq_dec : EqDecision event.
Proof. solve_decision. Defined.

(** How many events of the log satisfy [p]. *)
Definition count_events (p : event -> bool) (tr : list event) : nat :=
  length (List.filter p tr).

Definition is_next_lookup (ev : event) : bool :=
  bool_decide (ev = EvFind "history-pagination__next").

Definition is_row_scan (ev : event) : bool :=
  match ev with
  | EvRowScan _ => true
  | _ => false
  end.

(** How often the log shows a lookup of the next-page button: each attempt
    to advance starts with one. *)
Definition next_page_lookups (tr : list event) : nat := count_events is_next_lookup tr.

Definition is_page_read (ev : event) : bool := bool_decide (ev = EvRead "page-number").

Definition is_next_click (ev : event) : bool :=
  bool_decide (ev = EvClick "history-pagination__next").

(** How often the log shows the page number being read off the page. *)
Definition page_reads (tr : list event) : nat := count_events is_page_read tr.

(** How often the log shows a click on the next-page button. *)
Definition next_page_clicks (tr : list event) : nat := count_events is_next_click tr.

(** The browser is started and the log shows [k] lookups of the next-page
    button, [m] reads of the page number and [c] clicks on the button. *)
Definition paged (k m c : nat) (s : Collector.run_state) : Prop :=
  Collector.driver (obj s) = true
  /\ next_page_lookups (trace s) = k
  /\ page_reads (trace s) = m
  /\ next_page_clicks (trace s) = c.

(** What the advance loop of [_skip_processed_pages] has done when the call
    that began in [s] ends as [r], the live page having been read once
    before the loop.  Some number of rounds, at most [budget], went as far
    as the lookup of the next-page button; each of them began with a read of
    the page number.  [True] is returned only by a further round whose read
    shows a page at or past [target], within the budget, every earlier round
    having clicked the button once and [_go_to_next_page] having answered
    [True].  [False] is returned when the budget is used up, every round
    having advanced, or as soon as [_go_to_next_page] answers [False]. *)
Definition advanced (env : Env) (fuel : nat) (target : Z) (budget : nat)
    (s : Collector.run_state) (r : outcome bool * Collector.run_state) : Prop :=
  exists rounds : nat,
    next_page_lookups (trace (snd r)) = (next_page_lookups (trace s) + rounds)%nat
    /\ (rounds <= budget)%nat
    /\ (fst r = Ok true ->
        (rounds < budget)%nat
        /\ page_reads (trace (snd r)) = (page_reads (trace s) + 1 + rounds + 1)%nat
        /\ next_page_clicks (trace (snd r)) = (next_page_clicks (trace s) + rounds)%nat
        /\ exists s1 q,
             Collector.get_current_page_number env s1 = (Ok (Some q), snd r)
             /\ target <= q)
    /\ (fst r = Ok false ->
        page_reads (trace (snd r)) = (page_reads (trace s) + 1 + rounds)%nat
        /\ ((rounds = budget
             /\ next_page_clicks (trace (snd r)) = (next_page_clicks (trace s) + rounds)%nat)
            \/ exists s1, Link.go_to_next_page env fuel s1 = (Ok false, snd r))).

(** Events that act on the page: navigation, clicks, the row scan, form
    input, extraction.  (Waiting for an element and reading a text are
    passive.) *)
Definition is_action (ev : event) : bool :=
  match ev with
  | EvNavigate _ | EvLogin | EvClick _ | EvRowScan _ | EvForm _ | EvExtract _ => true
  | _ => false
  end.

(** Reading a log from the left: whether the last probe reported a challenge
    ([blocked]), and whether some action was performed while it did
    ([violated]). *)
Definition gate_step (st : bool * bool) (ev : event) : bool * bool :=
  match ev with
  | EvProbe present => (present, snd st)
  | _ => (fst st, snd st || (fst st && is_action ev))
  end.

Definition gate_state (tr : list event) : bool * bool := fold_left gate_step tr (false, false).

Definition blocked (tr : list event) : bool := fst (gate_state tr).

(** No action of the log was performed while the last probe before it
    reported a challenge. *)
Definition gated (tr : list event) : Prop := snd (gate_state tr) = false.

(** The probe reports a challenge on every snapshot of the environment. *)
Definition always_present (probe : page -> bool) (env : Env) : Prop :=
  forall n, probe (page_at env n) = true.

(** From observation [n] on the probe reports no challenge. *)
Definition clear_from (probe : page -> bool) (env : Env) (n : nat) : Prop :=
  forall k, (n <= k)%nat -> probe (page_at env k) = false.

(** When the handler of a collector does not probe at all: the page-counter
    version without a configured selector; the date-bucket version always
    probes. *)
Definition link_off (o : Collector.scraper) : bool :=
  negb (Py.truthy (Collector.bot_check_selector o)).

Definition never_off (o : Collector.scraper) : bool := false.

(** The judgements of the gate, for a collector whose browser is started.
    [watched]: nothing was done under a challenge so far, and a program that
    never probes is not blocked.  [clear]: moreover the last probe reported
    no challenge. *)
Definition watched (off : Collector.scraper -> bool) (s : Collector.run_state) : Prop :=
  Collector.driver (obj s) = true
  /\ gated (trace s)
  /\ (off (obj s) = true -> blocked (trace s) = false).

Definition clear (s : Collector.run_state) : Prop :=
  Collector.driver (obj s) = true /\ gated (trace s) /\ blocked (trace s) = false.

Definition settled (off : Collector.scraper -> bool) {A} (r : outcome A)
    (s : Collector.run_state) : Prop :=
  match r with
  | OutOfFuel => watched off s
  | _ => clear s
  end.

(** [m] may act on the page: started clear, it never acts under a challenge
    and ends clear unless it runs out of fuel. *)
Definition acts (off : Collector.scraper -> bool) {A} (m : M Collector.scraper A) : Prop :=
  triple clear m (settled off).

(** What a challenge handler owes its callers: it acts on nothing, and it
    answers [False] only when its probe reported no challenge. *)
Definition handles (off : Collector.scraper -> bool) (handle : M Collector.scraper bool) : Prop :=
  triple (watched off) handle
    (fun r s' => watched off s'
                 /\ (r = Ok true \/ (r = Ok false /\ blocked (trace s') = false))).

(** The report scraper has seen a challenge, and no probe has reported it
    gone since. *)
Definition challenged (s : Report.run_state) : Prop :=
  Report.driver (obj s) = true /\ blocked (trace s) = true.

(** [m] ends under the challenge without waiting for it to go: it returns a
    value in [v] or raises, the challenge still showing. *)
Definition ends_round {A} (v : A -> Prop) (m : M Report.scraper A) : Prop :=
  triple challenged m
    (fun r s' => challenged s' /\
                 match r with Ok a => v a | Raise _ => True | OutOfFuel => False end).

Definition is_alert (ev : event) : bool :=
  match ev with
  | EvAlert _ => true
  | _ => false
  end.

(** How often the alert was attempted. *)
Definition alerts (tr : list event) : nat := count_events is_alert tr.

(** Reading a log from the left: whether an alert was attempted since the
    last probe that reported no challenge ([alerted]), and whether a second
    one was attempted before such a probe. *)
Definition alert_step (st : bool * bool) (ev : event) : bool * bool :=
  match ev with
  | EvProbe false => (false, snd st)
  | EvAlert _ => (true, snd st || fst st)
  | _ => st
  end.

Definition alert_state (tr : list event) : bool * bool := fold_left alert_step tr (false, false).

Definition alerted (tr : list event) : bool := fst (alert_state tr).

(** Between two probes that reported no challenge the log has at most one
    alert: at most one per occurrence of the challenge. *)
Definition one_alert_per_occurrence (tr : list event) : Prop := snd (alert_state tr) = false.

(** The invariant behind it: the browser is there ([on]), and once an alert
    went out the already-notified [flag] stays set until a probe reports the
    challenge gone. *)
Definition rationed {O} (on flag : O -> bool) (s : state O) : Prop :=
  on (obj s) = true
  /\ one_alert_per_occurrence (trace s)
  /\ (alerted (trace s) = true -> flag (obj s) = true).

(** The occurrences of the challenge a log shows: the maximal runs of probes
    that reported it. *)
Definition occurrence_step (st : bool * nat) (ev : event) : bool * nat :=
  match ev with
  | EvProbe true => (true, if fst st then snd st else S (snd st))
  | EvProbe false => (false, snd st)
  | _ => st
  end.

Definition occurrences (tr : list event) : nat := snd (fold_left occurrence_step tr (false, 0%nat)).

(** The settings of a collector that decide about probing and alerting. *)
Definition settings (o : Collector.scraper) : bool * bool * option string :=
  (Collector.driver o, Collector.bot_notified o, Collector.bot_check_selector o).

(** Two texts that differ in the case of ASCII letters at most. *)
Definition same_letters (a b : string) : Prop := Py.lower a = Py.lower b.

(** Two elements that show the same text up to letter case, equally
    visible. *)
Definition same_up_to_case (el el' : element) : Prop :=
  el_displayed el = el_displayed el'
  /\ same_letters (el_string_value el) (el_string_value el').

(** What the first, case-normalising locator of the probe of the report
    scraper answers: [Some (Some b)] is the answer [b] of [any(...)],
    anything else sends the probe on to its other selectors. *)
Definition notice_in_any_case (pg : page) : option (option bool) :=
  any_displayed <$> find_elements pg (ByXPath Report.xp_notice_any_case).

(** Every character of [s] is of the class [[a-f0-9-]]. *)
Fixpoint all_task_chars (s : string) : bool :=
  match s with
  | EmptyString => true
  | String c t => Report.is_task_char c && all_task_chars t
  end.

(** [s] does not go on with a character of the class. *)
Definition ends_task_id (s : string) : Prop :=
  match s with
  | EmptyString => True
  | String c _ => Report.is_task_char c = false
  end.

(** [m] keeps the invariant [I] and does not run out of fuel. *)
Definition finishes {O A} (I : state O -> Prop) (m : M O A) : Prop :=
  triple I m (fun r s' => r <> OutOfFuel /\ I s').

(** The log of [s] is [tr0] followed by events among which every
    [driver.get(u)] has [u] in [allowed]. *)
Definition visits_only {O} (allowed : string -> Prop) (tr0 : list event) (s : state O) : Prop :=
  exists new, trace s = (tr0 ++ new)%list /\ forall u, EvNavigate u ∈ new -> allowed u.

(** In the loop of [run] of the report scraper: the log is in [T], the pause
    between two URLs is [delay] and the browser is started. *)
Definition looping (delay : Py.pyfloat) (T : list event -> Prop) (s : Report.run_state) : Prop :=
  T (trace s) /\ Report.page_delay (obj s) = delay /\ Report.driver (obj s) = true.

(** The URLs of the sheet that [run] has to process from the state [s]:
    not yet in the processed set, and with a task id. *)
Definition pending (urls : list string) (s : Report.run_state) (u : string) : Prop :=
  u ∈ urls /\ (u ∉ Report.processed_urls (obj s)) /\ Report.extract_task_id u <> None.

(** [m] returns a value in [good] from every state: no exception leaves it
    and it does not run out of fuel. *)
Definition yields {O A} (m : M O A) (good : A -> Prop) : Prop :=
  forall s, exists a, fst (m s) = Ok a /\ good a.

Definition section_keys : list string :=
  ["http_requests"; "connections"; "dns_requests"; "threats"; "files"].

(** The sections of a Deep Analysis record: the five keys in order, each
    with the empty list or with what a snapshot of the session gave for the
    section. *)
Definition is_sections (env : Env) (data : list (string * json)) : Prop :=
  map fst data = section_keys
  /\ Forall (fun kv => snd kv = JList []
                       \/ exists n, pg_section (page_at env n) (fst kv) = Some (snd kv)) data.

Definition is_deep_analysis (env : Env) (j : json) : Prop :=
  exists data, j = JDict data /\ is_sections env data.

(** The record [scrape_report] builds for [url]: the seven fields in order,
    and [pcap_file] last when a capture was downloaded. *)
Definition is_record (env : Env) (task_id url : string) (data : json) : Prop :=
  exists general_info process_info ioc_details mitre_attack deep_analysis pcap,
    is_deep_analysis env deep_analysis
    /\ data = JDict ([("task_id", JStr task_id); ("url", JStr url);
                      ("general_info", general_info); ("process_info", process_info);
                      ("ioc_details", ioc_details); ("mitre_attack", mitre_attack);
                      ("deep_analysis", deep_analysis)]
                     ++ if Py.truthy pcap then [("pcap_file", JStr (default "" pcap))]
                        else [])%list.

(** * Reasoning about runs *)

Lemma triple_ret {O A} (P : state O -> Prop) (a : A) Q :
  (forall s, P s -> Q (Ok a) s) -> triple P (ret a) Q.
Proof. intros H s Hs. simpl. auto. Qed.

Lemma triple_bind {O A B} (P : state O -> Prop) (m : M O A) (k : A -> M O B) R Q :
  triple P m R ->
  (forall a, triple (R (Ok a)) (k a) Q) ->
  (forall e s, R (Raise e) s -> Q (Raise e) s) ->
  (forall s, R OutOfFuel s -> Q OutOfFuel s) ->
  triple P (bind m k) Q.
Proof.
  intros Hm Hk He Hf s Hs. specialize (Hm s Hs). unfold bind.
  destruct (m s) as [[a | e |] s']; simpl in *; auto.
  apply Hk. exact Hm.
Qed.

Lemma triple_weaken {O A} (P P' : state O -> Prop) (m : M O A) (Q Q' : outcome A -> state O -> Prop) :
  triple P' m Q' -> (forall s, P s -> P' s) -> (forall r s, Q' r s -> Q r s) ->
  triple P m Q.
Proof. intros H HP HQ s Hs. apply HQ, H, HP, Hs. Qed.

(** After a step that keeps [I], continue from [I]. *)
Lemma triple_bind_inv {O A B} (I : state O -> Prop) (m : M O A) (k : A -> M O B) Q :
  preserves I m ->
  (forall a, triple I (k a) Q) ->
  (forall e s, I s -> Q (Raise e) s) ->
  (forall s, I s -> Q OutOfFuel s) ->
  triple I (bind m k) Q.
Proof. intros Hm Hk He Hf. eapply triple_bind; eauto. Qed.

(** A triple, read off the result of one run. *)
Lemma triple_run {O A} (P : state O -> Prop) (m : M O A) (Q : outcome A -> state O -> Prop) :
  (forall s r s', P s -> m s = (r, s') -> Q r s') -> triple P m Q.
Proof. intros H s Hs. apply (H s); [exact Hs | apply surjective_pairing]. Qed.

Lemma preserves_ret {O A} (I : state O -> Prop) (a : A) : preserves I (ret a).
Proof. intros s Hs. exact Hs. Qed.

Lemma preserves_raise {O A} (I : state O -> Prop) (e : exn) : preserves I (@raise O A e).
Proof. intros s Hs. exact Hs. Qed.

Lemma preserves_out_of_fuel {O A} (I : state O -> Prop) : preserves I (@out_of_fuel O A).
Proof. intros s Hs. exact Hs. Qed.

Lemma preserves_get_obj {O} (I : state O -> Prop) : preserves I get_obj.
Proof. intros s Hs. exact Hs. Qed.

Lemma preserves_get_disk {O} (I : state O -> Prop) : preserves I get_disk.
Proof. intros s Hs. exact Hs. Qed.

Lemma preserves_bind {O A B} (I : state O -> Prop) (m : M O A) (k : A -> M O B) :
  preserves I m -> (forall a, preserves I (k a)) -> preserves I (bind m k).
Proof. intros Hm Hk. apply triple_bind_inv; auto. Qed.

Lemma preserves_try_except {O A} (I : state O -> Prop) (body : M O A) h recover :
  preserves I body -> (forall e, preserves I (recover e)) ->
  preserves I (try_except body h recover).
Proof.
  intros Hb Hr s Hs. specialize (Hb s Hs). unfold try_except.
  destruct (body s) as [[a | e |] s']; simpl in *; auto.
  destruct (catches h e); simpl; auto. apply Hr. exact Hb.
Qed.

Lemma preserves_for_each {O A} (I : state O -> Prop) (xs : list A) (body : A -> M O unit) :
  (forall x, preserves I (body x)) -> preserves I (for_each xs body).
Proof.
  intros Hb. induction xs as [| x xs IH]; simpl.
  - apply preserves_ret.
  - apply preserves_bind; auto.
Qed.

Lemma preserves_finally {O A} (I : state O -> Prop) (body : M O A) (cleanup : M O unit) :
  preserves I body -> preserves I cleanup -> preserves I (finally body cleanup).
Proof.
  intros Hb Hc s Hs. specialize (Hb s Hs). unfold finally.
  destruct (body s) as [r s']. simpl in Hb. specialize (Hc s' Hb).
  destruct (cleanup s') as [[[] | e |] s'']; exact Hc.
Qed.

Lemma preserves_sleep {O} (I : state O -> Prop) (secs : Py.pyfloat) : preserves I (sleep secs).
Proof. intros s Hs. unfold sleep. destruct (sleep_error secs); exact Hs. Qed.

(** The structural steps of a proof that a program keeps an invariant. *)
Ltac preserves_step :=
  lazymatch goal with
  | |- preserves _ (bind _ _) => apply preserves_bind; [| intros ?]
  | |- preserves _ (finally _ _) => apply preserves_finally
  | |- preserves _ (sleep _) => apply preserves_sleep
  | |- preserves _ (try_except _ _ _) => apply preserves_try_except; [| intros ?]
  | |- preserves _ (ret _) => apply preserves_ret
  | |- preserves _ (raise _) => apply preserves_raise
  | |- preserves _ out_of_fuel => apply preserves_out_of_fuel
  | |- preserves _ get_obj => apply preserves_get_obj
  | |- preserves _ get_disk => apply preserves_get_disk
  | |- preserves _ (for_each _ _) => apply preserves_for_each; intros ?
  | |- preserves _ (if ?b then _ else _) => destruct b eqn:?
  | |- preserves _ (match ?x with _ => _ end) => destruct x eqn:?
  end.

Create HintDb run_inv discriminated.

Ltac preserves_auto := repeat (first [ solve [eauto with run_inv] | preserves_step ]).

(** Asking for the browser changes nothing. *)
Lemma preserves_require_driver (I : Collector.run_state -> Prop) :
  preserves I Collector.require_driver.
Proof.
  intros s Hs. unfold Collector.require_driver, bind, get_obj.
  destruct (Collector.driver (obj s)); exact Hs.
Qed.

#[export] Hint Resolve preserves_require_driver : run_inv.

(** ** Frame lemmas for the report scraper *)

Lemma preserves_observe {O A} (I : state O -> Prop) (reading : nat -> A) :
  (forall s t, I s -> I (touch s t)) -> preserves I (observe reading).
Proof. intros H s Hs. apply (H s (S (tick s)) Hs). Qed.

Lemma preserves_emit {O} (I : state O -> Prop) (ev : event) :
  (forall s, I s -> I (log s ev)) -> preserves I (emit ev).
Proof. intros H s Hs. apply (H s Hs). Qed.

Lemma preserves_set_obj {O} (I : state O -> Prop) (f : O -> O) :
  (forall s, I s -> I (update s f)) -> preserves I (set_obj f).
Proof. intros H s Hs. apply (H s Hs). Qed.

Module ReportFacts.

Import Report.

Section Challenge.

Variable env : Env.
Variable I : run_state -> Prop.
Hypothesis I_touch : forall s t, I s -> I (touch s t).
Hypothesis I_protocol : forall s ev, is_protocol ev = true -> I s -> I (log s ev).
Hypothesis I_notified : forall s b, I s -> I (update s (with_notified b)).
Hypothesis I_last_prompt : forall s t, I s -> I (update s (with_last_prompt t)).

Lemma keeps_observation A (reading : nat -> A) : preserves I (observe reading).
Proof. apply preserves_observe, I_touch. Qed.

Lemma keeps_protocol ev : is_protocol ev = true -> preserves I (emit ev).
Proof. intros H. apply preserves_emit. intros s. apply I_protocol, H. Qed.

Hint Resolve keeps_observation keeps_protocol : run_inv.

Lemma keeps_probe : preserves I (is_bot_challenge_present env).
Proof. unfold is_bot_challenge_present. preserves_auto. Qed.

Lemma keeps_send : preserves I (send_email_notification env).
Proof. unfold send_email_notification. preserves_auto. Qed.

Lemma keeps_notification_flag b : preserves I (set_obj (with_notified b)).
Proof. apply preserves_set_obj. intros s. apply I_notified. Qed.

Lemma keeps_with_last_prompt t : preserves I (set_obj (with_last_prompt t)).
Proof. apply preserves_set_obj. intros s. apply I_last_prompt. Qed.

Hint Resolve keeps_probe keeps_send keeps_notification_flag keeps_with_last_prompt : run_inv.

Lemma keeps_notify : preserves I (notify_bot_challenge env).
Proof. unfold notify_bot_challenge. preserves_auto. Qed.

Lemma keeps_recovery_click : preserves I (click_on_bot_challenge env).
Proof. unfold click_on_bot_challenge. preserves_auto. Qed.

Lemma keeps_prompt : preserves I (prompt_operator env).
Proof. unfold prompt_operator. preserves_auto. Qed.

Hint Resolve keeps_notify keeps_recovery_click keeps_prompt : run_inv.

Lemma keeps_check : preserves I (check_for_bot_challenge env).
Proof. unfold check_for_bot_challenge, now. preserves_auto. Qed.

End Challenge.

Section Scraping.

Variable env : Env.
Variable I : run_state -> Prop.
Hypothesis I_touch : forall s t, I s -> I (touch s t).
Hypothesis I_interaction : forall s ev, is_interaction ev = true -> I s -> I (log s ev).
Hypothesis I_check : preserves I (check_for_bot_challenge env).

Lemma keeps_look A (reading : nat -> A) : preserves I (observe reading).
Proof. apply preserves_observe, I_touch. Qed.

Lemma keeps_interaction ev : is_interaction ev = true -> preserves I (emit ev).
Proof. intros H. apply preserves_emit. intros s. apply I_interaction, H. Qed.

Hint Resolve keeps_look keeps_interaction I_check : run_inv.

Lemma keeps_handle_login : preserves I (handle_login_if_needed env).
Proof. unfold handle_login_if_needed. preserves_auto. Qed.

Hint Resolve keeps_handle_login : run_inv.

Lemma keeps_initial_login : preserves I (initial_login env).
Proof. unfold initial_login. preserves_auto. Qed.

Lemma keeps_body_longer_than least : preserves I (body_longer_than env least).
Proof. unfold body_longer_than. preserves_auto. Qed.

Hint Resolve keeps_body_longer_than : run_inv.

Lemma keeps_wait_for_selectors sels : preserves I (wait_for_selectors env sels).
Proof. induction sels as [| sel rest IH]; simpl; preserves_auto. Qed.

Hint Resolve keeps_wait_for_selectors : run_inv.

Lemma keeps_wait_for_page_load : preserves I (wait_for_page_load env).
Proof. unfold wait_for_page_load. preserves_auto. Qed.

Lemma keeps_find_and_click : preserves I (find_and_click_pcap_download env).
Proof. unfold find_and_click_pcap_download. preserves_auto. Qed.

Hint Resolve keeps_wait_for_page_load keeps_find_and_click : run_inv.

Lemma keeps_download_pcap task_id report : preserves I (download_pcap env task_id report).
Proof. unfold download_pcap. preserves_auto. Qed.

Lemma keeps_extractor name : preserves I (extractor env name).
Proof. unfold extractor. preserves_auto. Qed.

Lemma keeps_poll_section sec end_time rounds :
  preserves I (poll_section env sec end_time rounds).
Proof. induction rounds as [| n IH]; simpl; unfold now; preserves_auto. Qed.

Hint Resolve keeps_poll_section : run_inv.

Lemma keeps_wait_for_section sec : preserves I (wait_for_deep_analysis_section env sec).
Proof. unfold wait_for_deep_analysis_section, now. preserves_auto. Qed.

Hint Resolve keeps_wait_for_section : run_inv.

Lemma keeps_scrape_sections sections tabs data :
  preserves I (scrape_sections env sections tabs data).
Proof.
  revert tabs data. induction sections as [| sec sections' IH]; intros tabs data;
    [destruct tabs; apply preserves_ret |].
  destruct tabs as [| tab tabs']; [apply preserves_ret |].
  cbn [scrape_sections]. preserves_auto.
Qed.

Hint Resolve keeps_scrape_sections : run_inv.

Lemma keeps_scrape_deep_analysis : preserves I (scrape_deep_analysis env).
Proof. unfold scrape_deep_analysis. preserves_auto. Qed.

End Scraping.

(** [run] keeps what its turns keep, when starting and quitting the browser
    cannot break it. *)
Section Running.

Variable env : Env.
Variable I : run_state -> Prop.
Hypothesis I_touch : forall s t, I s -> I (touch s t).
Hypothesis I_driver : forall s b, I s -> I (update s (with_driver b)).
Hypothesis I_login : preserves I (initial_login env).
Hypothesis I_process : forall url, preserves I (process_url env url).

Lemma keeps_init_driver : preserves I (init_driver env).
Proof.
  unfold init_driver.
  apply preserves_bind; [apply preserves_observe, I_touch | intros started].
  destruct started; [apply preserves_raise |].
  apply preserves_bind; [apply preserves_set_obj; intros s; apply I_driver | intros _].
  apply preserves_bind; [apply preserves_observe, I_touch | intros configured].
  destruct configured; [apply preserves_raise | apply preserves_ret].
Qed.

Lemma keeps_close_driver : preserves I (close_driver env).
Proof.
  unfold close_driver.
  apply preserves_bind; [apply preserves_get_obj | intros o].
  destruct (negb (driver o)); [apply preserves_ret |].
  apply preserves_bind; [apply preserves_observe, I_touch | intros quit].
  destruct quit; [apply preserves_raise |].
  apply preserves_set_obj. intros s. apply I_driver.
Qed.

Lemma keeps_turn total numbered : preserves I (turn env total numbered).
Proof.
  unfold turn.
  apply preserves_bind; [apply I_process | intros _].
  destruct (fst numbered <? total)%nat; [| apply preserves_ret].
  apply preserves_bind; [apply preserves_get_obj | intros o]. apply preserves_sleep.
Qed.

Lemma keeps_run urls : preserves I (run env urls).
Proof.
  unfold run. destruct urls as [urls |]; [| apply preserves_ret].
  apply preserves_bind; [apply preserves_get_obj | intros o].
  destruct (List.filter _ urls) as [| u rest] eqn:E; [apply preserves_ret |].
  apply preserves_bind; [apply keeps_init_driver | intros _].
  apply preserves_bind; [apply I_login | intros _].
  apply preserves_finally; [| apply keeps_close_driver].
  apply preserves_for_each. intros numbered. apply keeps_turn.
Qed.

End Running.

End ReportFacts.

(** ** C10: a URL without a task id is never scraped nor marked processed *)

Lemma strip_prefix_app p r : Report.strip_prefix p (p ++ r) = Some r.
Proof.
  induction p as [| a p IH]; simpl; [reflexivity |].
  rewrite Ascii.eqb_refl. exact IH.
Qed.

Lemma strip_prefix_Some p s r : Report.strip_prefix p s = Some r -> s = p ++ r.
Proof.
  revert s. induction p as [| a p IH]; intros s H.
  - destruct s; simpl in *; congruence.
  - destruct s as [| b s]; simpl in *; [discriminate |].
    destruct (Ascii.eqb a b) eqn:E; [| discriminate].
    apply Ascii.eqb_eq in E. subst b. f_equal. apply IH, H.
Qed.

Lemma task_id_here_Some url id :
  Report.task_id_here url = Some id ->
  exists c rest, url = "/tasks/" ++ String c rest /\ Report.is_task_char c = true.
Proof.
  unfold Report.task_id_here. intros H.
  destruct (Report.strip_prefix "/tasks/" url) as [r |] eqn:E; [| discriminate].
  apply strip_prefix_Some in E.
  destruct r as [| c r]; simpl in H; [discriminate |].
  destruct (Report.is_task_char c) eqn:Hc; [| discriminate].
  exists c, r. split; assumption.
Qed.

Lemma task_id_here_segment c rest :
  Report.is_task_char c = true ->
  Report.task_id_here ("/tasks/" ++ String c rest) <> None.
Proof.
  intros Hc. unfold Report.task_id_here.
  rewrite strip_prefix_app. simpl. rewrite Hc. discriminate.
Qed.

Lemma extract_task_id_unfold url :
  Report.extract_task_id url =
  match Report.task_id_here url with
  | Some id => Some id
  | None =>
      match url with
      | EmptyString => None
      | String _ t => Report.extract_task_id t
      end
  end.
Proof. destruct url; reflexivity. Qed.

Lemma extract_task_id_None_iff url :
  Report.extract_task_id url = None <-> ~ has_task_segment url.
Proof.
  split.
  - intros H (pre & c & rest & -> & Hc). revert H.
    induction pre as [| a pre IH]; intros H; rewrite extract_task_id_unfold in H.
    + pose proof (task_id_here_segment c rest Hc) as E.
      change ("" ++ "/tasks/" ++ String c rest) with ("/tasks/" ++ String c rest) in H.
      destruct (Report.task_id_here ("/tasks/" ++ String c rest)); congruence.
    + apply IH.
      destruct (Report.task_id_here (String a pre ++ "/tasks/" ++ String c rest));
        [discriminate | exact H].
  - induction url as [| a url IH]; intros H; [reflexivity |].
    rewrite extract_task_id_unfold.
    destruct (Report.task_id_here (String a url)) as [id |] eqn:E.
    + exfalso. apply H. apply task_id_here_Some in E as (c & rest & -> & Hc).
      exists "", c, rest. split; [reflexivity | exact Hc].
    + apply IH. intros (pre & c & rest & -> & Hc). apply H.
      exists (String a pre), c, rest. split; [reflexivity | exact Hc].
Qed.

Lemma load_checkpoint_set path d :
  Report.load_checkpoint path d = checkpoint_set (d !! path).
Proof. reflexivity. Qed.

Lemma hashable_strings_map_JStr l :
  Report.hashable_strings (map JStr l) = Some (list_to_set l).
Proof.
  induction l as [| x l IH]; simpl; [reflexivity |].
  rewrite IH. reflexivity.
Qed.

Lemma checkpoint_set_doc o :
  checkpoint_set (Some (Doc (Report.checkpoint_doc o))) = Report.processed_urls o.
Proof.
  unfold checkpoint_set, Report.checkpoint_doc. simpl.
  rewrite hashable_strings_map_JStr. simpl.
  apply list_to_set_elements_L.
Qed.

Lemma checkpoint_set_interrupted url doc n :
  url ∉ checkpoint_set (Some (Doc doc)) ->
  url ∉ checkpoint_set (Some (interrupted_write doc n)).
Proof.
  intros H. unfold interrupted_write.
  destruct (n <? String.length (Json.dumps doc))%nat; [| exact H].
  simpl. set_solver.
Qed.

Lemma checkpoint_set_write url p path doc fate d :
  url ∉ checkpoint_set (d !! p) ->
  url ∉ checkpoint_set (Some (Doc doc)) ->
  url ∉ checkpoint_set (write_file path doc fate d !! p).
Proof.
  intros Hd Hdoc. destruct fate as [| | n]; simpl; [| exact Hd |].
  - destruct (decide (path = p)) as [-> | Hne].
    + rewrite lookup_insert_eq. exact Hdoc.
    + rewrite lookup_insert_ne by exact Hne. exact Hd.
  - destruct (decide (path = p)) as [-> | Hne].
    + rewrite lookup_insert_eq. apply checkpoint_set_interrupted, Hdoc.
    + rewrite lookup_insert_ne by exact Hne. exact Hd.
Qed.

Section NeverMarked.

Variable env : Env.
Variable url : string.

Let I : Report.run_state -> Prop := never_marked url.

Lemma never_marked_touch s t : I s -> I (touch s t).
Proof. exact (fun H => H). Qed.

Lemma never_marked_log s ev : ev <> EvProcessed url -> I s -> I (log s ev).
Proof.
  intros Hev (H1 & H2 & H3). repeat split; auto. simpl.
  rewrite elem_of_app, list_elem_of_singleton. intros [H | H]; auto.
Qed.

Lemma never_marked_check : preserves I (Report.check_for_bot_challenge env).
Proof.
  apply ReportFacts.keeps_check.
  - apply never_marked_touch.
  - intros s ev Hev. apply never_marked_log. destruct ev; discriminate.
  - intros s b H. exact H.
  - intros s t H. exact H.
Qed.

Lemma never_marked_interaction s ev : is_interaction ev = true -> I s -> I (log s ev).
Proof. intros Hev. apply never_marked_log. destruct ev; discriminate. Qed.

Hint Resolve never_marked_touch never_marked_interaction never_marked_check : core.

Lemma never_marked_write_report task_id report :
  Json.get "processed_urls" report = None ->
  preserves I (Report.write_report env task_id report).
Proof.
  intros Hkey s (H1 & H2 & H3).
  unfold Report.write_report, bind, get_obj, observe, set_disk, emit. simpl.
  assert (never_marked url
            (MkState (obj s) (S (tick s))
               (trace s ++ [EvWriteRecord (Report.report_file (obj s) task_id)
                              (written (disk_at env (tick s)))])
               (write_file (Report.report_file (obj s) task_id) (JDict report)
                  (disk_at env (tick s)) (disk s)))) as Hfinal.
  { repeat split; simpl; auto.
    - rewrite load_checkpoint_set in *.
      apply checkpoint_set_write; [exact H2 |].
      simpl. rewrite Hkey. simpl. set_solver.
    - rewrite elem_of_app, list_elem_of_singleton. intros [H | H]; [auto | discriminate H]. }
  destruct (written (disk_at env (tick s))); exact Hfinal.
Qed.

Lemma never_marked_scrape_report u : preserves I (Report.scrape_report env u).
Proof.
  unfold Report.scrape_report.
  destruct (Report.extract_task_id u) as [task_id |]; [| apply preserves_ret].
  apply preserves_try_except; [| intros e; apply preserves_ret].
  apply preserves_bind; [apply ReportFacts.keeps_look; auto | intros pg].
  apply preserves_bind; [apply ReportFacts.keeps_interaction; auto | intros _].
  destruct (pg_get pg); [apply preserves_raise |].
  apply preserves_bind; [apply ReportFacts.keeps_handle_login; auto | intros _].
  apply preserves_bind; [auto | intros _].
  apply preserves_bind; [apply ReportFacts.keeps_wait_for_page_load; auto | intros loaded].
  apply preserves_bind;
    [destruct loaded; [apply preserves_ret | apply ReportFacts.keeps_wait_for_page_load; auto]
    | intros loaded'].
  destruct loaded'; simpl; [| apply preserves_ret].
  do 4 (apply preserves_bind; [apply ReportFacts.keeps_extractor; auto | intros ?]).
  apply preserves_bind; [apply ReportFacts.keeps_scrape_deep_analysis; auto | intros ?].
  apply preserves_bind; [apply ReportFacts.keeps_download_pcap; auto | intros pcap].
  apply never_marked_write_report.
  destruct (Py.truthy pcap); reflexivity.
Qed.

Lemma never_marked_save_checkpoint : preserves I (Report.save_checkpoint env).
Proof.
  intros s (H1 & H2 & H3). unfold Report.save_checkpoint, bind, get_obj, observe, set_disk, emit.
  simpl. repeat split; simpl.
  - exact H1.
  - rewrite load_checkpoint_set in *. apply checkpoint_set_write; [exact H2 |].
    rewrite checkpoint_set_doc. exact H1.
  - rewrite elem_of_app, list_elem_of_singleton. intros [H | H]; [auto | discriminate H].
Qed.

Lemma never_marked_process_url u :
  u <> url -> preserves I (Report.process_url env u).
Proof.
  intros Hu. unfold Report.process_url.
  apply preserves_bind; [apply never_marked_scrape_report | intros [data |]];
    [| apply preserves_ret].
  apply preserves_bind.
  - intros s (H1 & H2 & H3). repeat split; simpl; auto. set_solver.
  - intros _. apply preserves_bind.
    + apply preserves_emit. intros s. apply never_marked_log. congruence.
    + intros _. apply never_marked_save_checkpoint.
Qed.

Lemma process_url_without_task_id s :
  Report.extract_task_id url = None -> Report.process_url env url s = (Ok tt, s).
Proof.
  intros H. unfold Report.process_url, Report.scrape_report, bind. rewrite H. reflexivity.
Qed.

Lemma never_marked_turn u :
  Report.extract_task_id url = None -> preserves I (Report.process_url env u).
Proof.
  intros Hid.
  destruct (decide (u = url)) as [-> | Hne].
  - intros s Hs. rewrite process_url_without_task_id by exact Hid. exact Hs.
  - apply never_marked_process_url, Hne.
Qed.

Lemma never_marked_run urls :
  Report.extract_task_id url = None -> preserves I (Report.run env urls).
Proof.
  intros Hid. apply ReportFacts.keeps_run.
  - apply never_marked_touch.
  - intros s b H. exact H.
  - apply ReportFacts.keeps_initial_login; auto.
  - intros u. apply never_marked_turn, Hid.
Qed.

End NeverMarked.

(** C10.  A URL has no task id exactly when it has no segment [/tasks/]
    followed by a character of [[a-f0-9-]]; for such a URL [scrape_report]
    returns [None] and leaves the whole state as it was (no navigation, no
    record file, nothing on the log), and [run] keeps it out of the processed
    set, out of the checkpoint file and never logs it as processed, whatever
    the sheet holds and whatever the environment does. *)
Theorem scrape_report_skips_url_without_task_id (env : Env) (url : string) :
  (Report.extract_task_id url = None <-> ~ has_task_segment url)
  /\ (Report.extract_task_id url = None ->
      forall s : Report.run_state,
        Report.scrape_report env url s = (Ok None, s)
        /\ forall urls, never_marked url s -> never_marked url (snd (Report.run env urls s))).
Proof.
  split; [apply extract_task_id_None_iff |].
  intros Hid s. split.
  - unfold Report.scrape_report. rewrite Hid. reflexivity.
  - intros urls Hs. exact (never_marked_run env url urls Hid s Hs).
Qed.

Lemma scrape_report_skips_witness :
  Report.scrape_report Fixture.quiet "https://app.any.run/submissions"
    (Fixture.start Fixture.reporter)
  = (Ok None, Fixture.start Fixture.reporter)
  /\ never_marked "https://app.any.run/submissions"
       (snd (Report.run Fixture.quiet
               (Some ["https://app.any.run/tasks/abc-123"; "https://app.any.run/submissions"])
               (Fixture.start Fixture.reporter))).
Proof.
  destruct (scrape_report_skips_url_without_task_id Fixture.quiet
              "https://app.any.run/submissions") as [_ H].
  destruct (H eq_refl (Fixture.start Fixture.reporter)) as [H1 H2].
  split; [exact H1 |]. apply H2.
  repeat split; simpl; set_solver.
Defined.

(** ** C5: a URL is marked processed only after its record was written *)

Lemma recorded_snoc dir tr ev :
  (forall u, ev <> EvProcessed u) ->
  recorded_before_marked dir tr -> recorded_before_marked dir (tr ++ [ev]).
Proof.
  intros Hev H pre post u E.
  destruct post as [| x post _] using rev_ind.
  - apply (f_equal (@last event)) in E. rewrite !last_snoc in E.
    exfalso. apply (Hev u). congruence.
  - change (pre ++ EvProcessed u :: post ++ [x])%list
      with (pre ++ (EvProcessed u :: post) ++ [x])%list in E.
    rewrite app_assoc in E. apply app_inj_tail in E as [E _].
    exact (H pre post u E).
Qed.

Lemma recorded_snoc_processed dir tr u id :
  Report.extract_task_id u = Some id ->
  EvWriteRecord (dir ++ "/" ++ id ++ "_report.json") true ∈ tr ->
  recorded_before_marked dir tr ->
  recorded_before_marked dir (tr ++ [EvProcessed u]).
Proof.
  intros Hid Hin H pre post v E.
  destruct post as [| x post _] using rev_ind.
  - apply app_inj_tail in E as [-> E]. injection E as ->. exists id. split; assumption.
  - change (pre ++ EvProcessed v :: post ++ [x])%list
      with (pre ++ (EvProcessed v :: post) ++ [x])%list in E.
    rewrite app_assoc in E. apply app_inj_tail in E as [E _].
    exact (H pre post v E).
Qed.

Section RecordedFirst.

Variable env : Env.
Variable dir : string.

Let I : Report.run_state -> Prop :=
  fun s => Report.output_dir (obj s) = dir /\ recorded_before_marked dir (trace s).

Lemma recorded_touch s t : I s -> I (touch s t).
Proof. exact (fun H => H). Qed.

Lemma recorded_log s ev : (forall u, ev <> EvProcessed u) -> I s -> I (log s ev).
Proof. intros Hev [H1 H2]. split; [exact H1 |]. apply recorded_snoc; assumption. Qed.

Lemma recorded_check : preserves I (Report.check_for_bot_challenge env).
Proof.
  apply ReportFacts.keeps_check.
  - apply recorded_touch.
  - intros s ev Hev. apply recorded_log. intros u. destruct ev; discriminate.
  - intros s b H. exact H.
  - intros s t H. exact H.
Qed.

Lemma recorded_interaction s ev : is_interaction ev = true -> I s -> I (log s ev).
Proof. intros Hev. apply recorded_log. intros u. destruct ev; discriminate. Qed.

Hint Resolve recorded_touch recorded_interaction recorded_check : core.

(** What [scrape_report] establishes when it returns a record. *)
Let written_record (u : string) (r : outcome (option json)) (s' : Report.run_state) : Prop :=
  I s' /\
  forall data, r = Ok (Some data) ->
    exists id,
      Report.extract_task_id u = Some id
      /\ EvWriteRecord (dir ++ "/" ++ id ++ "_report.json") true ∈ trace s'
      /\ disk s' !! (dir ++ "/" ++ id ++ "_report.json") = Some (Doc data).

Lemma recorded_write_report u task_id report :
  Report.extract_task_id u = Some task_id ->
  triple I (Report.write_report env task_id report) (written_record u).
Proof.
  intros Hid s [H1 H2].
  unfold Report.write_report, bind, get_obj, observe, set_disk, emit. simpl.
  unfold Report.report_file. rewrite H1.
  destruct (disk_at env (tick s)) as [| | n] eqn:E; simpl.
  - split.
    + split; [exact H1 |]. apply recorded_snoc; [discriminate | exact H2].
    + intros data [= <-]. exists task_id. repeat split; [exact Hid | | ].
      * simpl. rewrite elem_of_app, list_elem_of_singleton. right. reflexivity.
      * simpl. apply lookup_insert_eq.
  - split; [| discriminate].
    split; [exact H1 |]. apply recorded_snoc; [discriminate | exact H2].
  - split; [| discriminate].
    split; [exact H1 |]. apply recorded_snoc; [discriminate | exact H2].
Qed.

Lemma recorded_scrape_report u :
  triple I (Report.scrape_report env u) (written_record u).
Proof.
  assert (Habrupt : forall (r : outcome (option json)) s,
             (forall data, r <> Ok (Some data)) -> I s -> written_record u r s).
  { intros r s Hr Hs. split; [exact Hs |]. intros data E. destruct (Hr data E). }
  unfold Report.scrape_report.
  destruct (Report.extract_task_id u) as [task_id |] eqn:Hid;
    [| apply triple_ret; intros s Hs; apply Habrupt; [discriminate | exact Hs]].
  intros s Hs. unfold try_except.
  match goal with |- context [?body s] => set (m := body) end.
  assert (Hbody : triple I m (written_record u)).
  { subst m.
    apply triple_bind_inv; [apply ReportFacts.keeps_look; auto | intros pg | |];
      [| intros; apply Habrupt; [discriminate | assumption] ..].
    apply triple_bind_inv; [apply ReportFacts.keeps_interaction; auto | intros _ | |];
      [| intros; apply Habrupt; [discriminate | assumption] ..].
    destruct (pg_get pg);
      [intros s1 Hs1; apply Habrupt; [discriminate | exact Hs1] |].
    apply triple_bind_inv; [apply ReportFacts.keeps_handle_login; auto | intros _ | |];
      [| intros; apply Habrupt; [discriminate | assumption] ..].
    apply triple_bind_inv; [auto | intros _ | |];
      [| intros; apply Habrupt; [discriminate | assumption] ..].
    apply triple_bind_inv;
      [apply ReportFacts.keeps_wait_for_page_load; auto | intros loaded | |];
      [| intros; apply Habrupt; [discriminate | assumption] ..].
    apply triple_bind_inv;
      [destruct loaded; [apply preserves_ret | apply ReportFacts.keeps_wait_for_page_load; auto]
      | intros loaded' | |];
      [| intros; apply Habrupt; [discriminate | assumption] ..].
    destruct loaded'; simpl;
      [| apply triple_ret; intros s1 Hs1; apply Habrupt; [discriminate | exact Hs1]].
    do 4 (apply triple_bind_inv; [apply ReportFacts.keeps_extractor; auto | intros ? | |];
          [| intros; apply Habrupt; [discriminate | assumption] ..]).
    apply triple_bind_inv;
      [apply ReportFacts.keeps_scrape_deep_analysis; auto | intros ? | |];
      [| intros; apply Habrupt; [discriminate | assumption] ..].
    apply triple_bind_inv; [apply ReportFacts.keeps_download_pcap; auto | intros pcap | |];
      [| intros; apply Habrupt; [discriminate | assumption] ..].
    apply recorded_write_report. exact Hid. }
  specialize (Hbody s Hs). destruct (m s) as [[a | e |] s1]; simpl in *; try exact Hbody.
  apply Habrupt; [discriminate | apply Hbody].
Qed.

Lemma recorded_process_url u : preserves I (Report.process_url env u).
Proof.
  unfold Report.process_url.
  eapply triple_bind; [apply recorded_scrape_report | | |].
  - intros [data |]; [| intros s [Hs _]; exact Hs].
    intros s [[H1 H2] Hw]. destruct (Hw data eq_refl) as (id & Hid & Hin & _).
    unfold bind, set_obj, emit, Report.save_checkpoint, get_obj, observe, set_disk. simpl.
    split; [exact H1 |].
    apply recorded_snoc; [discriminate |].
    eapply recorded_snoc_processed; eauto.
  - intros e s [Hs _]. exact Hs.
  - intros s [Hs _]. exact Hs.
Qed.

Lemma recorded_run urls : preserves I (Report.run env urls).
Proof.
  apply ReportFacts.keeps_run.
  - apply recorded_touch.
  - intros s b H. exact H.
  - apply ReportFacts.keeps_initial_login; auto.
  - apply recorded_process_url.
Qed.

End RecordedFirst.

(** C5 as amended.  On the log of a run every [processed_urls.add(url)] comes
    after a complete write of the record file named by the task id of that
    URL, and when [scrape_report] returns a record, that record is the
    complete content of the file [<output_dir>/<task_id>_report.json].  (The
    converse is not claimed: a record file may exist for a URL that is not in
    the processed set.) *)
Theorem processed_only_after_record_written
    (env : Env) (urls : option (list string)) (s : Report.run_state) :
  recorded_before_marked (Report.output_dir (obj s)) (trace s) ->
  recorded_before_marked (Report.output_dir (obj s)) (trace (snd (Report.run env urls s)))
  /\ forall u data,
       fst (Report.scrape_report env u s) = Ok (Some data) ->
       exists id,
         Report.extract_task_id u = Some id
         /\ disk (snd (Report.scrape_report env u s)) !! Report.report_file (obj s) id
            = Some (Doc data).
Proof.
  intros H. split.
  - apply (recorded_run env (Report.output_dir (obj s)) urls s). split; [reflexivity | exact H].
  - intros u data E.
    destruct (recorded_scrape_report env (Report.output_dir (obj s)) u s
                (conj eq_refl H)) as [_ Hw].
    destruct (Hw data E) as (id & Hid & _ & Hdisk).
    exists id. split; [exact Hid | exact Hdisk].
Qed.

Lemma processed_only_after_record_written_witness :
  recorded_before_marked "scraped_data" (trace Fixture.after_second_visit)
  /\ forall u data,
       fst (Report.scrape_report Fixture.second_visit_fails u (Fixture.start Fixture.reporter))
       = Ok (Some data) ->
       exists id,
         Report.extract_task_id u = Some id
         /\ disk (snd (Report.scrape_report Fixture.second_visit_fails u
                         (Fixture.start Fixture.reporter)))
              !! Report.report_file Fixture.reporter id
            = Some (Doc data).
Proof.
  apply (processed_only_after_record_written Fixture.second_visit_fails
           (Some [Fixture.first_url; Fixture.second_url]) (Fixture.start Fixture.reporter)).
  intros pre post u E. simpl in E. destruct pre; discriminate E.
Defined.

(** C5 as stated fails: after a run over two URLs of the same task, of which
    the second does not load, the record file named by the task id of the
    second URL is on disk while that URL is not in the processed set. *)
Lemma record_file_without_processed_url :
  Report.extract_task_id Fixture.second_url = Some "abc-123"
  /\ bool_decide (is_Some (disk Fixture.after_second_visit
                             !! Report.report_file (obj Fixture.after_second_visit) "abc-123"))
     = true
  /\ bool_decide (Fixture.second_url ∈ Report.processed_urls (obj Fixture.after_second_visit))
     = false
  /\ ~ record_iff_processed Fixture.after_second_visit Fixture.second_url.
Proof.
  assert (H1 : Report.extract_task_id Fixture.second_url = Some "abc-123") by reflexivity.
  assert (H2 : bool_decide (is_Some (disk Fixture.after_second_visit
                 !! Report.report_file (obj Fixture.after_second_visit) "abc-123")) = true)
    by (vm_compute; reflexivity).
  assert (H3 : bool_decide (Fixture.second_url
                 ∈ Report.processed_urls (obj Fixture.after_second_visit)) = false)
    by (vm_compute; reflexivity).
  repeat split; try assumption.
  intros [Hiff _].
  apply bool_decide_eq_false in H3. apply H3, Hiff.
  exists "abc-123". split; [exact H1 |]. apply bool_decide_eq_true in H2. exact H2.
Qed.

(** ** C1: a save writes the state file in place *)

Lemma take_chars_all n s : (String.length s <= n)%nat -> take_chars n s = s.
Proof.
  revert n. induction s as [| c s IH]; intros n H; destruct n; simpl in *;
    try reflexivity; try lia.
  f_equal. apply IH. lia.
Qed.

Lemma file_text_interrupted doc n :
  file_text (interrupted_write doc n) = take_chars n (Json.dumps doc).
Proof.
  unfold interrupted_write.
  destruct (n <? String.length (Json.dumps doc))%nat eqn:E; simpl; [reflexivity |].
  symmetry. apply take_chars_all. apply Nat.ltb_ge in E. exact E.
Qed.

(** C1 as amended.  The three save routines write the state file in place:
    [_save_checkpoint] and both [_save_state] leave on disk what [write_file]
    makes of the path, the new document and the fate of the write.  A write
    that completes leaves exactly the new document; a write cut after [n]
    characters (a kill, a full disk) leaves the first [n] characters of the
    new document, whatever the file held before. *)
Theorem save_writes_state_file_in_place (env : Env) (cal : Calendar) :
  (forall s : Report.run_state,
     disk (snd (Report.save_checkpoint env s))
     = write_file (Report.checkpoint_file (obj s)) (Report.checkpoint_doc (obj s))
         (disk_at env (tick s)) (disk s))
  /\ (forall s : Collector.run_state,
       disk (snd (Link.save_state env s))
       = match Collector.state_path (obj s) with
         | Some path =>
             write_file path (Link.state_data (obj s) (clock_at env (tick s)))
               (disk_at env (S (tick s))) (disk s)
         | None => disk s
         end)
  /\ (forall s : Collector.run_state,
       disk (snd (Dated.save_state cal env s))
       = match Collector.state_path (obj s) with
         | Some path =>
             write_file path (Dated.state_data cal (obj s) (clock_at env (tick s)))
               (disk_at env (S (tick s))) (disk s)
         | None => disk s
         end)
  /\ (forall path doc d, write_file path doc Written d !! path = Some (Doc doc))
  /\ (forall path doc n d,
       exists f, write_file path doc (Cut n) d !! path = Some f
                 /\ file_text f = take_chars n (Json.dumps doc)).
Proof.
  repeat split.
  - intros s.
    unfold Link.save_state, Collector.save_state, bind, get_obj, now, observe, set_disk, emit.
    simpl. destruct (Collector.state_path (obj s)); reflexivity.
  - intros s.
    unfold Dated.save_state, Collector.save_state, bind, get_obj, now, observe, set_disk, emit.
    simpl. destruct (Collector.state_path (obj s)); reflexivity.
  - intros path doc d. simpl. apply lookup_insert_eq.
  - intros path doc n d. exists (interrupted_write doc n). split.
    + simpl. apply lookup_insert_eq.
    + apply file_text_interrupted.
Qed.

(** C1 as stated fails: when [_save_checkpoint] is killed after one character
    of the new document reached the file, the checkpoint file holds that one
    character: neither the previous checkpoint nor the new one. *)
Lemma killed_save_tears_checkpoint :
  file_text <$> (Report.save_checkpoint_killed 1 Fixture.checkpointed
                   !! "scraper_checkpoint.json") = Some "{"
  /\ ~ atomic_save (disk Fixture.checkpointed !! "scraper_checkpoint.json")
        (Report.save_checkpoint_killed 1 Fixture.checkpointed !! "scraper_checkpoint.json")
        (Report.checkpoint_doc (obj Fixture.checkpointed)).
Proof.
  assert (H : Report.save_checkpoint_killed 1 Fixture.checkpointed
                !! "scraper_checkpoint.json" = Some (Torn "{"))
    by (vm_compute; reflexivity).
  split.
  - rewrite H. reflexivity.
  - rewrite H. intros [E | E]; [| discriminate E].
    assert (E' : disk Fixture.checkpointed !! "scraper_checkpoint.json"
                 = Some (Doc (Report.checkpoint_doc
                                (Report.with_processed {[ Fixture.first_url ]} Fixture.reporter))))
      by (vm_compute; reflexivity).
    rewrite E' in E. discriminate E.
Qed.

(** ** C3: what a save followed by a load restores *)

Lemma strings_of_map_JStr l : Collector.strings_of (map JStr l) = l.
Proof. induction l as [| x l IH]; simpl; [reflexivity | rewrite IH; reflexivity]. Qed.

Lemma list_to_set_sorted_urls (u : gset string) :
  list_to_set (Collector.sorted_urls u) = u.
Proof.
  unfold Collector.sorted_urls.
  rewrite (list_to_set_perm_L _ _ (merge_sort_Permutation Collector.str_le (elements u))).
  apply list_to_set_elements_L.
Qed.

Lemma get_app_unknown key extra fields :
  Forall (fun kv : string * json => fst kv <> key) extra ->
  Json.get key (extra ++ fields) = Json.get key fields.
Proof.
  induction 1 as [| [k v] extra Hk _ IH]; simpl; [reflexivity |].
  destruct (String.eqb k key) eqn:E; [| exact IH].
  apply String.eqb_eq in E. destruct (Hk E).
Qed.

Lemma link_reload_obj env s path :
  Collector.state_path (obj s) = Some path ->
  disk_at env (S (tick s)) = Written ->
  link_reload env s
  = link_load_fields (Collector.init (obj s)) path
      [("collected_urls", JList (map JStr (Collector.sorted_urls (Collector.collected_urls (obj s)))));
       ("pages_processed", JInt (Collector.pages_processed (obj s)));
       ("timestamp", JFloat (Collector.float_literal (clock_at env (tick s))))].
Proof.
  intros Hp Hw. unfold link_reload, link_load_fields, Link.load_state, Link.save_state,
    Collector.save_state, bind, get_obj, get_disk, now, observe, set_disk, emit.
  simpl. rewrite Hp. simpl. rewrite Hw. simpl.
  rewrite lookup_insert_eq, lookup_singleton_eq.
  unfold Link.state_data, Link.loaded_pages. simpl.
  destruct (0 <=? Collector.pages_processed (obj s)); reflexivity.
Qed.

Lemma dated_reload_obj cal env s path :
  Collector.state_path (obj s) = Some path ->
  disk_at env (S (tick s)) = Written ->
  dated_reload cal env s
  = dated_load_fields cal (Collector.init (obj s)) path
      [("collected_urls", JList (map JStr (Collector.sorted_urls (Collector.collected_urls (obj s)))));
       ("last_processed_date",
        match Collector.last_processed_date (obj s) with Some d => JStr d | None => JNull end);
       ("current_scraping_date",
        match Collector.current_scraping_date (obj s) with
        | Some day => JStr (format_mdy cal day)
        | None => JNull
        end);
       ("timestamp", JFloat (Collector.float_literal (clock_at env (tick s))))].
Proof.
  intros Hp Hw. unfold dated_reload, dated_load_fields, Dated.load_state, Dated.save_state,
    Collector.save_state, bind, get_obj, get_disk, now, observe, set_disk, emit.
  simpl. rewrite Hp. simpl. rewrite Hw. simpl.
  rewrite lookup_insert_eq, lookup_singleton_eq.
  unfold Dated.state_data. simpl.
  destruct (Collector.last_processed_date (obj s)) as [[| c t] |]; simpl; try reflexivity.
  destruct (Dated.resume_day cal (String c t)); reflexivity.
Qed.

(** What [_load_state] of the page-counter version makes of the fields it
    reads. *)
Lemma link_load_fields_spec o path fields :
  Collector.state_path o = Some path ->
  Collector.collected_urls (link_load_fields o path fields)
  = Collector.collected_urls o ∪ Collector.loaded_urls fields
  /\ Collector.pages_processed (link_load_fields o path fields)
     = default (Collector.pages_processed o) (Link.loaded_pages fields).
Proof.
  intros Hp. unfold link_load_fields, Link.load_state, bind, get_obj, get_disk, set_obj.
  simpl. rewrite Hp. simpl. rewrite lookup_singleton_eq. simpl.
  destruct (Link.loaded_pages fields); simpl; split; reflexivity.
Qed.

(** What [_load_state] of the date-bucket version makes of the fields it
    reads. *)
Lemma dated_load_fields_spec cal o path fields :
  Collector.state_path o = Some path ->
  Collector.collected_urls (dated_load_fields cal o path fields)
  = Collector.collected_urls o ∪ Collector.loaded_urls fields
  /\ (Collector.last_processed_date (dated_load_fields cal o path fields),
      Collector.current_scraping_date (dated_load_fields cal o path fields))
     = match Json.get "last_processed_date" fields with
       | Some (JStr (String c t)) =>
           (Some (String c t),
            match Dated.resume_day cal (String c t) with
            | Some day => Some day
            | None => Collector.current_scraping_date o
            end)
       | _ => (Collector.last_processed_date o, Collector.current_scraping_date o)
       end.
Proof.
  intros Hp. unfold dated_load_fields, Dated.load_state, bind, get_obj, get_disk, set_obj.
  simpl. rewrite Hp. simpl. rewrite lookup_singleton_eq. simpl.
  destruct (Json.get "last_processed_date" fields) as [[| | | | [| c t] | |] |]; simpl;
    try (split; reflexivity).
  destruct (Dated.resume_day cal (String c t)); simpl; split; reflexivity.
Qed.

Lemma get_unknown key extra :
  Forall (fun kv : string * json => fst kv <> key) extra -> Json.get key extra = None.
Proof.
  induction 1 as [| [k v] extra Hk _ IH]; simpl; [reflexivity |].
  destruct (String.eqb k key) eqn:E; [| exact IH].
  apply String.eqb_eq in E. destruct (Hk E).
Qed.

Lemma get_app_unknown_r key fields extra :
  Forall (fun kv : string * json => fst kv <> key) extra ->
  Json.get key (fields ++ extra) = Json.get key fields.
Proof.
  intros H. induction fields as [| [k v] fields IH]; simpl.
  - apply get_unknown, H.
  - destruct (String.eqb k key); [reflexivity | exact IH].
Qed.

Lemma get_between key before fields after :
  Forall (fun kv : string * json => fst kv <> key) before ->
  Forall (fun kv : string * json => fst kv <> key) after ->
  Json.get key (before ++ fields ++ after) = Json.get key fields.
Proof.
  intros Hb Ha. rewrite get_app_unknown by exact Hb. apply get_app_unknown_r, Ha.
Qed.

Lemma unknown_fields_key extra key :
  unknown_fields extra ->
  key = "collected_urls" \/ key = "pages_processed" \/ key = "last_processed_date" ->
  Forall (fun kv : string * json => fst kv <> key) extra.
Proof.
  intros H Hk. eapply Forall_impl; [exact H |].
  intros kv (H1 & H2 & H3). destruct Hk as [-> | [-> | ->]]; assumption.
Qed.

(** The object [_load_state] returns, as a function of the two fields the
    page-counter version reads. *)
Lemma link_load_fields_obj o path fields :
  link_load_fields o path fields
  = if decide (Collector.state_path o = Some path) then
      match Link.loaded_pages fields with
      | Some n => Collector.with_pages n
      | None => fun o' => o'
      end (Collector.with_collected
             (Collector.collected_urls o ∪ Collector.loaded_urls fields) o)
    else o.
Proof.
  unfold link_load_fields, Link.load_state, bind, get_obj, get_disk. simpl.
  destruct (Collector.state_path o) as [p |]; [| rewrite decide_False by discriminate; reflexivity].
  simpl. destruct (decide (Some p = Some path)) as [[= ->] | Hne].
  - rewrite lookup_singleton_eq. destruct (Link.loaded_pages fields); reflexivity.
  - rewrite lookup_singleton_ne by congruence. reflexivity.
Qed.

(** The same for the date-bucket version. *)
Lemma dated_load_fields_obj cal o path fields :
  dated_load_fields cal o path fields
  = if decide (Collector.state_path o = Some path) then
      match Json.get "last_processed_date" fields with
      | Some (JStr (String c t)) =>
          fun o' =>
            match Dated.resume_day cal (String c t) with
            | Some day => Collector.with_current_date (Some day)
            | None => fun o'' => o''
            end (Collector.with_last_date (Some (String c t)) o')
      | _ => fun o' => o'
      end (Collector.with_collected
             (Collector.collected_urls o ∪ Collector.loaded_urls fields) o)
    else o.
Proof.
  unfold dated_load_fields, Dated.load_state, bind, get_obj, get_disk. simpl.
  destruct (Collector.state_path o) as [p |]; [| rewrite decide_False by discriminate; reflexivity].
  simpl. destruct (decide (Some p = Some path)) as [[= ->] | Hne].
  - rewrite lookup_singleton_eq.
    destruct (Json.get "last_processed_date" fields) as [[| | | | [| c t] | |] |];
      try reflexivity.
    simpl. destruct (Dated.resume_day cal (String c t)); reflexivity.
  - rewrite lookup_singleton_ne by congruence. reflexivity.
Qed.

Lemma link_load_unknown o path before fields after :
  unknown_fields before -> unknown_fields after ->
  link_load_fields o path (before ++ fields ++ after) = link_load_fields o path fields.
Proof.
  intros Hb Ha. rewrite !link_load_fields_obj.
  unfold Collector.loaded_urls, Link.loaded_pages.
  rewrite !get_between by (apply unknown_fields_key; auto).
  reflexivity.
Qed.

Lemma dated_load_unknown cal o path before fields after :
  unknown_fields before -> unknown_fields after ->
  dated_load_fields cal o path (before ++ fields ++ after)
  = dated_load_fields cal o path fields.
Proof.
  intros Hb Ha. rewrite !dated_load_fields_obj.
  unfold Collector.loaded_urls.
  rewrite !get_between by (apply unknown_fields_key; auto).
  reflexivity.
Qed.

Lemma loaded_urls_state_data (u : gset string) rest :
  Collector.loaded_urls
    (("collected_urls", JList (map JStr (Collector.sorted_urls u))) :: rest) = u.
Proof.
  unfold Collector.loaded_urls. simpl.
  rewrite strings_of_map_JStr. apply list_to_set_sorted_urls.
Qed.

(** C3 as amended.  When the state file can be written, a save followed by
    the load of a new process restores the set of collected URLs in both
    versions, and the page counter in the page-counter version.  In the
    date-bucket version the load restores the text of the last row seen and
    takes the resume day from that text ([resume_day]); the
    [current_scraping_date] the save wrote is not read.  Fields of the file
    that the load does not know change nothing. *)
Theorem save_then_load_restores
    (cal : Calendar) (env : Env) (s : Collector.run_state) (path : string) :
  Collector.state_path (obj s) = Some path ->
  disk_at env (S (tick s)) = Written ->
  (Collector.collected_urls (link_reload env s) = Collector.collected_urls (obj s)
   /\ (0 <= Collector.pages_processed (obj s) ->
       Collector.pages_processed (link_reload env s) = Collector.pages_processed (obj s)))
  /\ (Collector.collected_urls (dated_reload cal env s) = Collector.collected_urls (obj s)
      /\ (Collector.last_processed_date (dated_reload cal env s),
          Collector.current_scraping_date (dated_reload cal env s))
         = match Collector.last_processed_date (obj s) with
           | Some (String c t) => (Some (String c t), Dated.resume_day cal (String c t))
           | _ => (None, None)
           end)
  /\ (forall o before fields after,
        unknown_fields before -> unknown_fields after ->
        link_load_fields o path (before ++ fields ++ after) = link_load_fields o path fields
        /\ dated_load_fields cal o path (before ++ fields ++ after)
           = dated_load_fields cal o path fields).
Proof.
  intros Hp Hw. split; [| split].
  - rewrite (link_reload_obj env s path Hp Hw).
    destruct (link_load_fields_spec (Collector.init (obj s)) path
                [("collected_urls",
                  JList (map JStr (Collector.sorted_urls (Collector.collected_urls (obj s)))));
                 ("pages_processed", JInt (Collector.pages_processed (obj s)));
                 ("timestamp", JFloat (Collector.float_literal (clock_at env (tick s))))]
                Hp) as [Hc Hn].
    split.
    + rewrite Hc, loaded_urls_state_data. simpl. set_solver.
    + intros Hpos. rewrite Hn. unfold Link.loaded_pages. simpl.
      apply Z.leb_le in Hpos. rewrite Hpos. reflexivity.
  - rewrite (dated_reload_obj cal env s path Hp Hw).
    match goal with |- context [dated_load_fields cal _ path ?f] =>
      destruct (dated_load_fields_spec cal (Collector.init (obj s)) path f Hp) as [Hc Hd]
    end.
    split.
    + rewrite Hc, loaded_urls_state_data. simpl. set_solver.
    + rewrite Hd. simpl.
      destruct (Collector.last_processed_date (obj s)) as [[| c t] |]; simpl; try reflexivity.
      destruct (Dated.resume_day cal (String c t)); reflexivity.
  - intros o before fields after Hb Ha. split.
    + apply link_load_unknown; assumption.
    + apply dated_load_unknown; assumption.
Qed.

Lemma save_then_load_restores_witness :
  (Collector.collected_urls (link_reload Fixture.two_days Fixture.stopped_on_march_4)
   = Collector.collected_urls (obj Fixture.stopped_on_march_4))
  /\ (Collector.last_processed_date
        (dated_reload Fixture.march_2024 Fixture.two_days Fixture.stopped_on_march_4),
      Collector.current_scraping_date
        (dated_reload Fixture.march_2024 Fixture.two_days Fixture.stopped_on_march_4))
     = (Some "05 March 2024, 10:00", Some 19787).
Proof.
  destruct (save_then_load_restores Fixture.march_2024 Fixture.two_days
              Fixture.stopped_on_march_4 "scraper_state.json")
    as [[H1 _] [[_ H2] _]]; [reflexivity | reflexivity |].
  split; [exact H1 | exact H2].
Defined.

(** C3 as stated fails in the date-bucket version: the run over [two_days]
    stops while it scrapes 4 March (day 19786); its state, saved and loaded
    again, resumes from 5 March (day 19787), the day of the last row seen. *)
Lemma reload_loses_resume_day :
  Collector.current_scraping_date (obj Fixture.stopped_on_march_4) = Some 19786
  /\ Collector.current_scraping_date
       (dated_reload Fixture.march_2024 Fixture.two_days Fixture.stopped_on_march_4)
     = Some 19787.
Proof. split; vm_compute; reflexivity. Qed.

(** ** Frame lemmas for the URL collector *)

Module CollectorFacts.

Import Collector.

Section Frame.

Variable env : Env.
Variable handle_bot_challenge : M scraper bool.
Variable state_data : scraper -> Z -> json.
Variable I : run_state -> Prop.

Hypothesis I_touch : forall s t, I s -> I (touch s t).
Hypothesis I_handle : preserves I handle_bot_challenge.
Hypothesis I_find_table : forall s, I s -> I (log s (EvFind "history-table--content")).
Hypothesis I_find_next : forall s, I s -> I (log s (EvFind "history-pagination__next")).
Hypothesis I_click : forall s target, I s -> I (log s (EvClick target)).
Hypothesis I_read : forall s what, I s -> I (log s (EvRead what)).
Hypothesis I_login : forall s, I s -> I (log s EvLogin).
Hypothesis I_alert : forall s b, I s -> I (log s (EvAlert b)).
Hypothesis I_results : forall s final, I s -> I (log s (EvSaveResults final)).
Hypothesis I_state : forall s ok, I s -> I (log s (EvSaveState ok)).
Hypothesis I_clear : forall s, I s -> I (log s EvClearState).
Hypothesis I_disk : forall s f, I s -> I (MkState (obj s) (tick s) (trace s) (f (disk s))).
Hypothesis I_notified : forall s b, I s -> I (update s (with_notified b)).

Lemma keeps_observe A (reading : nat -> A) : preserves I (observe reading).
Proof. apply preserves_observe, I_touch. Qed.

Lemma keeps_find_table : preserves I (emit (EvFind "history-table--content")).
Proof. apply preserves_emit. intros s. apply I_find_table. Qed.

Lemma keeps_find_next : preserves I (emit (EvFind "history-pagination__next")).
Proof. apply preserves_emit. intros s. apply I_find_next. Qed.

Lemma keeps_click target : preserves I (emit (EvClick target)).
Proof. apply preserves_emit. intros s. apply I_click. Qed.

Lemma keeps_read what : preserves I (emit (EvRead what)).
Proof. apply preserves_emit. intros s. apply I_read. Qed.

Lemma keeps_set_disk f : preserves I (set_disk f).
Proof. intros s. apply I_disk. Qed.

Lemma keeps_login_event : preserves I (emit EvLogin).
Proof. apply preserves_emit. intros s. apply I_login. Qed.

Lemma keeps_alert b : preserves I (emit (EvAlert b)).
Proof. apply preserves_emit. intros s. apply I_alert. Qed.

Lemma keeps_results final : preserves I (emit (EvSaveResults final)).
Proof. apply preserves_emit. intros s. apply I_results. Qed.

Lemma keeps_state ok : preserves I (emit (EvSaveState ok)).
Proof. apply preserves_emit. intros s. apply I_state. Qed.

Lemma keeps_clear : preserves I (emit EvClearState).
Proof. apply preserves_emit. intros s. apply I_clear. Qed.

Lemma keeps_with_notified b : preserves I (set_obj (with_notified b)).
Proof. apply preserves_set_obj. intros s. apply I_notified. Qed.

Hint Resolve keeps_observe keeps_find_table keeps_find_next keeps_click keeps_read
  keeps_set_disk keeps_login_event keeps_alert keeps_results keeps_state keeps_clear
  keeps_with_notified I_handle : run_inv.

Lemma keeps_await_clear fuel : preserves I (await_clear handle_bot_challenge fuel).
Proof. induction fuel as [| n IH]; simpl; preserves_auto. Qed.

Lemma keeps_ensure_table_loaded fuel :
  preserves I (ensure_table_loaded env handle_bot_challenge fuel).
Proof. induction fuel as [| n IH]; simpl; preserves_auto. Qed.

Hint Resolve keeps_await_clear keeps_ensure_table_loaded : run_inv.

Lemma keeps_press_next next fuel :
  preserves I (press_next env handle_bot_challenge next fuel).
Proof. unfold press_next. preserves_auto. Qed.

Hint Resolve keeps_press_next : run_inv.

Lemma keeps_go_to_next_page fuel :
  preserves I (go_to_next_page env handle_bot_challenge fuel).
Proof. unfold go_to_next_page. preserves_auto. Qed.

Lemma keeps_get_current_page_number : preserves I (get_current_page_number env).
Proof. unfold get_current_page_number. preserves_auto. Qed.

Lemma keeps_save_results final : preserves I (save_results env final).
Proof. unfold save_results. preserves_auto. Qed.

Lemma keeps_save_state : preserves I (save_state env state_data).
Proof. unfold save_state, now. preserves_auto. Qed.

Hint Resolve keeps_save_results keeps_save_state : run_inv.

Lemma keeps_persist_progress : preserves I (persist_progress env state_data).
Proof. unfold persist_progress. preserves_auto. Qed.

Lemma keeps_clear_state : preserves I (clear_state env).
Proof. unfold clear_state. preserves_auto. Qed.

Lemma keeps_ensure_authenticated : preserves I (ensure_authenticated env).
Proof. unfold ensure_authenticated. preserves_auto. Qed.

Lemma keeps_send_email_alert : preserves I (send_email_alert env).
Proof. unfold send_email_alert. preserves_auto. Qed.

Hint Resolve keeps_send_email_alert : run_inv.

Lemma keeps_notify_bot_block : preserves I (notify_bot_block env).
Proof. unfold notify_bot_block. preserves_auto. Qed.

End Frame.

End CollectorFacts.

(** ** C7: the set of collected URLs never shrinks *)

Section Growth.

Variable env : Env.
Variable cal : Calendar.
Variable u : gset string.

Let I : Collector.run_state -> Prop := holds_all u.

Lemma grows_observe A (reading : nat -> A) : preserves I (observe reading).
Proof. intros s H. exact H. Qed.

Lemma grows_emit ev : preserves I (emit ev).
Proof. intros s H. exact H. Qed.

Lemma grows_set_disk f : preserves I (set_disk f).
Proof. intros s H. exact H. Qed.

Lemma grows_set_obj f :
  (forall o, Collector.collected_urls o ⊆ Collector.collected_urls (f o)) ->
  preserves I (set_obj f).
Proof. intros Hf s H. unfold I, holds_all in *. simpl. specialize (Hf (obj s)). set_solver. Qed.

Lemma grows_with_notified b : preserves I (set_obj (Collector.with_notified b)).
Proof. apply grows_set_obj. intros o. reflexivity. Qed.

Lemma grows_with_last_prompt t : preserves I (set_obj (Collector.with_last_prompt t)).
Proof. apply grows_set_obj. intros o. reflexivity. Qed.

Lemma grows_with_pages f :
  preserves I (set_obj (fun o => Collector.with_pages (f o) o)).
Proof. apply grows_set_obj. intros o. reflexivity. Qed.

Lemma grows_with_last_date d : preserves I (set_obj (Collector.with_last_date d)).
Proof. apply grows_set_obj. intros o. reflexivity. Qed.

Lemma grows_with_current_date d : preserves I (set_obj (Collector.with_current_date d)).
Proof. apply grows_set_obj. intros o. reflexivity. Qed.

Lemma grows_add href :
  preserves I (set_obj (fun o =>
    Collector.with_collected ({[ href ]} ∪ Collector.collected_urls o) o)).
Proof. apply grows_set_obj. intros o. simpl. set_solver. Qed.

Lemma grows_load fields :
  preserves I (set_obj (fun o =>
    Collector.with_collected (Collector.collected_urls o ∪ Collector.loaded_urls fields) o)).
Proof. apply grows_set_obj. intros o. simpl. set_solver. Qed.

Hint Resolve grows_observe grows_emit grows_set_disk grows_with_notified
  grows_with_last_prompt grows_with_last_date grows_with_current_date
  grows_add grows_load : run_inv.

Lemma grows_notify : preserves I (Collector.notify_bot_block env).
Proof. unfold Collector.notify_bot_block, Collector.send_email_alert. preserves_auto. Qed.

Hint Resolve grows_notify : run_inv.

Lemma grows_link_handle : preserves I (Link.handle_bot_challenge env).
Proof.
  unfold Link.handle_bot_challenge, Link.is_bot_challenge_present, prompt_operator, now.
  preserves_auto.
Qed.

Lemma grows_dated_handle : preserves I (Dated.handle_bot_challenge env).
Proof.
  unfold Dated.handle_bot_challenge, Dated.is_bot_challenge_present,
    Dated.click_on_bot_challenge.
  preserves_auto.
Qed.

Lemma grows_link_load_state : preserves I Link.load_state.
Proof.
  unfold Link.load_state. preserves_auto.
  apply grows_set_obj. intros o. reflexivity.
Qed.

Lemma grows_dated_load_state : preserves I (Dated.load_state cal).
Proof. unfold Dated.load_state. preserves_auto. Qed.

Lemma grows_add_links links : preserves I (Collector.add_links links).
Proof. induction links as [| [href | e] rest IH]; simpl; preserves_auto. Qed.

Hint Resolve grows_add_links : run_inv.

Lemma grows_link_collect : preserves I (Link.collect_current_page_urls env).
Proof. unfold Link.collect_current_page_urls. preserves_auto. Qed.

Lemma grows_dated_collect : preserves I (Dated.collect_current_page_urls env).
Proof. unfold Dated.collect_current_page_urls, Dated.collect_row. preserves_auto. Qed.

(** The operations the two versions share keep the invariant, whichever
    [_handle_bot_challenge] they call. *)
Section Shared.

Variable handle : M Collector.scraper bool.
Variable state_data : Collector.scraper -> Z -> json.
Hypothesis grows_handle : preserves I handle.

Lemma grows_go_to_next_page fuel : preserves I (Collector.go_to_next_page env handle fuel).
Proof. apply CollectorFacts.keeps_go_to_next_page; auto; intros; assumption. Qed.

Lemma grows_await_clear fuel : preserves I (Collector.await_clear handle fuel).
Proof. apply CollectorFacts.keeps_await_clear; auto. Qed.

Lemma grows_ensure_table_loaded fuel :
  preserves I (Collector.ensure_table_loaded env handle fuel).
Proof. apply CollectorFacts.keeps_ensure_table_loaded; auto; intros; assumption. Qed.

Lemma grows_persist_progress : preserves I (Collector.persist_progress env state_data).
Proof. apply CollectorFacts.keeps_persist_progress; auto; intros; assumption. Qed.

End Shared.

Lemma grows_page_number : preserves I (Collector.get_current_page_number env).
Proof. unfold Collector.get_current_page_number. preserves_auto. Qed.

Lemma grows_save_results final : preserves I (Collector.save_results env final).
Proof. unfold Collector.save_results. preserves_auto. Qed.

Lemma grows_clear_state : preserves I (Collector.clear_state env).
Proof. unfold Collector.clear_state. preserves_auto. Qed.

Lemma grows_ensure_authenticated : preserves I (Collector.ensure_authenticated env).
Proof. unfold Collector.ensure_authenticated. preserves_auto. Qed.

Hint Resolve grows_link_handle grows_dated_handle grows_link_collect grows_dated_collect
  grows_go_to_next_page grows_await_clear grows_ensure_table_loaded grows_persist_progress
  grows_page_number grows_save_results grows_clear_state grows_ensure_authenticated
  grows_with_pages : run_inv.

Lemma grows_seek_page fuel target left : preserves I (Link.seek_page env fuel target left).
Proof.
  induction left as [| n IH]; simpl;
    unfold Link.await_clear, Link.go_to_next_page; preserves_auto.
Qed.

Hint Resolve grows_seek_page : run_inv.

Lemma grows_skip_processed_pages fuel : preserves I (Link.skip_processed_pages env fuel).
Proof. unfold Link.skip_processed_pages. preserves_auto. Qed.

Lemma grows_scan_pages fuel : preserves I (Link.scan_pages env fuel).
Proof.
  induction fuel as [| n IH]; [apply preserves_out_of_fuel |].
  cbn [Link.scan_pages].
  unfold Link.await_clear, Link.go_to_next_page, Link.persist_progress; preserves_auto.
Qed.

Hint Resolve grows_skip_processed_pages grows_scan_pages : run_inv.

Lemma grows_link_run fuel : preserves I (Link.run env fuel).
Proof. unfold Link.run, Link.ensure_table_loaded. preserves_auto. Qed.

Lemma grows_apply_date_filter fuel day :
  preserves I (Dated.apply_date_filter_for_day env fuel day).
Proof. unfold Dated.apply_date_filter_for_day, Dated.ensure_table_loaded. preserves_auto. Qed.

Lemma grows_scan_day fuel : preserves I (Dated.scan_day cal env fuel).
Proof.
  induction fuel as [| n IH]; [apply preserves_out_of_fuel |].
  cbn [Dated.scan_day].
  unfold Dated.await_clear, Dated.go_to_next_page, Dated.persist_progress; preserves_auto.
Qed.

Hint Resolve grows_apply_date_filter grows_scan_day : run_inv.

Lemma grows_scan_days fuel days day : preserves I (Dated.scan_days cal env fuel days day).
Proof.
  revert day. induction days as [| n IH]; intros day; [apply preserves_out_of_fuel |].
  cbn [Dated.scan_days]. preserves_auto.
Qed.

Hint Resolve grows_scan_days : run_inv.

Lemma grows_dated_run fuel : preserves I (Dated.run cal env fuel).
Proof. unfold Dated.run, Dated.ensure_table_loaded. preserves_auto. Qed.

End Growth.

(** What the loop over the links of a row adds to the collected set: links
    of the row that it keeps, and all of them when no link fails. *)
Lemma add_links_adds links (s : Collector.run_state) :
  Collector.collected_urls (obj (snd (Collector.add_links links s)))
  ⊆ Collector.collected_urls (obj s)
    ∪ list_to_set (omap id (List.filter Collector.keeps (Collector.hrefs links))).
Proof.
  revert s. induction links as [| [href | e] rest IH]; intros s.
  - simpl. set_solver.
  - change (Collector.hrefs (Got href :: rest)) with (href :: Collector.hrefs rest).
    cbn [Collector.add_links List.filter]. unfold bind at 1.
    destruct (Collector.keeps href) eqn:Hk.
    + unfold set_obj at 1. cbn [fst snd].
      etransitivity; [apply IH |]. cbn [obj Collector.collected_urls Collector.with_collected].
      destruct href as [h |]; [| exfalso; revert Hk; cbv; congruence].
      change (omap id (Some h :: List.filter Collector.keeps (Collector.hrefs rest)))
        with (h :: omap id (List.filter Collector.keeps (Collector.hrefs rest))).
      cbn [default list_to_set]. set_solver.
    + unfold ret at 1. cbn [fst snd]. etransitivity; [apply IH |]. set_solver.
  - change (Collector.hrefs (Failed e :: rest)) with (Collector.hrefs rest).
    simpl. set_solver.
Qed.

Lemma row_adds (body : row -> M Collector.scraper unit) rows :
  (forall r s,
     Collector.collected_urls (obj (snd (body r s)))
     ⊆ Collector.collected_urls (obj s) ∪ list_to_set (Collector.row_urls r)) ->
  forall s,
    Collector.collected_urls (obj (snd (for_each rows body s)))
    ⊆ Collector.collected_urls (obj s)
      ∪ list_to_set (concat (map Collector.row_urls rows)).
Proof.
  intros Hbody. induction rows as [| r rows IH]; intros s.
  - simpl. set_solver.
  - cbn [for_each map concat]. unfold bind at 1.
    specialize (Hbody r s).
    destruct (body r s) as [[[] | e |] s1]; cbn [fst snd] in *.
    + etransitivity; [apply IH |]. rewrite list_to_set_app_L. set_solver.
    + rewrite list_to_set_app_L. set_solver.
    + rewrite list_to_set_app_L. set_solver.
Qed.

Lemma dated_collect_row_adds r (s : Collector.run_state) :
  Collector.collected_urls (obj (snd (Dated.collect_row r s)))
  ⊆ Collector.collected_urls (obj s) ∪ list_to_set (Collector.row_urls r).
Proof.
  unfold Dated.collect_row, bind at 1.
  assert (Hdate : forall (m : M Collector.scraper unit),
            (forall s0, Collector.collected_urls (obj (snd (m s0)))
                        = Collector.collected_urls (obj s0)) ->
            Collector.collected_urls
              (obj (snd (match m s with
                         | (Ok a, s') => Collector.add_links (default [] (row_links r)) s'
                         | (Raise e, s') => (Raise e, s')
                         | (OutOfFuel, s') => (OutOfFuel, s')
                         end)))
            ⊆ Collector.collected_urls (obj s) ∪ list_to_set (Collector.row_urls r)).
  { intros m Hm. specialize (Hm s). destruct (m s) as [[[] | e |] s1]; cbn [fst snd] in *.
    - rewrite <- Hm. apply add_links_adds.
    - rewrite Hm. set_solver.
    - rewrite Hm. set_solver. }
  apply Hdate. intros s0.
  destruct (row_time r) as [text | e].
  - destruct (Py.strip text); reflexivity.
  - destruct (exn_eqb e NoSuchElementException); reflexivity.
Qed.

(** What a scan of the current page does to the collected set, in both
    versions: it adds links of the page that it keeps, and nothing else. *)
Lemma collect_adds_page_links env (s : Collector.run_state) :
  Collector.collected_urls (obj (snd (Link.collect_current_page_urls env s)))
  ⊆ Collector.collected_urls (obj s) ∪ list_to_set (page_links (page_at env (tick s)))
  /\ Collector.collected_urls (obj (snd (Dated.collect_current_page_urls env s)))
     ⊆ Collector.collected_urls (obj s) ∪ list_to_set (page_links (page_at env (tick s))).
Proof.
  split.
  - unfold Link.collect_current_page_urls, Collector.require_driver, bind, get_obj, observe,
      emit.
    destruct (Collector.driver (obj s)); simpl; [| set_solver].
    match goal with |- context [for_each ?rows ?body ?s0] =>
      exact (row_adds body rows
               (fun r s1 => add_links_adds (default [] (row_links r)) s1) s0) end.
  - unfold Dated.collect_current_page_urls, Collector.require_driver, bind, get_obj, observe,
      emit.
    destruct (Collector.driver (obj s)); simpl; [| set_solver].
    match goal with |- context [for_each ?rows ?body ?s0] =>
      exact (row_adds body rows dated_collect_row_adds s0) end.
Qed.

(** C7.  Every operation of the two collectors leaves a state whose collected
    set holds all URLs it held before, however the operation ends: loading
    the persisted state, scanning the rows of a page, persisting progress,
    advancing to the next page, skipping processed pages, walking the date
    buckets, and the whole run.  A scan adds links of the page and nothing
    else, so a page whose links are all known already leaves the set, and its
    size, as it was. *)
Theorem collected_urls_never_shrink
    (cal : Calendar) (env : Env) (fuel days : nat) (day : Z) (s : Collector.run_state) :
  let grown (s' : Collector.run_state) := holds_all (Collector.collected_urls (obj s)) s' in
  (grown (snd (Link.load_state s))
   /\ grown (snd (Link.collect_current_page_urls env s))
   /\ grown (snd (Link.persist_progress env s))
   /\ grown (snd (Link.go_to_next_page env fuel s))
   /\ grown (snd (Link.skip_processed_pages env fuel s))
   /\ grown (snd (Link.run env fuel s)))
  /\ (grown (snd (Dated.load_state cal s))
      /\ grown (snd (Dated.collect_current_page_urls env s))
      /\ grown (snd (Dated.persist_progress cal env s))
      /\ grown (snd (Dated.go_to_next_page env fuel s))
      /\ grown (snd (Dated.scan_days cal env fuel days day s))
      /\ grown (snd (Dated.run cal env fuel s)))
  /\ (list_to_set (page_links (page_at env (tick s))) ⊆ Collector.collected_urls (obj s) ->
      Collector.collected_urls (obj (snd (Link.collect_current_page_urls env s)))
      = Collector.collected_urls (obj s)
      /\ Collector.collected_urls (obj (snd (Dated.collect_current_page_urls env s)))
         = Collector.collected_urls (obj s)
      /\ size (Collector.collected_urls (obj (snd (Link.collect_current_page_urls env s))))
         = size (Collector.collected_urls (obj s))).
Proof.
  intros grown.
  assert (Hs : holds_all (Collector.collected_urls (obj s)) s) by (unfold holds_all; set_solver).
  split; [| split].
  - repeat split.
    + exact (grows_link_load_state _ s Hs).
    + exact (grows_link_collect env _ s Hs).
    + exact (grows_persist_progress env _ Link.state_data s Hs).
    + exact (grows_go_to_next_page env _ _ (grows_link_handle env _) fuel s Hs).
    + exact (grows_skip_processed_pages env _ fuel s Hs).
    + exact (grows_link_run env _ fuel s Hs).
  - repeat split.
    + exact (grows_dated_load_state cal _ s Hs).
    + exact (grows_dated_collect env _ s Hs).
    + exact (grows_persist_progress env _ (Dated.state_data cal) s Hs).
    + exact (grows_go_to_next_page env _ _ (grows_dated_handle env _) fuel s Hs).
    + exact (grows_scan_days env cal _ fuel days day s Hs).
    + exact (grows_dated_run env cal _ fuel s Hs).
  - intros Hknown. destruct (collect_adds_page_links env s) as [Hl Hd].
    pose proof (grows_link_collect env _ s Hs) as Gl.
    pose proof (grows_dated_collect env _ s Hs) as Gd.
    unfold holds_all in Gl, Gd.
    assert (El : Collector.collected_urls (obj (snd (Link.collect_current_page_urls env s)))
                 = Collector.collected_urls (obj s)) by set_solver.
    assert (Ed : Collector.collected_urls (obj (snd (Dated.collect_current_page_urls env s)))
                 = Collector.collected_urls (obj s)) by set_solver.
    rewrite El, Ed. repeat split; reflexivity.
Qed.

Lemma collected_urls_never_shrink_witness :
  Collector.collected_urls
    (obj (snd (Link.collect_current_page_urls Fixture.two_days Fixture.resumed)))
  = Collector.collected_urls (obj Fixture.resumed).
Proof.
  destruct (collected_urls_never_shrink Fixture.march_2024 Fixture.two_days 1 1 0
              Fixture.resumed) as (_ & _ & H).
  destruct H as (H & _); [| exact H].
  change (list_to_set [Fixture.first_url] ⊆ ({[ Fixture.first_url ]} : gset string)).
  set_solver.
Defined.

(** ** C8: a stale next-page button ends the pagination *)

(** After the challenge wait and with the browser started,
    [_go_to_next_page] is the lookup of the button and what follows it. *)
Lemma go_to_next_page_after_gate
    (env : Env) (handle : M Collector.scraper bool) (fuel : nat)
    (s s1 : Collector.run_state) :
  Collector.await_clear handle fuel s = (Ok tt, s1) ->
  Collector.driver (obj s1) = true ->
  Collector.go_to_next_page env handle fuel s
  = Collector.press_next env handle (wait_until (pg_next (page_at env (tick s1)))) fuel
      (MkState (obj s1) (S (tick s1)) (trace s1 ++ [EvFind "history-pagination__next"])
         (disk s1)).
Proof.
  intros Hgate Hdriver.
  unfold Collector.go_to_next_page, bind at 1. rewrite Hgate.
  unfold Collector.require_driver, bind, get_obj, observe, emit. simpl. rewrite Hdriver.
  reflexivity.
Qed.




(** ** Counting events on the log *)

Lemma count_events_snoc p tr ev :
  count_events p (tr ++ [ev]) = (count_events p tr + (if p ev then 1 else 0))%nat.
Proof.
  unfold count_events. rewrite List.filter_app, length_app. simpl.
  destruct (p ev); reflexivity.
Qed.

Section Counting.

Variable O : Type.
Variable p : event -> bool.
Variable R : nat -> Prop.

Let I : state O -> Prop := fun s => R (count_events p (trace s)).

Lemma counting_touch s t : I s -> I (touch s t).
Proof. exact (fun H => H). Qed.

Lemma counting_update s f : I s -> I (update s f).
Proof. exact (fun H => H). Qed.

Lemma counting_log s ev : p ev = false -> I s -> I (log s ev).
Proof.
  intros Hp H. unfold I, log. simpl. rewrite count_events_snoc, Hp, Nat.add_0_r. exact H.
Qed.

Lemma counting_observe A (reading : nat -> A) : preserves I (observe reading).
Proof. intros s H. exact H. Qed.

Lemma counting_set_obj f : preserves I (set_obj f).
Proof. intros s H. exact H. Qed.

Lemma counting_set_disk f : preserves I (set_disk f).
Proof. intros s H. exact H. Qed.

Lemma counting_emit ev : p ev = false -> preserves I (emit ev).
Proof. intros Hp s H. apply counting_log; assumption. Qed.

End Counting.

(** The challenge handlers only log events of the challenge protocol. *)
Section CountingHandlers.

Variable env : Env.
Variable p : event -> bool.
Variable R : nat -> Prop.
Hypothesis p_protocol : forall ev, is_protocol ev = true -> p ev = false.

Let I : Collector.run_state -> Prop := fun s => R (count_events p (trace s)).

Hint Resolve counting_observe counting_set_obj counting_set_disk : run_inv.

Lemma counting_protocol ev : is_protocol ev = true -> preserves I (emit ev).
Proof. intros H. apply counting_emit, p_protocol, H. Qed.

Hint Resolve counting_protocol : run_inv.

Lemma counting_notify : preserves I (Collector.notify_bot_block env).
Proof. unfold Collector.notify_bot_block, Collector.send_email_alert. preserves_auto. Qed.

Hint Resolve counting_notify : run_inv.

Lemma counting_link_handle : preserves I (Link.handle_bot_challenge env).
Proof.
  unfold Link.handle_bot_challenge, Link.is_bot_challenge_present, prompt_operator, now.
  preserves_auto.
Qed.

Lemma counting_dated_handle : preserves I (Dated.handle_bot_challenge env).
Proof.
  unfold Dated.handle_bot_challenge, Dated.is_bot_challenge_present,
    Dated.click_on_bot_challenge.
  preserves_auto.
Qed.

Lemma counting_link_await_clear fuel : preserves I (Link.await_clear env fuel).
Proof. apply CollectorFacts.keeps_await_clear, counting_link_handle. Qed.

Lemma counting_dated_await_clear fuel : preserves I (Dated.await_clear env fuel).
Proof. apply CollectorFacts.keeps_await_clear, counting_dated_handle. Qed.

End CountingHandlers.

(** ** C4: skipping the pages a previous run processed *)

Section Seeking.

Variable env : Env.

Lemma paged_touch k m c s t : paged k m c s -> paged k m c (touch s t).
Proof. exact (fun H => H). Qed.

Lemma paged_update k m c s f :
  (forall o, Collector.driver (f o) = Collector.driver o) ->
  paged k m c s -> paged k m c (update s f).
Proof. intros Hf (Hd & H). split; [simpl; rewrite Hf; exact Hd | exact H]. Qed.

Lemma paged_log k m c s ev :
  paged k m c s ->
  paged (k + (if is_next_lookup ev then 1 else 0))
        (m + (if is_page_read ev then 1 else 0))
        (c + (if is_next_click ev then 1 else 0)) (log s ev).
Proof.
  intros (Hd & Hk & Hm & Hc).
  unfold paged, next_page_lookups, page_reads, next_page_clicks, log in *. simpl.
  rewrite !count_events_snoc. subst. auto.
Qed.

Lemma paged_passive k m c s ev :
  is_next_lookup ev = false -> is_page_read ev = false -> is_next_click ev = false ->
  paged k m c s -> paged k m c (log s ev).
Proof.
  intros H1 H2 H3 H. pose proof (paged_log k m c s ev H) as H'.
  rewrite H1, H2, H3, !Nat.add_0_r in H'. exact H'.
Qed.

Lemma paged_handle k m c : preserves (paged k m c) (Link.handle_bot_challenge env).
Proof.
  assert (Hobs : forall A (reading : nat -> A), preserves (paged k m c) (observe reading))
    by (intros A reading s H; exact H).
  assert (Hemit : forall ev, is_protocol ev = true -> preserves (paged k m c) (emit ev)).
  { intros ev Hev s H. apply paged_passive; [| | | exact H];
      destruct ev; simpl in Hev; try discriminate; reflexivity. }
  assert (Hnote : forall b, preserves (paged k m c) (set_obj (Collector.with_notified b)))
    by (intros b s H; apply paged_update; [reflexivity | exact H]).
  assert (Hprompt : forall t, preserves (paged k m c) (set_obj (Collector.with_last_prompt t)))
    by (intros t s H; apply paged_update; [reflexivity | exact H]).
  unfold Link.handle_bot_challenge, Link.is_bot_challenge_present, prompt_operator, now,
    Collector.notify_bot_block, Collector.send_email_alert.
  repeat first [ solve [auto] | apply Hemit; reflexivity | preserves_step ].
Qed.

Lemma paged_await_clear k m c fuel : preserves (paged k m c) (Link.await_clear env fuel).
Proof.
  induction fuel as [| n IH]; simpl; [apply preserves_out_of_fuel |].
  apply preserves_bind; [apply paged_handle | intros again].
  destruct again; [exact IH | apply preserves_ret].
Qed.

Lemma paged_ensure_table_loaded k m c fuel :
  preserves (paged k m c) (Link.ensure_table_loaded env fuel).
Proof.
  induction fuel as [| n IH]; simpl; [apply preserves_out_of_fuel |].
  apply preserves_bind; [apply preserves_require_driver | intros _].
  apply preserves_bind; [intros s H; exact H | intros pg].
  apply preserves_bind;
    [intros s H; apply paged_passive; [reflexivity .. | exact H] | intros _].
  apply preserves_bind; [apply paged_handle | intros again].
  destruct again; [exact IH |].
  destruct (pg_table pg); [apply preserves_ret | apply preserves_raise].
Qed.

(** With the browser started, [_get_current_page_number] reads the page
    number once, however it ends. *)
Lemma paged_page_number k m c :
  triple (paged k m c) (Collector.get_current_page_number env)
    (fun _ s' => paged k (S m) c s').
Proof.
  intros s H. pose proof H as (Hd & _).
  unfold Collector.get_current_page_number, bind, get_obj, observe, emit. simpl.
  rewrite Hd. simpl.
  pose proof (paged_log k m c (touch s (S (tick s))) (EvRead "page-number") H) as H'.
  change (is_next_lookup (EvRead "page-number")) with false in H'.
  change (is_page_read (EvRead "page-number")) with true in H'.
  change (is_next_click (EvRead "page-number")) with false in H'.
  rewrite !Nat.add_0_r, Nat.add_1_r in H'.
  destruct (Collector.page_number (page_at env (tick s))); exact H'.
Qed.

(** With the browser started, a call of [_go_to_next_page] looks the button
    up once at most; when it returns, it has looked it up once, and when it
    returns [True] it has clicked it once. *)
Lemma paged_go_to_next_page k m c fuel :
  triple (paged k m c) (Link.go_to_next_page env fuel)
    (fun r s' =>
       (k <= next_page_lookups (trace s') <= S k)%nat
       /\ (r = Ok true -> paged (S k) m (S c) s')
       /\ (r = Ok false ->
           Collector.driver (obj s') = true
           /\ next_page_lookups (trace s') = S k
           /\ page_reads (trace s') = m)).
Proof.
  apply triple_run. intros s r s' H E. unfold Link.go_to_next_page in E.
  pose proof (paged_await_clear k m c fuel s H) as H1. cbv beta in H1.
  unfold Link.await_clear in H1.
  destruct (Collector.await_clear (Link.handle_bot_challenge env) fuel s)
    as [[[] | e |] s1] eqn:Hgate; simpl in H1.
  2, 3: unfold Collector.go_to_next_page, bind at 1 in E; rewrite Hgate in E;
    injection E as <- <-; destruct H1 as (_ & Hk & _);
    split; [lia | split; discriminate].
  rewrite (go_to_next_page_after_gate env _ fuel s s1 Hgate (proj1 H1)) in E.
  pose proof (paged_log k m c (touch s1 (S (tick s1))) (EvFind "history-pagination__next") H1)
    as H2.
  change (is_next_lookup (EvFind "history-pagination__next")) with true in H2.
  change (is_page_read (EvFind "history-pagination__next")) with false in H2.
  change (is_next_click (EvFind "history-pagination__next")) with false in H2.
  rewrite !Nat.add_0_r, Nat.add_1_r in H2.
  pose proof (paged_log (S k) m c _ (EvClick "history-pagination__next")
                (paged_touch _ _ _ _ (S (S (tick s1))) H2)) as H3.
  change (is_next_lookup (EvClick "history-pagination__next")) with false in H3.
  change (is_page_read (EvClick "history-pagination__next")) with false in H3.
  change (is_next_click (EvClick "history-pagination__next")) with true in H3.
  rewrite !Nat.add_0_r, Nat.add_1_r in H3.
  pose proof (paged_ensure_table_loaded (S k) m (S c) fuel _ H3) as H4.
  cbv beta in H4. unfold Link.ensure_table_loaded in H4.
  unfold log, touch in H2, H3, H4. cbn [obj tick trace disk] in H2, H3, H4.
  pose proof H2 as (Hd & Hk & Hm & Hc). pose proof H3 as (Hd3 & Hk3 & Hm3 & Hc3).
  cbn [obj trace] in Hd, Hk, Hm, Hc, Hd3, Hk3, Hm3, Hc3.
  unfold Collector.press_next in E.
  destruct (wait_until (pg_next (page_at env (tick s1)))) as [b | e |].
  - destruct (btn_error b);
      [injection E as <- <-; cbn [trace obj]; split; [lia | split; discriminate] |].
    destruct (is_button_enabled b); simpl in E;
      [| injection E as <- <-; cbn [trace obj];
         split; [lia | split; [discriminate | intros _; auto]]].
    unfold bind at 1, observe in E. cbn [fst snd tick obj trace disk] in E.
    destruct (pg_script (page_at env (S (tick s1))));
      [injection E as <- <-; cbn [trace obj]; split; [lia | split; discriminate] |].
    unfold bind at 1, emit in E. cbn [fst snd tick obj trace disk] in E.
    destruct (pg_click (page_at env (S (tick s1)))) as [e |].
    + destruct (exn_eqb e StaleElementReferenceException);
        injection E as <- <-; cbn [trace obj];
        (split; [lia | split; [discriminate | try discriminate; intros _; auto]]).
    + unfold try_except, bind in E.
      destruct (Collector.ensure_table_loaded env (Link.handle_bot_challenge env) fuel _)
        as [[[] | e |] s4]; simpl in H4; destruct H4 as (Hd4 & Hk4 & Hm4 & Hc4).
      * injection E as <- <-.
        split; [lia | split; [intros _; repeat split; assumption | discriminate]].
      * destruct (catches (Only [TimeoutException]) e); injection E as <- <-;
          (split; [lia | split; [discriminate | try discriminate; intros _; auto]]).
      * injection E as <- <-. split; [lia | split; discriminate].
  - destruct (exn_eqb e NoSuchElementException); injection E as <- <-; cbn [trace obj];
      (split; [lia | split; [discriminate | try discriminate; intros _; auto]]).
  - injection E as <- <-. cbn [trace obj]. split; [lia | split; discriminate].
Qed.

(** The loop of [_skip_processed_pages], from a state where the browser is
    started: what it has done when it ends, with [left] rounds to go. *)
Lemma seek_page_rounds fuel target : forall left k m c,
  triple (paged k m c) (Link.seek_page env fuel target left)
    (fun r s' =>
       exists rounds : nat,
         next_page_lookups (trace s') = (k + rounds)%nat
         /\ (rounds <= left)%nat
         /\ (r = Ok true ->
             (rounds < left)%nat
             /\ page_reads (trace s') = (m + rounds + 1)%nat
             /\ next_page_clicks (trace s') = (c + rounds)%nat
             /\ exists s1 q,
                  Collector.get_current_page_number env s1 = (Ok (Some q), s')
                  /\ target <= q)
         /\ (r = Ok false ->
             page_reads (trace s') = (m + rounds)%nat
             /\ ((rounds = left /\ next_page_clicks (trace s') = (c + rounds)%nat)
                 \/ exists s1, Link.go_to_next_page env fuel s1 = (Ok false, s')))).
Proof.
  induction left as [| left IH]; intros k m c; apply triple_run; intros s r s' H E.
  - injection E as <- <-. exists 0%nat. destruct H as (_ & Hk & Hm & Hc).
    split; [lia | split; [lia | split; [discriminate |]]].
    intros _. split; [lia | left; split; [reflexivity | lia]].
  - cbn [Link.seek_page] in E. unfold bind at 1 in E.
    pose proof (paged_await_clear k m c fuel s H) as H1. cbv beta in H1.
    destruct (Link.await_clear env fuel s) as [[[] | e |] s1]; simpl in H1.
    2, 3: injection E as <- <-; exists 0%nat; destruct H1 as (_ & Hk & _);
      split; [lia | split; [lia | split; discriminate]].
    unfold bind at 1 in E.
    pose proof (paged_page_number k m c s1 H1) as H2. cbv beta in H2.
    destruct (Collector.get_current_page_number env s1) as [[page_from_ui | e |] s2] eqn:Hread;
      simpl in H2.
    2, 3: injection E as <- <-; exists 0%nat; destruct H2 as (_ & Hk & _);
      split; [lia | split; [lia | split; discriminate]].
    destruct (match page_from_ui with Some p => target <=? p | None => false end) eqn:Hat.
    + injection E as <- <-. exists 0%nat. destruct H2 as (_ & Hk & Hm & Hc).
      split; [lia | split; [lia | split; [| discriminate]]].
      intros _. split; [lia | split; [lia | split; [lia |]]].
      destruct page_from_ui as [q |]; [| discriminate].
      exists s1, q. split; [exact Hread | apply Z.leb_le, Hat].
    + unfold bind at 1 in E.
      pose proof (paged_go_to_next_page k (S m) c fuel s2 H2) as H3. cbv beta in H3.
      destruct (Link.go_to_next_page env fuel s2) as [[advanced | e |] s3] eqn:Hgo;
        simpl in H3; destruct H3 as (Hle & Htrue & Hfalse).
      * destruct advanced; simpl in E.
        -- specialize (Htrue eq_refl).
           pose proof (IH (S k) (S m) (S c) s3 Htrue) as Hrest. cbv beta in Hrest.
           rewrite E in Hrest. simpl in Hrest.
           destruct Hrest as (rounds & Hk & Hr & Hok & Hno).
           exists (S rounds). split; [lia | split; [lia | split]].
           ++ intros Eq. destruct (Hok Eq) as (Hlt & Hm & Hc & Hq).
              split; [lia | split; [lia | split; [lia | exact Hq]]].
           ++ intros Eq. destruct (Hno Eq) as (Hm & Hend).
              split; [lia |]. destruct Hend as [[Hfull Hc] | Hgone].
              ** left. split; lia.
              ** right. exact Hgone.
        -- injection E as <- <-. destruct (Hfalse eq_refl) as (_ & Hk & Hm).
           exists 1%nat. split; [lia | split; [lia | split; [discriminate |]]].
           intros _. split; [lia |]. right. exists s2. exact Hgo.
      * injection E as <- <-. exists (next_page_lookups (trace s3) - k)%nat.
        split; [lia | split; [lia | split; discriminate]].
      * injection E as <- <-. exists (next_page_lookups (trace s3) - k)%nat.
        split; [lia | split; [lia | split; discriminate]].
Qed.

End Seeking.

Section NoRescan.

Variable env : Env.
Variable m : nat.

Let I : Collector.run_state -> Prop := fun s => count_events is_row_scan (trace s) = m.

Lemma rescan_log s ev : is_row_scan ev = false -> I s -> I (log s ev).
Proof. apply (counting_log _ is_row_scan (fun n => n = m)). Qed.

Lemma rescan_handle : preserves I (Link.handle_bot_challenge env).
Proof.
  apply (counting_link_handle env is_row_scan (fun n => n = m)).
  intros ev H. destruct ev; simpl in H; try discriminate; reflexivity.
Qed.

Lemma rescan_await_clear fuel : preserves I (Link.await_clear env fuel).
Proof. apply CollectorFacts.keeps_await_clear, rescan_handle. Qed.

Lemma rescan_page_number : preserves I (Collector.get_current_page_number env).
Proof.
  apply CollectorFacts.keeps_get_current_page_number.
  - intros s t H. exact H.
  - intros s what. apply rescan_log. reflexivity.
Qed.

Lemma rescan_go_to_next_page fuel : preserves I (Link.go_to_next_page env fuel).
Proof.
  apply CollectorFacts.keeps_go_to_next_page.
  - intros s t H. exact H.
  - apply rescan_handle.
  - intros s. apply rescan_log. reflexivity.
  - intros s. apply rescan_log. reflexivity.
  - intros s target. apply rescan_log. reflexivity.
Qed.

Hint Resolve rescan_await_clear rescan_page_number rescan_go_to_next_page : run_inv.

Lemma rescan_seek_page fuel target left : preserves I (Link.seek_page env fuel target left).
Proof. induction left as [| n IH]; simpl; preserves_auto. Qed.

Hint Resolve rescan_seek_page : run_inv.

Lemma rescan_skip_processed_pages fuel : preserves I (Link.skip_processed_pages env fuel).
Proof. unfold Link.skip_processed_pages. preserves_auto. Qed.

End NoRescan.

(** Behind the target, [_skip_processed_pages] is the seeking loop with the
    budget computed from the live page. *)
Lemma skip_behind env fuel (s : Collector.run_state) p :
  Collector.driver (obj s) = true ->
  0 < Collector.pages_processed (obj s) ->
  Collector.page_number (page_at env (tick s)) = Got (Some p) ->
  p < Collector.pages_processed (obj s) + 1 ->
  Link.skip_processed_pages env fuel s
  = Link.seek_page env fuel (Collector.pages_processed (obj s) + 1)
      (Z.to_nat (Z.max (Collector.pages_processed (obj s) + 1 - p + 3) 5))
      (log (touch s (S (tick s))) (EvRead "page-number")).
Proof.
  intros Hdriver Hpos Hp Hbehind.
  unfold Link.skip_processed_pages, Collector.get_current_page_number,
    bind, get_obj, observe, emit. simpl.
  apply Z.leb_gt in Hpos. rewrite Hpos, Hdriver. simpl. rewrite Hp.
  unfold ret. cbv beta iota.
  assert (Hlt : (Collector.pages_processed (obj s) + 1 <=? p) = false)
    by (apply Z.leb_gt; lia).
  rewrite Hlt.
  assert (Hskip : (Z.max (Collector.pages_processed (obj s) + 1 - p) 0 =? 0) = false)
    by (apply Z.eqb_neq; lia).
  rewrite Hskip.
  replace (Z.max (Collector.pages_processed (obj s) + 1 - p) 0)
    with (Collector.pages_processed (obj s) + 1 - p) by lia.
  reflexivity.
Qed.

(** When no page number can be read off the live page,
    [_skip_processed_pages] is the seeking loop with the budget computed from
    the recorded pages. *)
Lemma skip_unread env fuel (s : Collector.run_state) :
  Collector.driver (obj s) = true ->
  0 < Collector.pages_processed (obj s) ->
  Collector.page_number (page_at env (tick s)) = Got None ->
  Link.skip_processed_pages env fuel s
  = Link.seek_page env fuel (Collector.pages_processed (obj s) + 1)
      (Z.to_nat (Z.max (Collector.pages_processed (obj s) + 3) 5))
      (log (touch s (S (tick s))) (EvRead "page-number")).
Proof.
  intros Hdriver Hpos Hp.
  unfold Link.skip_processed_pages, Collector.get_current_page_number,
    bind, get_obj, observe, emit. simpl.
  apply Z.leb_gt in Hpos. rewrite Hpos, Hdriver. simpl. rewrite Hp. reflexivity.
Qed.

(** The seeking loop, entered after the first read of the page number, does
    what [advanced] says. *)
Lemma seek_page_advanced env fuel target budget (s : Collector.run_state) :
  Collector.driver (obj s) = true ->
  advanced env fuel target budget s
    (Link.seek_page env fuel target budget
       (log (touch s (S (tick s))) (EvRead "page-number"))).
Proof.
  intros Hdriver.
  assert (Hs : paged (next_page_lookups (trace s)) (page_reads (trace s))
                 (next_page_clicks (trace s)) s) by (repeat split; assumption).
  pose proof (paged_log _ _ _ _ (EvRead "page-number")
                (paged_touch _ _ _ _ (S (tick s)) Hs)) as H1.
  change (is_next_lookup (EvRead "page-number")) with false in H1.
  change (is_page_read (EvRead "page-number")) with true in H1.
  change (is_next_click (EvRead "page-number")) with false in H1.
  rewrite !Nat.add_0_r in H1.
  destruct (seek_page_rounds env fuel target budget _ _ _ _ H1)
    as (rounds & Hk & Hle & Htrue & Hfalse).
  exists rounds. split; [exact Hk | split; [exact Hle | split]].
  - intros E. destruct (Htrue E) as (Hlt & Hm & Hc & Hq).
    split; [exact Hlt | split; [exact Hm | split; [exact Hc | exact Hq]]].
  - intros E. destruct (Hfalse E) as (Hm & Hend). split; [exact Hm | exact Hend].
Qed.



(** The budget at work: with three pages processed and a live page stuck on
    page 1, the loop looks the button up [max(3 + 3, 5) = 6] times and then
    reports failure; [run] then saves what it has and returns. *)
Example skip_gives_up_after_budget :
  fst (Link.skip_processed_pages Fixture.stuck_on_page_1 3 Fixture.three_pages_done)
  = Ok false
  /\ next_page_lookups
       (trace (snd (Link.skip_processed_pages Fixture.stuck_on_page_1 3
                      Fixture.three_pages_done))) = 6%nat
  /\ fst (Link.run Fixture.stuck_on_page_1 3 Fixture.three_pages_done) = Ok [].
Proof. repeat split; vm_compute; reflexivity. Qed.

(** ** C2: the challenge gate *)

Lemma gate_state_snoc tr ev : gate_state (tr ++ [ev]) = gate_step (gate_state tr) ev.
Proof. unfold gate_state. rewrite fold_left_app. reflexivity. Qed.

(** The rules of the gate for the steps of a run. *)
Section Gate.

Variable off : Collector.scraper -> bool.

Lemma clear_watched s : clear s -> watched off s.
Proof. intros (H0 & H1 & H2). repeat split; auto. Qed.

Lemma settled_watched {A} (r : outcome A) s : settled off r s -> watched off s.
Proof. destruct r; simpl; auto using clear_watched. Qed.

Lemma acts_ret {A} (a : A) : acts off (ret a).
Proof. intros s H. exact H. Qed.

Lemma acts_raise {A} e : acts off (@raise Collector.scraper A e).
Proof. intros s H. exact H. Qed.

Lemma acts_out_of_fuel {A} : acts off (@out_of_fuel Collector.scraper A).
Proof. intros s H. apply clear_watched, H. Qed.

Lemma acts_bind {A B} (m : M Collector.scraper A) (k : A -> M Collector.scraper B) :
  acts off m -> (forall a, acts off (k a)) -> acts off (bind m k).
Proof.
  intros Hm Hk. eapply triple_bind; [exact Hm | | |]; simpl; auto.
Qed.

Lemma acts_try_except {A} (body : M Collector.scraper A) h recover :
  acts off body -> (forall e, acts off (recover e)) -> acts off (try_except body h recover).
Proof.
  intros Hb Hr s Hs. specialize (Hb s Hs). unfold try_except.
  destruct (body s) as [[a | e |] s']; simpl in *; auto.
  destruct (catches h e); simpl; auto. apply Hr. exact Hb.
Qed.

Lemma acts_for_each {A} (xs : list A) (body : A -> M Collector.scraper unit) :
  (forall x, acts off (body x)) -> acts off (for_each xs body).
Proof.
  intros Hb. induction xs as [| x xs IH]; simpl; [apply acts_ret |].
  apply acts_bind; auto.
Qed.

Lemma acts_get_obj : acts off get_obj.
Proof. intros s H. exact H. Qed.

Lemma acts_get_disk : acts off get_disk.
Proof. intros s H. exact H. Qed.

Lemma acts_observe A (reading : nat -> A) : acts off (observe reading).
Proof. intros s H. exact H. Qed.

Lemma acts_set_disk f : acts off (set_disk f).
Proof. intros s H. exact H. Qed.

Lemma acts_set_obj f :
  (forall o, Collector.driver (f o) = Collector.driver o) -> acts off (set_obj f).
Proof.
  intros Hf s (H0 & H1 & H2). unfold set_obj, settled, clear. cbn [fst snd obj trace].
  rewrite Hf. auto.
Qed.

Lemma acts_emit ev : (forall b, ev <> EvProbe b) -> acts off (emit ev).
Proof.
  intros Hev s (Hd & Hg & Hb). unfold emit, settled, clear, gated, blocked in *.
  cbn [fst snd trace obj]. rewrite gate_state_snoc.
  destruct (gate_state (trace s)) as [bl vi]. simpl in *. subst.
  destruct ev; simpl; try (repeat split; auto).
  destruct (Hev present eq_refl).
Qed.

Lemma acts_require_driver : acts off Collector.require_driver.
Proof.
  intros s H. unfold Collector.require_driver, bind, get_obj. cbn [fst snd].
  destruct (Collector.driver (obj s)); exact H.
Qed.

End Gate.

Arguments Link.probe : simpl never.
Arguments Report.probe : simpl never.
Arguments Dated.probe : simpl never.
Arguments Collector.recipients : simpl never.
Arguments Collector.smtp_configured : simpl never.
Arguments Py.truthy : simpl never.

Ltac gate_crunch :=
  unfold watched, clear, gated, blocked, link_off, never_off in *;
  cbn [fst snd trace obj Collector.bot_check_selector Collector.driver
       Collector.with_notified Collector.with_last_prompt] in *;
  repeat rewrite gate_state_snoc;
  repeat match goal with
  | |- context [gate_state ?tr] => destruct (gate_state tr) as [bl vi]
  end;
  simpl in *; subst;
  repeat split; auto; try discriminate; try congruence;
  try (intros;
       repeat match goal with
       | H : Py.truthy _ = _ |- _ => rewrite H in *
       | H : Collector.driver _ = _ |- _ => rewrite H in *
       | H : _ && _ = _ |- _ => rewrite H in *
       end;
       simpl in *; congruence).

Lemma link_handles env : handles link_off (Link.handle_bot_challenge env).
Proof.
  intros s (Hdrv & Hg & Hoff). unfold link_off in Hoff.
  unfold Link.handle_bot_challenge, Link.is_bot_challenge_present, Collector.notify_bot_block,
    Collector.send_email_alert, prompt_operator, now, try_except, bind, get_obj, set_obj,
    observe, emit, ret, raise.
  cbn [fst snd obj tick trace disk].
  destruct (Py.truthy (Collector.bot_check_selector (obj s))) eqn:Hsel; cbn.
  2: { split; [repeat split; [exact Hdrv | exact Hg | intros _; apply Hoff; reflexivity] |].
       right. split; [reflexivity | apply Hoff; reflexivity]. }
  rewrite Hdrv. cbn.
  destruct (Link.probe (obj s) (page_at env (tick s))) eqn:Hprobe; cbn.
  2: { destruct (Collector.bot_notified (obj s)); cbn; gate_crunch. }
  destruct (Collector.bot_notified (obj s)); cbn.
  - destruct (_ <? 2000); cbn; gate_crunch.
  - destruct (negb (Collector.smtp_configured _)); cbn.
    + destruct (_ <? 2000); cbn; gate_crunch.
    + destruct (Collector.recipients _); cbn.
      * destruct (_ <? 2000); cbn; gate_crunch.
      * destruct (mail_at env _); cbn; destruct (_ <? 2000); cbn; gate_crunch.
Qed.

Lemma dated_handles env : handles never_off (Dated.handle_bot_challenge env).
Proof.
  intros s (Hdrv & Hg & Hoff). unfold never_off in Hoff.
  unfold Dated.handle_bot_challenge, Dated.is_bot_challenge_present,
    Dated.click_on_bot_challenge, Collector.notify_bot_block,
    Collector.send_email_alert, try_except, bind, get_obj, set_obj,
    observe, emit, ret, raise.
  cbn [fst snd obj tick trace disk]. rewrite Hdrv. cbn.
  destruct (Dated.probe (page_at env (tick s))) eqn:Hprobe; cbn.
  2: { destruct (Collector.bot_notified (obj s)); cbn; gate_crunch. }
  destruct (Collector.bot_notified (obj s)); cbn.
  - rewrite Hdrv; cbn. destruct (Dated.probe (page_at env (S _))); cbn; gate_crunch.
  - destruct (negb (Collector.smtp_configured _)); cbn.
    + rewrite Hdrv; cbn. destruct (Dated.probe (page_at env (S _))); cbn; gate_crunch.
    + destruct (Collector.recipients _); cbn.
      * rewrite Hdrv; cbn. destruct (Dated.probe (page_at env (S _))); cbn; gate_crunch.
      * destruct (mail_at env _); cbn; rewrite Hdrv; cbn;
          destruct (Dated.probe (page_at env (S _))); cbn; gate_crunch.
Qed.

(** The structural steps of a proof that a program respects the gate. *)
Ltac acts_step :=
  lazymatch goal with
  | |- acts _ (bind _ _) => apply acts_bind; [| intros ?]
  | |- acts _ (try_except _ _ _) => apply acts_try_except; [| intros ?]
  | |- acts _ (ret _) => apply acts_ret
  | |- acts _ (raise _) => apply acts_raise
  | |- acts _ out_of_fuel => apply acts_out_of_fuel
  | |- acts _ get_obj => apply acts_get_obj
  | |- acts _ get_disk => apply acts_get_disk
  | |- acts _ (observe _) => apply acts_observe
  | |- acts _ (set_obj _) => apply acts_set_obj; intros ?; reflexivity
  | |- acts _ Collector.require_driver => apply acts_require_driver
  | |- acts _ (set_disk _) => apply acts_set_disk
  | |- acts _ (emit _) => apply acts_emit; intros ?; discriminate
  | |- acts _ (for_each _ _) => apply acts_for_each; intros ?
  | |- acts _ (if ?b then _ else _) => destruct b eqn:?
  | |- acts _ (match ?x with _ => _ end) => destruct x eqn:?
  end.

Create HintDb gate discriminated.

Ltac acts_auto := repeat (first [ solve [eauto with gate] | acts_step ]).

Section GateShared.

Variable off : Collector.scraper -> bool.
Variable env : Env.
Variable handle : M Collector.scraper bool.
Variable state_data : Collector.scraper -> Z -> json.
Hypothesis H_handle : handles off handle.

(** Waiting and reading change nothing about the gate. *)
Lemma watched_passive s t ev :
  (forall b, ev <> EvProbe b) -> is_action ev = false ->
  watched off s -> watched off (log (touch s t) ev).
Proof.
  intros Hp Ha (Hd & Hg & Ho). unfold watched, gated, blocked, log, touch in *.
  cbn [trace obj] in *. rewrite gate_state_snoc.
  destruct (gate_state (trace s)) as [bl vi]. simpl in *.
  destruct ev; simpl in *; try discriminate;
    try (repeat split; [exact Hd | subst; rewrite ?andb_false_r; reflexivity | exact Ho]).
  destruct (Hp present eq_refl).
Qed.

(** [while self._handle_bot_challenge(): pass] is left only after a probe
    that reported no challenge. *)
Lemma gate_await_clear fuel :
  triple (watched off) (Collector.await_clear handle fuel) (settled off).
Proof.
  induction fuel as [| n IH]; intros s Hs; simpl.
  - exact Hs.
  - unfold bind. pose proof (H_handle s Hs) as Hh.
    destruct (handle s) as [r s']. simpl in *.
    destruct Hh as [Hw [-> | [-> Hb]]].
    + apply IH, Hw.
    + simpl. destruct Hw as (Hd & Hg & _). repeat split; assumption.
Qed.

Lemma gate_ensure_table_loaded fuel :
  triple (watched off) (Collector.ensure_table_loaded env handle fuel) (settled off).
Proof.
  induction fuel as [| n IH]; intros s Hs; simpl.
  - exact Hs.
  - unfold Collector.require_driver, bind, get_obj, observe, emit.
    cbn [fst snd obj tick trace disk].
    assert (Hdrv : Collector.driver (obj s) = true) by apply Hs.
    rewrite Hdrv. unfold ret. cbn [fst snd obj tick trace disk].
    pose proof (H_handle _ (watched_passive s (S (tick s)) (EvFind "history-table--content")
                              ltac:(discriminate) eq_refl Hs)) as Hh.
    unfold log, touch in Hh. cbn [obj tick trace disk] in Hh.
    destruct (handle _) as [r s']. simpl in *.
    destruct Hh as [Hw [-> | [-> Hb]]].
    + apply IH, Hw.
    + destruct Hw as (Hd & Hg & _).
      destruct (pg_table _); simpl; repeat split; assumption.
Qed.

Lemma acts_await_clear fuel : acts off (Collector.await_clear handle fuel).
Proof.
  eapply triple_weaken; [apply gate_await_clear | apply clear_watched | auto].
Qed.

Lemma acts_ensure_table_loaded fuel : acts off (Collector.ensure_table_loaded env handle fuel).
Proof.
  eapply triple_weaken; [apply gate_ensure_table_loaded | apply clear_watched | auto].
Qed.

Hint Resolve acts_await_clear acts_ensure_table_loaded : gate.

(** The click on the next-page button is reached from a clear state only. *)
Lemma acts_press_next next fuel : acts off (Collector.press_next env handle next fuel).
Proof. unfold Collector.press_next. acts_auto. Qed.

Hint Resolve acts_press_next : gate.

Lemma gate_go_to_next_page fuel :
  triple (watched off) (Collector.go_to_next_page env handle fuel) (settled off).
Proof.
  unfold Collector.go_to_next_page.
  eapply triple_bind; [apply gate_await_clear | intros [] | auto | auto].
  change (acts off
            (let* _ := Collector.require_driver in
             let* pg := observe (page_at env) in
             let* _ := emit (EvFind "history-pagination__next") in
             Collector.press_next env handle (wait_until (pg_next pg)) fuel)).
  acts_auto.
Qed.

Lemma acts_go_to_next_page fuel : acts off (Collector.go_to_next_page env handle fuel).
Proof.
  eapply triple_weaken; [apply gate_go_to_next_page | apply clear_watched | auto].
Qed.

Lemma acts_get_current_page_number : acts off (Collector.get_current_page_number env).
Proof. unfold Collector.get_current_page_number. acts_auto. Qed.

Lemma acts_save_results final : acts off (Collector.save_results env final).
Proof. unfold Collector.save_results. acts_auto. Qed.

Lemma acts_save_state : acts off (Collector.save_state env state_data).
Proof. unfold Collector.save_state, now. acts_auto. Qed.

Hint Resolve acts_save_results acts_save_state : gate.

Lemma acts_persist_progress : acts off (Collector.persist_progress env state_data).
Proof. unfold Collector.persist_progress. acts_auto. Qed.

Lemma acts_clear_state : acts off (Collector.clear_state env).
Proof. unfold Collector.clear_state. acts_auto. Qed.

Lemma acts_ensure_authenticated : acts off (Collector.ensure_authenticated env).
Proof. unfold Collector.ensure_authenticated. acts_auto. Qed.

End GateShared.

#[export] Hint Resolve acts_await_clear acts_ensure_table_loaded acts_go_to_next_page
  acts_get_current_page_number acts_save_results acts_persist_progress acts_clear_state
  acts_ensure_authenticated link_handles dated_handles : gate.

Lemma acts_add_links off links : acts off (Collector.add_links links).
Proof.
  induction links as [| [href | e] rest IH]; cbn [Collector.add_links]; acts_auto.
Qed.

#[export] Hint Resolve acts_add_links : gate.

Lemma acts_link_collect env : acts link_off (Link.collect_current_page_urls env).
Proof. unfold Link.collect_current_page_urls. acts_auto. Qed.

Lemma acts_seek_page env fuel target left :
  acts link_off (Link.seek_page env fuel target left).
Proof.
  induction left as [| left' IH]; simpl; [apply acts_ret |].
  unfold Link.await_clear, Link.go_to_next_page. acts_auto.
Qed.

Lemma acts_skip_processed_pages env fuel : acts link_off (Link.skip_processed_pages env fuel).
Proof.
  unfold Link.skip_processed_pages. acts_auto; apply acts_seek_page.
Qed.

Lemma acts_scan_pages env fuel : acts link_off (Link.scan_pages env fuel).
Proof.
  induction fuel as [| n IH]; [apply acts_out_of_fuel |].
  pose proof (acts_link_collect env).
  pose proof (acts_await_clear _ _ (link_handles env) (S n)).
  pose proof (acts_go_to_next_page _ env _ (link_handles env) (S n)).
  change (Link.scan_pages env (S n)) with
    (let* _ := Link.await_clear env (S n) in
     let* _ := Link.collect_current_page_urls env in
     let* _ := set_obj (fun o => Collector.with_pages (Collector.pages_processed o + 1) o) in
     let* _ := Link.persist_progress env in
     let* _ := Collector.get_current_page_number env in
     let* more := Link.go_to_next_page env (S n) in
     if more then Link.scan_pages env n else ret tt).
  unfold Link.await_clear, Link.go_to_next_page, Link.persist_progress.
  acts_auto.
Qed.

Lemma acts_link_run env fuel : acts link_off (Link.run env fuel).
Proof.
  unfold Link.run, Link.ensure_table_loaded.
  pose proof (acts_skip_processed_pages env fuel). pose proof (acts_scan_pages env fuel).
  acts_auto.
Qed.

Lemma acts_dated_collect env : acts never_off (Dated.collect_current_page_urls env).
Proof. unfold Dated.collect_current_page_urls, Dated.collect_row. acts_auto. Qed.

Lemma acts_apply_date_filter env fuel date_str :
  acts never_off (Dated.apply_date_filter_for_day env fuel date_str).
Proof. unfold Dated.apply_date_filter_for_day, Dated.ensure_table_loaded. acts_auto. Qed.

Lemma acts_scan_day cal env fuel : acts never_off (Dated.scan_day cal env fuel).
Proof.
  induction fuel as [| n IH]; [apply acts_out_of_fuel |].
  pose proof (acts_dated_collect env).
  pose proof (acts_await_clear _ _ (dated_handles env) (S n)).
  pose proof (acts_go_to_next_page _ env _ (dated_handles env) (S n)).
  change (Dated.scan_day cal env (S n)) with
    (let* _ := Dated.await_clear env (S n) in
     let* _ := Dated.collect_current_page_urls env in
     let* _ := Dated.persist_progress cal env in
     let* more := Dated.go_to_next_page env (S n) in
     if more then Dated.scan_day cal env n else ret tt).
  unfold Dated.await_clear, Dated.go_to_next_page, Dated.persist_progress.
  acts_auto.
Qed.

Lemma acts_scan_days cal env fuel days day : acts never_off (Dated.scan_days cal env fuel days day).
Proof.
  revert day. induction days as [| n IH]; intros day; simpl; [apply acts_out_of_fuel |].
  pose proof (acts_apply_date_filter env fuel). pose proof (acts_scan_day cal env fuel).
  acts_auto.
Qed.

Lemma acts_dated_run cal env fuel : acts never_off (Dated.run cal env fuel).
Proof.
  unfold Dated.run, Dated.ensure_table_loaded.
  pose proof (acts_scan_days cal env fuel fuel). acts_auto.
Qed.

(** With probing on, a handler answers what its first probe read: [True]
    while the challenge shows, and it is the caller that asks again. *)
Lemma link_handle_answers env s :
  link_off (obj s) = false -> Collector.driver (obj s) = true ->
  exists s', Link.handle_bot_challenge env s
             = (Ok (Link.probe (obj s) (page_at env (tick s))), s')
    /\ Collector.bot_check_selector (obj s') = Collector.bot_check_selector (obj s)
    /\ Collector.driver (obj s') = Collector.driver (obj s).
Proof.
  unfold link_off. intros Hsel Hdrv. apply negb_false_iff in Hsel.
  unfold Link.handle_bot_challenge, Link.is_bot_challenge_present, Collector.notify_bot_block,
    Collector.send_email_alert, prompt_operator, now, try_except, bind, get_obj, set_obj,
    observe, emit, ret, raise.
  cbn [fst snd obj tick trace disk]. rewrite Hsel. cbn. rewrite Hdrv. cbn.
  destruct (Link.probe (obj s) (page_at env (tick s))) eqn:Hprobe; cbn.
  2: { destruct (Collector.bot_notified (obj s)); cbn; eexists; repeat split; try exact Hdrv. }
  destruct (Collector.bot_notified (obj s)); cbn.
  - destruct (_ <? 2000); cbn; eexists; repeat split; try exact Hdrv.
  - destruct (negb (Collector.smtp_configured _)); cbn.
    + destruct (_ <? 2000); cbn; eexists; repeat split; try exact Hdrv.
    + destruct (Collector.recipients _); cbn.
      * destruct (_ <? 2000); cbn; eexists; repeat split; try exact Hdrv.
      * destruct (mail_at env _); cbn; destruct (_ <? 2000); cbn; eexists; repeat split; try exact Hdrv.
Qed.

Lemma dated_handle_answers env s :
  Collector.driver (obj s) = true ->
  exists s', Dated.handle_bot_challenge env s
             = (Ok (Dated.probe (page_at env (tick s))), s')
    /\ Collector.driver (obj s') = Collector.driver (obj s).
Proof.
  intros Hdrv.
  unfold Dated.handle_bot_challenge, Dated.is_bot_challenge_present,
    Dated.click_on_bot_challenge, Collector.notify_bot_block,
    Collector.send_email_alert, try_except, bind, get_obj, set_obj,
    observe, emit, ret, raise.
  cbn [fst snd obj tick trace disk]. rewrite Hdrv. cbn.
  destruct (Dated.probe (page_at env (tick s))) eqn:Hprobe; cbn.
  2: { destruct (Collector.bot_notified (obj s)); cbn; eexists; repeat split; try exact Hdrv. }
  destruct (Collector.bot_notified (obj s)); cbn.
  - rewrite Hdrv; cbn. destruct (Dated.probe (page_at env (S _))); cbn;
      eexists; repeat split; try exact Hdrv.
  - destruct (negb (Collector.smtp_configured _)); cbn.
    + rewrite Hdrv; cbn. destruct (Dated.probe (page_at env (S _))); cbn;
        eexists; repeat split; try exact Hdrv.
    + destruct (Collector.recipients _); cbn.
      * rewrite Hdrv; cbn. destruct (Dated.probe (page_at env (S _))); cbn;
          eexists; repeat split; try exact Hdrv.
      * destruct (mail_at env _); cbn; rewrite Hdrv; cbn;
          destruct (Dated.probe (page_at env (S _))); cbn;
          eexists; repeat split; try exact Hdrv.
Qed.

Lemma link_probe_selector o o' :
  Collector.bot_check_selector o = Collector.bot_check_selector o' ->
  Link.probe o = Link.probe o'.
Proof.
  intros H. unfold Link.probe, Link.additional_selectors. rewrite H. reflexivity.
Qed.

(** Under a challenge that never goes away the waiting loop of a collector
    does not end: whatever the fuel, it is used up. *)
Lemma link_await_blocks env fuel s :
  link_off (obj s) = false -> Collector.driver (obj s) = true ->
  always_present (Link.probe (obj s)) env ->
  fst (Link.await_clear env fuel s) = OutOfFuel.
Proof.
  revert s. induction fuel as [| n IH]; intros s Hoff Hon Hp; [reflexivity |].
  unfold Link.await_clear in *. simpl. unfold bind.
  destruct (link_handle_answers env s Hoff Hon) as (s' & -> & Hsel & Hdrv).
  rewrite Hp. apply IH.
  - unfold link_off in *. rewrite Hsel. exact Hoff.
  - rewrite Hdrv. exact Hon.
  - rewrite (link_probe_selector _ _ Hsel). exact Hp.
Qed.

Lemma dated_await_blocks env fuel s :
  Collector.driver (obj s) = true -> always_present Dated.probe env ->
  fst (Dated.await_clear env fuel s) = OutOfFuel.
Proof.
  revert s. induction fuel as [| n IH]; intros s Hon Hp; [reflexivity |].
  unfold Dated.await_clear in *. simpl. unfold bind.
  destruct (dated_handle_answers env s Hon) as (s' & -> & Hdrv).
  rewrite Hp. apply IH; [| exact Hp].
  rewrite Hdrv. exact Hon.
Qed.

Section Round.

Variable env : Env.
Hypothesis H_present : always_present Report.probe env.

Lemma round_weaken {A} (v v' : A -> Prop) m :
  ends_round v m -> (forall a, v a -> v' a) -> ends_round v' m.
Proof.
  intros Hm Hv s Hs. destruct (Hm s Hs) as [Hc Hr]. split; [exact Hc |].
  destruct (fst (m s)); auto.
Qed.

Lemma round_bind {A B} (v : B -> Prop) (m : M Report.scraper A) k :
  ends_round (fun _ => True) m -> (forall a, ends_round v (k a)) -> ends_round v (bind m k).
Proof.
  intros Hm Hk s Hs. specialize (Hm s Hs). unfold bind.
  destruct (m s) as [[a | e |] s']; simpl in *.
  - apply Hk, Hm.
  - exact Hm.
  - exact Hm.
Qed.

Lemma round_ret {A} (v : A -> Prop) a : v a -> ends_round v (ret a).
Proof. intros Hv s Hs. split; [exact Hs | exact Hv]. Qed.

Lemma round_raise {A} (v : A -> Prop) e : ends_round v (raise e).
Proof. intros s Hs. split; [exact Hs | exact I]. Qed.

Lemma round_get_obj : ends_round (fun _ => True) get_obj.
Proof. intros s Hs. split; [exact Hs | exact I]. Qed.

Lemma round_observe A (reading : nat -> A) : ends_round (fun _ => True) (observe reading).
Proof. intros s Hs. split; [exact Hs | exact I]. Qed.

Lemma round_emit ev : ev <> EvProbe false -> ends_round (fun _ => True) (emit ev).
Proof.
  intros Hev s [Hd Hb]. split; [| exact I]. split; [exact Hd |].
  unfold emit, blocked in *. cbn [fst snd trace]. rewrite gate_state_snoc.
  destruct ev as [[|] | | | | | | | | | | | | | | | | | |]; simpl; auto; congruence.
Qed.

Lemma round_set_obj f :
  (forall o, Report.driver (f o) = Report.driver o) -> ends_round (fun _ => True) (set_obj f).
Proof.
  intros Hf s [Hd Hb]. split; [| exact I]. split; [| exact Hb].
  unfold set_obj. cbn [fst snd obj]. rewrite Hf. exact Hd.
Qed.

Lemma round_try_except {A} (v : A -> Prop) body h recover :
  ends_round v body -> (forall e, ends_round v (recover e)) ->
  ends_round v (try_except body h recover).
Proof.
  intros Hb Hr s Hs. specialize (Hb s Hs). unfold try_except.
  destruct (body s) as [[a | e |] s']; simpl in *; auto.
  destruct (catches h e); simpl; auto. apply Hr, Hb.
Qed.

Ltac round_step :=
  lazymatch goal with
  | |- ends_round _ (bind _ _) => apply round_bind; [| intros ?]
  | |- ends_round _ (try_except _ _ _) => apply round_try_except; [| intros ?]
  | |- ends_round _ (ret _) => apply round_ret; auto
  | |- ends_round _ (raise _) => apply round_raise
  | |- ends_round _ get_obj => apply round_get_obj
  | |- ends_round _ (observe _) => apply round_observe
  | |- ends_round _ (set_obj _) => apply round_set_obj; intros []; reflexivity
  | |- ends_round _ (emit _) => apply round_emit; discriminate
  | |- ends_round _ (if ?b then _ else _) => destruct b eqn:?
  | |- ends_round _ (match ?x with _ => _ end) => destruct x eqn:?
  end.

Ltac round_auto := repeat (first [ solve [eauto] | round_step ]).

Lemma round_probe : ends_round (fun b => b = true) (Report.is_bot_challenge_present env).
Proof.
  intros s [Hd Hb]. unfold Report.is_bot_challenge_present, bind, get_obj, observe, emit, ret.
  cbn [fst snd obj tick trace]. rewrite Hd. cbn [negb fst snd obj tick trace].
  rewrite H_present. repeat split; auto.
  unfold blocked. cbn [trace]. rewrite gate_state_snoc. reflexivity.
Qed.

Lemma round_notify : ends_round (fun _ => True) (Report.notify_bot_challenge env).
Proof.
  unfold Report.notify_bot_challenge, Report.send_email_notification. round_auto.
Qed.

Lemma round_rest :
  ends_round (fun b => b = true)
    (let* _ := Report.notify_bot_challenge env in
     let* t := now env in
     let* o := get_obj in
     if t - Report.last_bot_prompt o <? 2000 then ret true
     else
       let* _ := Report.click_on_bot_challenge env in
       let* still := Report.is_bot_challenge_present env in
       if still then
         let* _ := Report.notify_bot_challenge env in
         let* _ := prompt_operator env in
         let* t' := now env in
         let* _ := set_obj (Report.with_last_prompt t') in
         ret true
       else
         let* t' := now env in
         let* _ := set_obj (Report.with_last_prompt t') in
         ret true).
Proof.
  pose proof round_notify. pose proof (round_weaken _ (fun _ => True) _ round_probe).
  unfold Report.click_on_bot_challenge, prompt_operator, now. round_auto.
Qed.

(** The report scraper's handler makes one round and returns, the challenge
    still showing. *)
Lemma report_check_returns (r : Report.run_state) :
  Report.driver (obj r) = true ->
  (fst (Report.check_for_bot_challenge env r) = Ok true
   \/ exists e, fst (Report.check_for_bot_challenge env r) = Raise e)
  /\ blocked (trace (snd (Report.check_for_bot_challenge env r))) = true.
Proof.
  intros Hdrv.
  pose proof (round_rest (MkState (obj r) (S (tick r)) (trace r ++ [EvProbe true]) (disk r)))
    as H.
  match type of H with context [fst (?m _)] => set (rest := m) in * end.
  assert (Heq : Report.check_for_bot_challenge env r
                = rest (MkState (obj r) (S (tick r)) (trace r ++ [EvProbe true]) (disk r))).
  { unfold Report.check_for_bot_challenge, Report.is_bot_challenge_present.
    unfold bind at 1. unfold get_obj at 1. cbn [fst snd obj]. rewrite Hdrv. cbn [negb].
    unfold bind at 1. unfold bind at 1. unfold get_obj at 1. cbn [fst snd obj].
    rewrite Hdrv. cbn [negb].
    unfold bind at 1. unfold observe at 1. cbn [fst snd tick].
    unfold bind at 1. unfold emit at 1. unfold ret at 1. cbn [fst snd obj tick trace disk].
    rewrite H_present. cbn [negb]. reflexivity. }
  rewrite Heq. destruct H as [[_ Hb] Hr].
  - split; [exact Hdrv |]. unfold blocked. cbn [trace]. rewrite gate_state_snoc. reflexivity.
  - split; [| exact Hb].
    destruct (fst _) as [b | e |]; [left; congruence | right; eauto | destruct Hr].
Qed.

End Round.




(** ** C6: one alert per occurrence of the challenge *)

Lemma alert_state_snoc tr ev : alert_state (tr ++ [ev]) = alert_step (alert_state tr) ev.
Proof. unfold alert_state. rewrite fold_left_app. reflexivity. Qed.

Section Rationing.

Variable O : Type.
Variable on flag : O -> bool.

Let I : state O -> Prop := rationed on flag.

Lemma rationed_touch s t : I s -> I (touch s t).
Proof. exact (fun H => H). Qed.

Lemma rationed_disk s f : I s -> I (MkState (obj s) (tick s) (trace s) (f (disk s))).
Proof. exact (fun H => H). Qed.

Lemma rationed_log s ev : is_alert ev = false -> I s -> I (log s ev).
Proof.
  intros Hev (Hon & Hone & Hflag). unfold I, rationed, one_alert_per_occurrence, alerted in *.
  cbn [log obj trace]. rewrite alert_state_snoc.
  destruct (alert_state (trace s)) as [al rp]. simpl in *.
  destruct ev as [[|] | | | | | | | | | | | | | | | | | |]; simpl in *;
    try discriminate; auto.
  repeat split; auto. discriminate.
Qed.

Lemma rationed_update s f :
  (forall o, on (f o) = on o /\ flag (f o) = flag o) -> I s -> I (update s f).
Proof.
  intros Hf (Hon & Hone & Hflag). unfold I, rationed in *. cbn [update obj trace].
  destruct (Hf (obj s)) as [-> ->]. auto.
Qed.

Lemma rationed_observe A (reading : nat -> A) : preserves I (observe reading).
Proof. intros s H. exact H. Qed.

Lemma rationed_set_disk f : preserves I (set_disk f).
Proof. intros s H. exact H. Qed.

Lemma rationed_emit ev : is_alert ev = false -> preserves I (emit ev).
Proof. intros Hev s H. apply rationed_log; assumption. Qed.

Lemma rationed_set_obj f :
  (forall o, on (f o) = on o /\ flag (f o) = flag o) -> preserves I (set_obj f).
Proof. intros Hf s H. apply rationed_update; assumption. Qed.

End Rationing.

Ltac ration_crunch :=
  unfold rationed, one_alert_per_occurrence, alerted in *;
  cbn [fst snd trace obj tick disk Collector.driver Collector.bot_notified
       Collector.with_notified Collector.with_last_prompt
       Report.bot_notification_sent Report.with_notified Report.with_last_prompt] in *;
  repeat rewrite alert_state_snoc;
  repeat match goal with
  | |- context [alert_state ?tr] => destruct (alert_state tr) as [[|] [|]]
  end;
  simpl in *; intuition congruence.

(** [_handle_bot_challenge] of the date-bucket version: the alert goes out
    only with the flag clear, and the flag is cleared only when the entry
    probe reported no challenge. *)
Lemma rationed_dated_handle env :
  preserves (rationed Collector.driver Collector.bot_notified) (Dated.handle_bot_challenge env).
Proof.
  intros s Hs. assert (Hdrv : Collector.driver (obj s) = true) by apply Hs.
  unfold Dated.handle_bot_challenge, Dated.is_bot_challenge_present,
    Dated.click_on_bot_challenge, Collector.notify_bot_block,
    Collector.send_email_alert, try_except, bind, get_obj, set_obj,
    observe, emit, ret, raise.
  cbn [fst snd obj tick trace disk]. rewrite Hdrv. cbn.
  destruct (Dated.probe (page_at env (tick s))) eqn:Hprobe; cbn.
  2: { destruct (Collector.bot_notified (obj s)) eqn:Hflag; cbn; ration_crunch. }
  destruct (Collector.bot_notified (obj s)) eqn:Hflag; cbn.
  - rewrite Hdrv; cbn. destruct (Dated.probe (page_at env (S _))); cbn; ration_crunch.
  - destruct (negb (Collector.smtp_configured _)); cbn.
    + rewrite Hdrv; cbn. destruct (Dated.probe (page_at env (S _))); cbn; ration_crunch.
    + destruct (Collector.recipients _); cbn.
      * rewrite Hdrv; cbn. destruct (Dated.probe (page_at env (S _))); cbn; ration_crunch.
      * destruct (mail_at env _); cbn; rewrite Hdrv; cbn;
          destruct (Dated.probe (page_at env (S _))); cbn; ration_crunch.
Qed.

Lemma rationed_link_handle env :
  preserves (rationed Collector.driver Collector.bot_notified) (Link.handle_bot_challenge env).
Proof.
  intros s Hs. assert (Hdrv : Collector.driver (obj s) = true) by apply Hs.
  unfold Link.handle_bot_challenge, Link.is_bot_challenge_present, Collector.notify_bot_block,
    Collector.send_email_alert, prompt_operator, now, try_except, bind, get_obj, set_obj,
    observe, emit, ret, raise.
  cbn [fst snd obj tick trace disk].
  destruct (Py.truthy (Collector.bot_check_selector (obj s))) eqn:Hsel; cbn; [| exact Hs].
  rewrite Hdrv. cbn.
  destruct (Link.probe (obj s) (page_at env (tick s))) eqn:Hprobe; cbn.
  2: { destruct (Collector.bot_notified (obj s)) eqn:Hflag; cbn; ration_crunch. }
  destruct (Collector.bot_notified (obj s)) eqn:Hflag; cbn.
  - destruct (_ <? 2000); cbn; ration_crunch.
  - destruct (negb (Collector.smtp_configured _)); cbn.
    + destruct (_ <? 2000); cbn; ration_crunch.
    + destruct (Collector.recipients _); cbn.
      * destruct (_ <? 2000); cbn; ration_crunch.
      * destruct (mail_at env _); cbn; destruct (_ <? 2000); cbn; ration_crunch.
Qed.

(** Whole runs of the collectors keep an invariant that their challenge
    handlers keep, that does not look at the clock or the disk, that only
    events of the challenge protocol can break and that depends on the
    scraper through its [settings] only. *)
Section RunFrame.

Variable env : Env.
Variable cal : Calendar.
Variable I : Collector.run_state -> Prop.

Hypothesis I_touch : forall s t, I s -> I (touch s t).
Hypothesis I_log : forall s ev, is_protocol ev = false -> I s -> I (log s ev).
Hypothesis I_disk : forall s f, I s -> I (MkState (obj s) (tick s) (trace s) (f (disk s))).
Hypothesis I_update :
  forall s f, (forall o, settings (f o) = settings o) -> I s -> I (update s f).

Lemma frame_observe A (reading : nat -> A) : preserves I (observe reading).
Proof. apply preserves_observe, I_touch. Qed.

Lemma frame_set_disk f : preserves I (set_disk f).
Proof. intros s. apply I_disk. Qed.

Lemma frame_emit ev : is_protocol ev = false -> preserves I (emit ev).
Proof. intros Hev. apply preserves_emit. intros s. apply I_log, Hev. Qed.

Lemma frame_set_obj f : (forall o, settings (f o) = settings o) -> preserves I (set_obj f).
Proof. intros Hf. apply preserves_set_obj. intros s. apply I_update, Hf. Qed.

Hint Resolve frame_observe frame_set_disk : run_inv.
Hint Extern 1 (preserves _ (emit _)) => apply frame_emit; reflexivity : run_inv.
Hint Extern 1 (preserves _ (set_obj _)) => apply frame_set_obj; intros ?; reflexivity : run_inv.

Lemma frame_page_number : preserves I (Collector.get_current_page_number env).
Proof. unfold Collector.get_current_page_number. preserves_auto. Qed.

Lemma frame_save_results final : preserves I (Collector.save_results env final).
Proof. unfold Collector.save_results. preserves_auto. Qed.

Lemma frame_clear_state : preserves I (Collector.clear_state env).
Proof. unfold Collector.clear_state. preserves_auto. Qed.

Lemma frame_ensure_authenticated : preserves I (Collector.ensure_authenticated env).
Proof. unfold Collector.ensure_authenticated. preserves_auto. Qed.

Lemma frame_add_links links : preserves I (Collector.add_links links).
Proof.
  induction links as [| [href | e] rest IH]; cbn [Collector.add_links]; preserves_auto.
Qed.

Hint Resolve frame_add_links : run_inv.

Lemma frame_link_collect : preserves I (Link.collect_current_page_urls env).
Proof. unfold Link.collect_current_page_urls. preserves_auto. Qed.

Lemma frame_dated_collect : preserves I (Dated.collect_current_page_urls env).
Proof. unfold Dated.collect_current_page_urls, Dated.collect_row. preserves_auto. Qed.

Hint Resolve frame_page_number frame_save_results frame_clear_state
  frame_ensure_authenticated frame_link_collect frame_dated_collect : run_inv.

Section Handler.

Variable handle : M Collector.scraper bool.
Variable state_data : Collector.scraper -> Z -> json.
Hypothesis I_handle : preserves I handle.

Hint Resolve I_handle : run_inv.

Lemma frame_await_clear fuel : preserves I (Collector.await_clear handle fuel).
Proof. induction fuel as [| n IH]; simpl; preserves_auto. Qed.

Lemma frame_ensure_table_loaded fuel :
  preserves I (Collector.ensure_table_loaded env handle fuel).
Proof. induction fuel as [| n IH]; simpl; preserves_auto. Qed.

Hint Resolve frame_await_clear frame_ensure_table_loaded : run_inv.

Lemma frame_go_to_next_page fuel : preserves I (Collector.go_to_next_page env handle fuel).
Proof. unfold Collector.go_to_next_page, Collector.press_next. preserves_auto. Qed.

Lemma frame_persist_progress : preserves I (Collector.persist_progress env state_data).
Proof.
  unfold Collector.persist_progress, Collector.save_state, now. preserves_auto.
Qed.

End Handler.

Hint Resolve frame_await_clear frame_ensure_table_loaded frame_go_to_next_page
  frame_persist_progress : run_inv.

Section LinkRun.

Hypothesis I_link : preserves I (Link.handle_bot_challenge env).

Hint Resolve I_link : run_inv.

Lemma frame_seek_page fuel target left : preserves I (Link.seek_page env fuel target left).
Proof.
  induction left as [| n IH]; simpl;
    unfold Link.await_clear, Link.go_to_next_page; preserves_auto.
Qed.

Hint Resolve frame_seek_page : run_inv.

Lemma frame_skip_processed_pages fuel : preserves I (Link.skip_processed_pages env fuel).
Proof. unfold Link.skip_processed_pages. preserves_auto. Qed.

Lemma frame_scan_pages fuel : preserves I (Link.scan_pages env fuel).
Proof.
  induction fuel as [| n IH]; [apply preserves_out_of_fuel |].
  cbn [Link.scan_pages].
  unfold Link.await_clear, Link.go_to_next_page, Link.persist_progress; preserves_auto.
Qed.

Hint Resolve frame_skip_processed_pages frame_scan_pages : run_inv.

Lemma frame_link_run fuel : preserves I (Link.run env fuel).
Proof. unfold Link.run, Link.ensure_table_loaded. preserves_auto. Qed.

End LinkRun.

Section DatedRun.

Hypothesis I_dated : preserves I (Dated.handle_bot_challenge env).

Hint Resolve I_dated : run_inv.

Lemma frame_apply_date_filter fuel day :
  preserves I (Dated.apply_date_filter_for_day env fuel day).
Proof. unfold Dated.apply_date_filter_for_day, Dated.ensure_table_loaded. preserves_auto. Qed.

Lemma frame_scan_day fuel : preserves I (Dated.scan_day cal env fuel).
Proof.
  induction fuel as [| n IH]; [apply preserves_out_of_fuel |].
  cbn [Dated.scan_day].
  unfold Dated.await_clear, Dated.go_to_next_page, Dated.persist_progress; preserves_auto.
Qed.

Hint Resolve frame_apply_date_filter frame_scan_day : run_inv.

Lemma frame_scan_days fuel days day : preserves I (Dated.scan_days cal env fuel days day).
Proof.
  revert day. induction days as [| n IH]; intros day; [apply preserves_out_of_fuel |].
  cbn [Dated.scan_days]. preserves_auto.
Qed.

Hint Resolve frame_scan_days : run_inv.

Lemma frame_dated_run fuel : preserves I (Dated.run cal env fuel).
Proof. unfold Dated.run, Dated.ensure_table_loaded. preserves_auto. Qed.

End DatedRun.

End RunFrame.

Section ReportRationing.

Variable env : Env.

Let I : Report.run_state -> Prop := rationed (fun _ => true) Report.bot_notification_sent.

(** [_notify_bot_challenge]: the flag is set in the [finally] of the
    attempt, whatever became of the message. *)
Lemma rationed_report_notify : preserves I (Report.notify_bot_challenge env).
Proof.
  intros s Hs. unfold I in *.
  unfold Report.notify_bot_challenge, Report.send_email_notification, try_except, bind,
    get_obj, set_obj, observe, emit, ret, raise.
  cbn [fst snd obj tick trace disk].
  destruct (Report.bot_notification_sent (obj s)) eqn:Hflag; cbn; [exact Hs |].
  destruct (negb (Report.smtp_configured (obj s))) eqn:Hsmtp; cbn; [exact Hs |].
  destruct (pg_get (page_at env (tick s))); cbn; [exact Hs |].
  rewrite Hsmtp. cbn.
  destruct (Report.recipients _); cbn; [ration_crunch |].
  destruct (mail_at env _); cbn; ration_crunch.
Qed.

Lemma rationed_report_probe :
  triple (fun s => I s /\ Report.driver (obj s) = true)
    (Report.is_bot_challenge_present env)
    (fun r s' => I s' /\ exists b, r = Ok b /\ (b = false -> alerted (trace s') = false)).
Proof.
  intros s [Hs Hdrv]. unfold I in *.
  unfold Report.is_bot_challenge_present, bind, get_obj, observe, emit, ret.
  cbn [fst snd obj tick trace disk]. rewrite Hdrv. cbn.
  destruct (Report.probe (page_at env (tick s))); cbn.
  - split; [ration_crunch | exists true; split; [reflexivity | discriminate]].
  - split; [ration_crunch | exists false; split; [reflexivity | intros _]].
    unfold alerted. rewrite alert_state_snoc. reflexivity.
Qed.

Hint Resolve rationed_report_notify : run_inv.
Hint Resolve rationed_observe rationed_set_disk : run_inv.
Hint Extern 1 (preserves _ (emit _)) => apply rationed_emit; reflexivity : run_inv.
Hint Extern 1 (preserves _ (set_obj _)) =>
  apply rationed_set_obj; intros ?; split; reflexivity : run_inv.

Lemma rationed_report_probe_again : preserves I (Report.is_bot_challenge_present env).
Proof.
  unfold Report.is_bot_challenge_present. preserves_auto.
Qed.

Hint Resolve rationed_report_probe_again : run_inv.

Lemma rationed_report_detect :
  triple (fun s => I s /\ Report.driver (obj s) = true)
    (let* present := Report.is_bot_challenge_present env in
     if negb present then
       let* o := get_obj in
       let* _ := (if Report.bot_notification_sent o
                  then set_obj (Report.with_notified false) else ret tt) in
       ret false
     else
       let* _ := Report.notify_bot_challenge env in
       let* t := now env in
       let* o := get_obj in
       if t - Report.last_bot_prompt o <? 2000 then ret true
       else
         let* _ := Report.click_on_bot_challenge env in
         let* still := Report.is_bot_challenge_present env in
         if still then
           let* _ := Report.notify_bot_challenge env in
           let* _ := prompt_operator env in
           let* t' := now env in
           let* _ := set_obj (Report.with_last_prompt t') in
           ret true
         else
           let* t' := now env in
           let* _ := set_obj (Report.with_last_prompt t') in
           ret true)
    (fun _ s' => I s').
Proof.
  eapply triple_bind; [apply rationed_report_probe | intros [|] | |].
  - eapply triple_weaken with (P' := I) (Q' := fun _ s' => I s'); [| intros s [H _]; exact H | auto].
    cbn [negb]. unfold Report.click_on_bot_challenge, prompt_operator, now.
    change (triple I ?m (fun _ s' => I s')) with (preserves I m).
    preserves_auto.
  - intros s (Hs & b & [= <-] & Hal). specialize (Hal eq_refl). unfold I in *.
    unfold bind, get_obj, set_obj, ret. cbn [negb fst snd obj].
    destruct (Report.bot_notification_sent (obj s)) eqn:Hflag; cbn; ration_crunch.
  - intros e s [Hs _]. exact Hs.
  - intros s [Hs _]. exact Hs.
Qed.

(** [_check_for_bot_challenge]: the flag is cleared only after the entry
    probe reported no challenge. *)
Lemma rationed_report_check : preserves I (Report.check_for_bot_challenge env).
Proof.
  unfold Report.check_for_bot_challenge.
  intros s Hs. unfold bind at 1, get_obj at 1. cbn [fst snd obj].
  destruct (Report.driver (obj s)) eqn:Hdrv; cbn [negb]; [| exact Hs].
  exact (rationed_report_detect s (conj Hs Hdrv)).
Qed.

Lemma rationed_interaction s ev : is_interaction ev = true -> I s -> I (log s ev).
Proof. intros Hev. apply rationed_log. destruct ev; try discriminate; reflexivity. Qed.

Hint Resolve rationed_touch rationed_interaction rationed_report_check : core.

Lemma rationed_write_report task_id report :
  preserves I (Report.write_report env task_id report).
Proof. unfold Report.write_report. preserves_auto. Qed.

Lemma rationed_scrape_report u : preserves I (Report.scrape_report env u).
Proof.
  unfold Report.scrape_report.
  destruct (Report.extract_task_id u) as [task_id |]; [| apply preserves_ret].
  apply preserves_try_except; [| intros e; apply preserves_ret].
  apply preserves_bind; [apply ReportFacts.keeps_look; apply rationed_touch | intros pg].
  apply preserves_bind;
    [apply ReportFacts.keeps_interaction; [apply rationed_interaction | reflexivity]
    | intros _].
  destruct (pg_get pg); [apply preserves_raise |].
  apply preserves_bind;
    [apply ReportFacts.keeps_handle_login; [apply rationed_touch | apply rationed_interaction]
    | intros _].
  apply preserves_bind; [apply rationed_report_check | intros _].
  assert (Hload : preserves I (Report.wait_for_page_load env)).
  { apply ReportFacts.keeps_wait_for_page_load;
      [apply rationed_touch | apply rationed_interaction | apply rationed_report_check]. }
  apply preserves_bind; [exact Hload | intros loaded].
  apply preserves_bind; [destruct loaded; [apply preserves_ret | exact Hload] | intros loaded'].
  destruct loaded'; simpl; [| apply preserves_ret].
  do 4 (apply preserves_bind;
        [apply ReportFacts.keeps_extractor; [apply rationed_touch | apply rationed_interaction]
        | intros ?]).
  apply preserves_bind;
    [apply ReportFacts.keeps_scrape_deep_analysis;
       [apply rationed_touch | apply rationed_interaction | apply rationed_report_check]
    | intros ?].
  apply preserves_bind;
    [apply ReportFacts.keeps_download_pcap;
       [apply rationed_touch | apply rationed_interaction | apply rationed_report_check]
    | intros pcap].
  apply rationed_write_report.
Qed.

Lemma rationed_process_url u : preserves I (Report.process_url env u).
Proof.
  pose proof (rationed_scrape_report u).
  unfold Report.process_url, Report.save_checkpoint. preserves_auto.
Qed.

Lemma rationed_report_run urls : preserves I (Report.run env urls).
Proof.
  apply ReportFacts.keeps_run.
  - apply rationed_touch.
  - intros s b Hs. exact Hs.
  - apply ReportFacts.keeps_initial_login;
      [apply rationed_touch | apply rationed_interaction].
  - apply rationed_process_url.
Qed.

End ReportRationing.

Arguments count_events : simpl never.

(** What one call of the date-bucket handler does about the alert: it
    answers the entry probe, attempts the alert exactly when that probe
    reported the challenge with the flag clear and the mail settings
    complete, and leaves the flag equal to the entry probe; the probe after
    the recovery click changes none of this, and no failure of the mail
    reaches the caller. *)
Lemma dated_handle_effect env s :
  Collector.driver (obj s) = true ->
  fst (Dated.handle_bot_challenge env s) = Ok (Dated.probe (page_at env (tick s)))
  /\ alerts (trace (snd (Dated.handle_bot_challenge env s)))
     = (alerts (trace s)
        + (if Dated.probe (page_at env (tick s)) && negb (Collector.bot_notified (obj s))
              && Collector.smtp_configured (obj s)
           then 1 else 0))%nat
  /\ Collector.bot_notified (obj (snd (Dated.handle_bot_challenge env s)))
     = Dated.probe (page_at env (tick s)).
Proof.
  intros Hdrv.
  unfold Dated.handle_bot_challenge, Dated.is_bot_challenge_present,
    Dated.click_on_bot_challenge, Collector.notify_bot_block,
    Collector.send_email_alert, try_except, bind, get_obj, set_obj,
    observe, emit, ret, raise, alerts.
  cbn [fst snd obj tick trace disk]. rewrite Hdrv. cbn.
  destruct (Dated.probe (page_at env (tick s))) eqn:Hprobe; cbn.
  2: { destruct (Collector.bot_notified (obj s)) eqn:Hflag; cbn;
         rewrite ?count_events_snoc; cbn; repeat split; auto; lia. }
  destruct (Collector.bot_notified (obj s)) eqn:Hflag; cbn.
  - rewrite Hdrv; cbn. destruct (Dated.probe (page_at env (S _))); cbn;
      rewrite ?count_events_snoc; cbn; repeat split; auto; lia.
  - destruct (Collector.smtp_configured _); cbn.
    + destruct (Collector.recipients _); cbn.
      * rewrite Hdrv; cbn. destruct (Dated.probe (page_at env (S _))); cbn;
          rewrite ?count_events_snoc; cbn; repeat split; auto; lia.
      * destruct (mail_at env _); cbn; rewrite Hdrv; cbn;
          destruct (Dated.probe (page_at env (S _))); cbn;
          rewrite ?count_events_snoc; cbn; repeat split; auto; lia.
    + rewrite Hdrv; cbn. destruct (Dated.probe (page_at env (S _))); cbn;
        rewrite ?count_events_snoc; cbn; repeat split; auto; lia.
Qed.

(** [_notify_bot_challenge] of the report scraper: a failure to deliver the
    message does not leave the function; only reading the current URL for
    the body of the message can. *)
Lemma report_notify_swallows env (r : Report.run_state) :
  pg_get (page_at env (tick r)) = None ->
  fst (Report.notify_bot_challenge env r) = Ok tt.
Proof.
  intros Hurl.
  unfold Report.notify_bot_challenge, Report.send_email_notification, try_except, bind,
    get_obj, set_obj, observe, emit, ret, raise.
  cbn [fst snd obj tick trace disk].
  destruct (Report.bot_notification_sent (obj r)); cbn; [reflexivity |].
  destruct (negb (Report.smtp_configured (obj r))) eqn:Hsmtp; cbn; [reflexivity |].
  rewrite Hurl. cbn. rewrite Hsmtp. cbn.
  destruct (Report.recipients _); cbn; [reflexivity |].
  destruct (mail_at env _); reflexivity.
Qed.




(** ** C9: letter case in the probes *)

(** On a page whose CSS queries find nothing, the selectors configured in
    addition to the built-in ones find nothing. *)
Lemma additional_selectors_miss pg o :
  (forall sel, pg_css pg sel = Some []) ->
  selectors_hit pg (Link.additional_selectors o) = false.
Proof.
  intros Hcss. unfold Link.additional_selectors.
  destruct (Py.truthy (Collector.bot_check_selector o)); [| reflexivity].
  unfold selectors_hit.
  induction (List.filter _ _) as [| sel rest IH]; [reflexivity |].
  cbn [map existsb find_elements]. rewrite Hcss. exact IH.
Qed.

(** C9: the probe of the page-counter version compares letter by letter.
    Whatever selectors are configured, a page that shows the indicator
    phrase as the code spells it is reported, and the same page with the
    phrase in capitals or in small letters is not; the probe of the report
    scraper, which the date-bucket version shares, lowers the text first and
    reports its notice in all three spellings. *)
Theorem link_probe_is_case_sensitive (o : Collector.scraper) :
  (Link.probe o (Fixture.with_elements [Fixture.notice "Suspicious activity detected"]
                   Fixture.quiet_page) = true
   /\ Link.probe o (Fixture.with_elements [Fixture.notice "SUSPICIOUS ACTIVITY DETECTED"]
                      Fixture.quiet_page) = false
   /\ Link.probe o (Fixture.with_elements [Fixture.notice "suspicious activity detected"]
                      Fixture.quiet_page) = false)
  /\ (Report.probe (Fixture.with_elements
                      [Fixture.notice "We noticed a large number of requests"]
                      Fixture.quiet_page) = true
      /\ Report.probe (Fixture.with_elements
                         [Fixture.notice "WE NOTICED A LARGE NUMBER OF REQUESTS"]
                         Fixture.quiet_page) = true
      /\ Dated.probe (Fixture.with_elements
                        [Fixture.notice "we noticed a large number of requests"]
                        Fixture.quiet_page) = true).
Proof.
  split; [| repeat split; vm_compute; reflexivity].
  assert (Hmiss : forall pg, (forall sel, pg_css pg sel = Some []) ->
            Link.probe o pg
            = selectors_hit pg [ByXPath Link.xp_suspicious; ByCss css_challenge; ByCss css_frames]).
  { intros pg Hcss. unfold Link.probe, selectors_hit. rewrite existsb_app.
    fold (selectors_hit pg (Link.additional_selectors o)).
    rewrite additional_selectors_miss by exact Hcss. apply orb_false_r. }
  repeat split; rewrite Hmiss by reflexivity; vm_compute; reflexivity.
Qed.

(** The probes that normalise: on two snapshots whose elements agree up to
    letter case the case-normalising locator answers the same. *)

Lemma translate_lower_char (c : ascii) (t : string) :
  XPath.translate (String c t) upper_letters lower_letters
  = String (Py.lower_char c) (XPath.translate t upper_letters lower_letters).
Proof.
  destruct c as [[|] [|] [|] [|] [|] [|] [|] [|]]; reflexivity.
Qed.

Lemma translate_lower (s : string) :
  XPath.translate s upper_letters lower_letters = Py.lower s.
Proof.
  induction s as [| c t IH]; [reflexivity |].
  rewrite translate_lower_char, IH. reflexivity.
Qed.

Lemma is_space_lower_char (c : ascii) :
  XPath.is_space (Py.lower_char c) = XPath.is_space c.
Proof.
  destruct c as [[|] [|] [|] [|] [|] [|] [|] [|]]; reflexivity.
Qed.

Lemma lower_normalize_from (s : string) (started gap : bool) :
  Py.lower (XPath.normalize_from s started gap)
  = XPath.normalize_from (Py.lower s) started gap.
Proof.
  revert started gap. induction s as [| c t IH]; intros started gap; [reflexivity |].
  cbn [XPath.normalize_from Py.lower]. rewrite is_space_lower_char.
  destruct (XPath.is_space c) eqn:Hc; [apply IH |].
  destruct (started && gap); cbn [Py.lower]; rewrite IH; [| reflexivity].
  reflexivity.
Qed.

Lemma notice_locator_lower (el : element) :
  XPath.eval el Report.xp_notice_any_case
  = Py.contains "we noticed" (XPath.normalize_space (Py.lower (el_string_value el)))
    && Py.contains "requests" (XPath.normalize_space (Py.lower (el_string_value el))).
Proof.
  unfold Report.xp_notice_any_case, Report.xp_lowered.
  cbn [XPath.eval XPath.eval_str]. rewrite translate_lower.
  unfold XPath.normalize_space. rewrite lower_normalize_from. reflexivity.
Qed.

Lemma notice_locator_same (el el' : element) :
  same_up_to_case el el' ->
  XPath.eval el Report.xp_notice_any_case = XPath.eval el' Report.xp_notice_any_case.
Proof.
  intros [_ Hcase]. rewrite !notice_locator_lower. unfold same_letters in Hcase.
  rewrite Hcase. reflexivity.
Qed.

Lemma any_displayed_same (els els' : list element) :
  Forall2 same_up_to_case els els' ->
  any_displayed (filter (fun el => XPath.eval el Report.xp_notice_any_case = true) els)
  = any_displayed (filter (fun el => XPath.eval el Report.xp_notice_any_case = true) els').
Proof.
  induction 1 as [| el el' els els' Hel Hels IH]; [reflexivity |].
  rewrite !filter_cons. rewrite <- (notice_locator_same el el' Hel).
  destruct (decide (XPath.eval el Report.xp_notice_any_case = true)) as [Hhit | Hmiss].
  - destruct (decide (XPath.eval el Report.xp_notice_any_case = true)); [| contradiction].
    cbn [any_displayed]. destruct Hel as [<- _].
    destruct (el_displayed el) as [[|] |]; [reflexivity | exact IH | reflexivity].
  - destruct (decide (XPath.eval el Report.xp_notice_any_case = true)); [contradiction |].
    exact IH.
Qed.

(** The case-normalising locator of the probe of the report scraper, which
    the date-bucket version shares, does not depend on the case of letters:
    two snapshots whose elements agree up to letter case get the same answer
    from it, and a notice it reports in one casing makes the probe report
    the page in every casing. *)
Theorem notice_locator_ignores_case (pg pg' : page) (els els' : list element) :
  pg_elements pg = Some els ->
  pg_elements pg' = Some els' ->
  Forall2 same_up_to_case els els' ->
  notice_in_any_case pg = notice_in_any_case pg'
  /\ (notice_in_any_case pg = Some (Some true) ->
      Report.probe pg' = true /\ Dated.probe pg' = true).
Proof.
  intros Hpg Hpg' Hsame.
  assert (Heq : notice_in_any_case pg = notice_in_any_case pg').
  { unfold notice_in_any_case, find_elements. rewrite Hpg, Hpg'. cbn [fmap option_fmap option_map].
    f_equal. apply any_displayed_same, Hsame. }
  split; [exact Heq |].
  intros Hhit. rewrite Heq in Hhit. unfold Dated.probe, Report.probe.
  fold (notice_in_any_case pg'). rewrite Hhit. split; reflexivity.
Qed.

Lemma notice_locator_ignores_case_witness :
  Report.probe (Fixture.with_elements [Fixture.notice "WE NOTICED a Large number of REQUESTS"]
                  Fixture.quiet_page) = true.
Proof.
  refine (proj1 (proj2 (notice_locator_ignores_case
            Fixture.challenge_page
            (Fixture.with_elements [Fixture.notice "WE NOTICED a Large number of REQUESTS"]
               Fixture.quiet_page)
            [Fixture.notice "We noticed a large number of requests"]
            [Fixture.notice "WE NOTICED a Large number of REQUESTS"]
            eq_refl eq_refl _) eq_refl)).
  repeat constructor; reflexivity.
Defined.

(** * More of the code: properties read off the source *)

(** ** [create_subset] and [create_batches] *)

Section SheetFacts.

Context {A : Type}.
Implicit Types (df : list A) (batch_size : Z).

(** The sheet the [i]-th round of [create_batches] writes. *)
Let batch_of df batch_size (i : nat) : string * list A :=
  (Sheets.batch_name i,
   Sheets.iloc (Z.of_nat i * batch_size)
     (Z.min (Z.of_nat i * batch_size + batch_size) (Z.of_nat (length df))) df).

(** The loop writes the sheets of the indices in order, up to the first
    write that fails. *)
Lemma write_batches_spec df batch_size write_ok indices written :
  exists k,
    (k <= length indices)%nat
    /\ snd (Sheets.write_batches df batch_size (Z.of_nat (length df)) write_ok indices written)
       = (written ++ map (batch_of df batch_size) (take k indices))%list
    /\ (fst (Sheets.write_batches df batch_size (Z.of_nat (length df)) write_ok indices written)
        = true <-> k = length indices)
    /\ (forall i, i ∈ take k indices -> write_ok i = true)
    /\ (forall i, indices !! k = Some i -> write_ok i = false).
Proof.
  revert written. induction indices as [| i rest IH]; intros written.
  - exists 0%nat. simpl. rewrite app_nil_r. repeat split; auto; try lia.
    + intros i Hi. inversion Hi.
    + intros i Hi. discriminate.
  - cbn [Sheets.write_batches]. destruct (write_ok i) eqn:Hi.
    + destruct (IH (written ++ [batch_of df batch_size i])%list)
        as (k & Hk & Hsnd & Hfst & Hok & Hfail).
      exists (S k). cbn [length take map]. repeat split.
      * lia.
      * unfold batch_of in *. rewrite Hsnd, <- app_assoc. reflexivity.
      * intros H. apply Hfst in H. lia.
      * intros H. apply Hfst. lia.
      * intros j Hj. apply elem_of_cons in Hj as [-> | Hj]; auto.
      * intros j Hj. apply Hfail. exact Hj.
    + exists 0%nat. simpl. rewrite app_nil_r. repeat split; try lia; try discriminate.
      * intros j Hj. inversion Hj.
      * intros j [= <-]. exact Hi.
Qed.

(** With a positive batch size the [i]-th sheet holds the rows from
    [i * batch_size] on, [batch_size] of them or what is left. *)
Lemma batch_rows df batch_size (i : nat) :
  0 < batch_size ->
  Z.of_nat i * batch_size <= Z.of_nat (length df) ->
  snd (batch_of df batch_size i)
  = take (Z.to_nat batch_size) (drop (i * Z.to_nat batch_size) df).
Proof.
  intros Hpos Hstart. unfold batch_of, Sheets.iloc, Sheets.slice_bound. cbn [snd].
  set (len := Z.of_nat (length df)) in *.
  assert (H0 : 0 <= Z.of_nat i * batch_size) by lia.
  destruct (Z.of_nat i * batch_size <? 0) eqn:E1; [apply Z.ltb_lt in E1; lia |].
  destruct (Z.min (Z.of_nat i * batch_size + batch_size) len <? 0) eqn:E2;
    [apply Z.ltb_lt in E2; lia |].
  rewrite (Z.min_l (Z.of_nat i * batch_size) len) by lia.
  rewrite (Z.min_l (Z.min _ _) len) by lia.
  replace (Z.to_nat (Z.of_nat i * batch_size)) with (i * Z.to_nat batch_size)%nat by lia.
  destruct (Z.le_gt_cases (Z.of_nat i * batch_size + batch_size) len) as [Hin | Hout].
  - rewrite Z.min_l by lia. f_equal. lia.
  - rewrite Z.min_r by lia.
    rewrite (take_ge _ (Z.to_nat batch_size)) by (rewrite length_drop; lia).
    apply take_ge. rewrite length_drop. lia.
Qed.

(** The first [k] sheets together are the first [k * batch_size] rows. *)
Lemma batches_concat df batch_size (k : nat) :
  0 < batch_size ->
  (forall i, (i < k)%nat -> Z.of_nat i * batch_size <= Z.of_nat (length df)) ->
  concat (map snd (map (batch_of df batch_size) (seq 0 k)))
  = take (k * Z.to_nat batch_size) df.
Proof.
  intros Hpos. induction k as [| k IH]; intros Hk; [reflexivity |].
  rewrite seq_S, !map_app, concat_app, IH by (intros; apply Hk; lia).
  cbn [map concat plus]. rewrite app_nil_r, batch_rows by (auto; apply Hk; lia).
  rewrite take_take_drop. f_equal. lia.
Qed.

(** The number of rounds: [(total + batch_size - 1) // batch_size]. *)
Lemma rounds_cover df batch_size :
  0 < batch_size ->
  let rounds := (Z.of_nat (length df) + batch_size - 1) / batch_size in
  0 <= rounds
  /\ Z.of_nat (length df) <= rounds * batch_size
  /\ (0 < rounds -> (rounds - 1) * batch_size < Z.of_nat (length df)).
Proof.
  intros Hpos rounds. subst rounds.
  pose proof (Z.div_mod (Z.of_nat (length df) + batch_size - 1) batch_size ltac:(lia)) as Hdm.
  pose proof (Z.mod_pos_bound (Z.of_nat (length df) + batch_size - 1) batch_size Hpos) as Hm.
  assert (0 <= (Z.of_nat (length df) + batch_size - 1) / batch_size)
    by (apply Z.div_pos; lia).
  nia.
Qed.

(** [create_batches] with a positive batch size, whichever writes fail: what
    it leaves in the output directory are the first sheets of the partition
    of the input in order, [batch_size] rows each and never an empty one,
    nothing twice and nothing out of order; when all writes succeed they
    are all of the input, [ceil(total / batch_size)] sheets, and their names
    are returned; when a write fails the empty list is returned although
    the sheets written before stay. *)
Theorem create_batches_partitions df batch_size (write_ok : nat -> bool) :
  0 < batch_size ->
  let r := Sheets.create_batches true (Some df) batch_size write_ok in
  let rounds := Z.to_nat ((Z.of_nat (length df) + batch_size - 1) / batch_size) in
  exists k,
    (k <= rounds)%nat
    /\ concat (map snd (snd r)) = take (k * Z.to_nat batch_size) df
    /\ length (snd r) = k
    /\ Forall (fun b => (0 < length (snd b))%nat /\ Z.of_nat (length (snd b)) <= batch_size)
         (snd r)
    /\ (forall i b, (S i < rounds)%nat -> snd r !! i = Some b ->
        Z.of_nat (length (snd b)) = batch_size)
    /\ ((forall i, (i < rounds)%nat -> write_ok i = true) ->
        k = rounds /\ concat (map snd (snd r)) = df /\ fst r = Ok (map fst (snd r)))
    /\ ((exists i, (i < rounds)%nat /\ write_ok i = false) -> fst r = Ok []).
Proof.
  intros Hpos r rounds.
  destruct (rounds_cover df batch_size Hpos) as (Hr0 & Hcover & Hlast).
  fold rounds in Hr0, Hcover, Hlast.
  assert (Hstart : forall i, (i < rounds)%nat ->
            Z.of_nat i * batch_size < Z.of_nat (length df)).
  { intros i Hi. subst rounds.
    set (q := (Z.of_nat (length df) + batch_size - 1) / batch_size) in *.
    assert (0 < q) by lia. specialize (Hlast H). nia. }
  destruct (write_batches_spec df batch_size write_ok (seq 0 rounds) [])
    as (k & Hk & Hsnd & Hfst & Hok & Hfail).
  rewrite length_seq in Hk, Hfst. rewrite take_seq in Hsnd, Hok.
  replace (k `min` rounds)%nat with k in Hsnd, Hok by lia.
  assert (Hwritten : snd r = map (batch_of df batch_size) (seq 0 k)).
  { subst r. unfold Sheets.create_batches. cbn [negb].
    destruct (batch_size =? 0) eqn:E; [apply Z.eqb_eq in E; lia |].
    fold rounds.
    destruct (Sheets.write_batches df batch_size (Z.of_nat (length df)) write_ok
                (seq 0 rounds) []) as [[|] written]; exact Hsnd. }
  assert (Hres : fst r = if decide (k = rounds) then Ok (map fst (snd r)) else Ok []).
  { subst r. unfold Sheets.create_batches in *. cbn [negb] in *.
    destruct (batch_size =? 0) eqn:E; [apply Z.eqb_eq in E; lia |].
    fold rounds in Hwritten |- *.
    destruct (Sheets.write_batches df batch_size (Z.of_nat (length df)) write_ok
                (seq 0 rounds) []) as [[|] written]; cbn [fst snd] in *.
    - destruct (decide (k = rounds)) as [_ | Hne]; [reflexivity |].
      destruct Hne. apply Hfst. reflexivity.
    - destruct (decide (k = rounds)) as [He | _]; [| reflexivity].
      apply Hfst in He. discriminate. }
  exists k. split; [exact Hk |]. rewrite Hwritten.
  split; [| split; [| split; [| split; [| split]]]].
  - apply batches_concat; [exact Hpos |]. intros i Hi.
    pose proof (Hstart i ltac:(lia)). lia.
  - rewrite length_map, length_seq. reflexivity.
  - apply Forall_forall. intros b Hb.
    apply list_elem_of_fmap in Hb as (i & -> & Hi). apply elem_of_seq in Hi.
    pose proof (Hstart i ltac:(lia)) as Hlt.
    rewrite batch_rows by lia. rewrite length_take, length_drop. split; nia.
  - intros i b Hi Hb. rewrite list_lookup_fmap in Hb.
    destruct (seq 0 k !! i) as [j |] eqn:Hj; [| discriminate].
    apply lookup_seq in Hj as [-> Hik]. injection Hb as <-. cbn [plus].
    pose proof (Hstart (S i) Hi) as Hlt.
    rewrite batch_rows by lia. rewrite length_take, length_drop. nia.
  - intros Hall. assert (Hkr : k = rounds).
    { destruct (decide (k = rounds)) as [He | Hne]; [exact He |].
      assert (Hlook : seq 0 rounds !! k = Some k) by (apply lookup_seq; lia).
      pose proof (Hfail k Hlook) as Hf. rewrite Hall in Hf by lia. discriminate. }
    split; [exact Hkr |]. split.
    + rewrite batches_concat;
        [| exact Hpos | intros i Hi; pose proof (Hstart i ltac:(lia)); lia].
      apply take_ge. subst k. nia.
    + rewrite Hres, Hwritten. destruct (decide (k = rounds)); [reflexivity | contradiction].
  - intros (i & Hi & Hbad). rewrite Hres.
    destruct (decide (k = rounds)) as [He | _]; [| reflexivity].
    subst k. rewrite (Hok i) in Hbad by (apply elem_of_seq; lia). discriminate.
Qed.

End SheetFacts.

Lemma create_batches_partitions_witness :
  concat (map snd (snd (Sheets.create_batches true (Some [1; 2; 3; 4; 5]) 2 (fun _ => true))))
  = [1; 2; 3; 4; 5]
  /\ fst (Sheets.create_batches true (Some [1; 2; 3; 4; 5]) 2 (fun i => negb (i =? 1)%nat))
     = Ok [].
Proof.
  split.
  - destruct (create_batches_partitions [1; 2; 3; 4; 5] 2 (fun _ => true) eq_refl)
      as (k & _ & _ & _ & _ & _ & Hall & _).
    apply Hall. reflexivity.
  - destruct (create_batches_partitions [1; 2; 3; 4; 5] 2 (fun i => negb (i =? 1)%nat) eq_refl)
      as (k & _ & _ & _ & _ & _ & _ & Hfail).
    apply Hfail. exists 1%nat. split; [vm_compute; lia | reflexivity].
Defined.

Section SheetEdges.

Context {A : Type}.
Implicit Types (df : list A) (batch_size : Z).

(** [create_batches] without a positive batch size never writes a row:
    zero ends in the division and writes nothing, a negative size writes
    nothing for a sheet of two rows or more and empty sheets for a shorter
    one (whose names it returns). *)
Theorem create_batches_without_rows df batch_size (write_ok : nat -> bool) :
  batch_size <= 0 ->
  let r := Sheets.create_batches true (Some df) batch_size write_ok in
  Forall (fun b => snd b = []) (snd r)
  /\ (batch_size = 0 \/ (1 < length df)%nat -> r = (Ok [], [])).
Proof.
  intros Hneg r. subst r. unfold Sheets.create_batches. cbn [negb].
  destruct (batch_size =? 0) eqn:E0.
  { split; [constructor | reflexivity]. }
  apply Z.eqb_neq in E0. assert (Hlt : batch_size < 0) by lia.
  set (total := Z.of_nat (length df)).
  set (q := (total + batch_size - 1) / batch_size).
  assert (Hq : 0 < q -> total <= 1).
  { intros Hpos. subst q.
    pose proof (Z.div_mod (total + batch_size - 1) batch_size ltac:(lia)) as Hdm.
    pose proof (Z.mod_neg_bound (total + batch_size - 1) batch_size Hlt) as Hm. nia. }
  destruct (write_batches_spec df batch_size write_ok (seq 0 (Z.to_nat q)) [])
    as (k & Hk & Hsnd & _).
  rewrite length_seq in Hk. rewrite take_seq in Hsnd.
  replace (k `min` Z.to_nat q)%nat with k in Hsnd by lia.
  fold total in Hsnd. cbn [app] in Hsnd.
  destruct (Sheets.write_batches df batch_size total write_ok (seq 0 (Z.to_nat q)) [])
    as [ok written]. cbn [snd] in Hsnd. subst written.
  assert (Hempty : Forall (fun b : string * list A => snd b = [])
            (map (fun i : nat =>
                    (Sheets.batch_name i,
                     Sheets.iloc (Z.of_nat i * batch_size)
                       (Z.min (Z.of_nat i * batch_size + batch_size) total) df))
               (seq 0 k))).
  { apply Forall_forall. intros b Hb.
    apply list_elem_of_fmap in Hb as (i & -> & Hi). apply elem_of_seq in Hi. cbn [snd].
    assert (Htotal : total <= 1) by (apply Hq; lia).
    assert (Hstart : Z.of_nat i * batch_size <= 0) by nia.
    generalize dependent (Z.of_nat i * batch_size). intros start Hstart.
    unfold Sheets.iloc, Sheets.slice_bound. fold total.
    destruct (Z.min (start + batch_size) total <? 0) eqn:E2;
      [| apply Z.ltb_ge in E2; lia].
    replace (Z.to_nat _) with 0%nat; [reflexivity |].
    destruct (start <? 0) eqn:E3; lia. }
  split.
  - destruct ok; exact Hempty.
  - intros [H0 | Hmany]; [lia |].
    assert (Hq0 : Z.to_nat q = 0%nat) by (subst total; lia).
    assert (k = 0%nat) by lia. subst k. destruct ok; reflexivity.
Qed.

(** [create_subset] writes a prefix of the sheet: the first [num_urls] rows,
    all rows when there are fewer, and all but the last [-num_urls] for a
    negative number; the default name carries the number asked for also
    when fewer rows are written.  It returns the name exactly when it wrote
    the sheet. *)
Theorem create_subset_writes_prefix df (num_urls : Z) (output_file : option string)
    (write_ok : bool) :
  let r := Sheets.create_subset (Some df) num_urls output_file write_ok in
  let name := default ("reports_" ++ pretty num_urls ++ ".xlsx") output_file in
  let rows :=
    if 0 <=? num_urls then Z.to_nat num_urls
    else (length df - Z.to_nat (- num_urls))%nat in
  r = if write_ok then (Some name, Some (name, take rows df)) else (None, None).
Proof.
  intros r name rows. subst r name rows. unfold Sheets.create_subset.
  destruct write_ok; [| destruct output_file; reflexivity].
  assert (Hrows :
    Sheets.head (if Z.of_nat (length df) <? num_urls then Z.of_nat (length df) else num_urls) df
    = take (if 0 <=? num_urls then Z.to_nat num_urls
            else (length df - Z.to_nat (- num_urls))%nat) df).
  { unfold Sheets.head, Sheets.iloc, Sheets.slice_bound.
    change (0 <? 0) with false. cbv iota.
    replace (Z.to_nat (Z.min 0 (Z.of_nat (length df)))) with 0%nat by lia.
    rewrite drop_0. replace (Z.min 0 (Z.of_nat (length df))) with 0 by lia.
    destruct (Z.of_nat (length df) <? num_urls) eqn:E1.
    - apply Z.ltb_lt in E1.
      destruct (Z.of_nat (length df) <? 0) eqn:E2; [apply Z.ltb_lt in E2; lia |].
      destruct (0 <=? num_urls) eqn:E3; [| apply Z.leb_gt in E3; lia].
      rewrite !take_ge by lia. reflexivity.
    - apply Z.ltb_ge in E1.
      destruct (num_urls <? 0) eqn:E2.
      + apply Z.ltb_lt in E2. destruct (0 <=? num_urls) eqn:E3; [apply Z.leb_le in E3; lia |].
        f_equal. lia.
      + apply Z.ltb_ge in E2. destruct (0 <=? num_urls) eqn:E3; [| apply Z.leb_gt in E3; lia].
        f_equal. lia. }
  rewrite Hrows. destruct output_file; reflexivity.
Qed.

End SheetEdges.

Lemma create_batches_without_rows_witness :
  Sheets.create_batches true (Some [1; 2; 3]) (-2) (fun _ => true) = (Ok [], [])
  /\ Forall (fun b : string * list Z => snd b = [])
       (snd (Sheets.create_batches true (Some [1]) (-3) (fun _ => true))).
Proof.
  split.
  - apply (create_batches_without_rows [1; 2; 3] (-2) (fun _ => true));
      [vm_compute; discriminate | right; vm_compute; lia].
  - apply (create_batches_without_rows [1] (-3) (fun _ => true)). vm_compute. discriminate.
Defined.

(** ** The task id of a URL *)

Lemma string_app_assoc (a b c : string) : (a ++ b) ++ c = a ++ b ++ c.
Proof. induction a as [| x a IH]; simpl; [reflexivity | f_equal; exact IH]. Qed.

Lemma string_length_app (a b : string) :
  String.length (a ++ b) = (String.length a + String.length b)%nat.
Proof. induction a as [| x a IH]; simpl; [reflexivity | f_equal; exact IH]. Qed.

Lemma take_while_run id post :
  all_task_chars id = true -> ends_task_id post ->
  Report.take_while Report.is_task_char (id ++ post) = id.
Proof.
  intros Hid Hpost. induction id as [| c id IH]; simpl in *.
  - destruct post as [| c post]; [reflexivity |]. simpl in *. rewrite Hpost. reflexivity.
  - apply andb_true_iff in Hid as [Hc Hid]. rewrite Hc. f_equal. apply IH, Hid.
Qed.

Lemma take_while_split s :
  exists post,
    s = Report.take_while Report.is_task_char s ++ post
    /\ all_task_chars (Report.take_while Report.is_task_char s) = true
    /\ ends_task_id post.
Proof.
  induction s as [| c s (post & E & Hall & Hend)]; simpl.
  - exists "". repeat split.
  - destruct (Report.is_task_char c) eqn:Hc.
    + exists post. simpl. rewrite Hc, Hall. repeat split; [f_equal; exact E | exact Hend].
    + exists (String c s). repeat split. exact Hc.
Qed.

Lemma string_app_prefix z : forall x y w,
  x ++ y = z ++ w -> (String.length z <= String.length x)%nat -> exists r, x = z ++ r.
Proof.
  induction z as [| c z IH]; intros x y w E Hlen.
  - exists x. reflexivity.
  - destruct x as [| d x]; simpl in Hlen; [lia |].
    simpl in E. injection E as -> E.
    destruct (IH x y w E ltac:(lia)) as [r ->]. exists r. reflexivity.
Qed.

Lemma task_id_here_None_app x y :
  (8 <= String.length x)%nat ->
  Report.task_id_here x = None -> Report.task_id_here (x ++ y) = None.
Proof.
  intros Hlen Hx. destruct (Report.task_id_here (x ++ y)) as [id |] eqn:E; [| reflexivity].
  apply task_id_here_Some in E as (c & rest & E & Hc).
  change ("/tasks/" ++ String c rest) with (("/tasks/" ++ String c "") ++ rest) in E.
  destruct (string_app_prefix _ _ _ _ E Hlen) as [r Hr].
  exfalso. apply (task_id_here_segment c r Hc). rewrite <- Hx. f_equal.
  rewrite Hr. reflexivity.
Qed.

Lemma task_id_here_None_prefix x y :
  Report.task_id_here (x ++ y) = None -> Report.task_id_here x = None.
Proof.
  intros H. destruct (Report.task_id_here x) as [id |] eqn:E; [| reflexivity].
  apply task_id_here_Some in E as (c & rest & -> & Hc).
  exfalso. apply (task_id_here_segment c (rest ++ y) Hc). rewrite <- H. reflexivity.
Qed.

(** [_extract_task_id] returns [id] exactly when the URL reads
    [pre ++ "/tasks/" ++ id ++ post] where [id] is a non-empty run of
    characters of [[a-f0-9-]] that [post] does not continue, and no segment
    [/tasks/] followed by such a character starts further left.  What follows
    the id in the URL does not matter. *)
Theorem extract_task_id_first_segment (url id : string) :
  Report.extract_task_id url = Some id <->
  exists pre post,
    url = pre ++ "/tasks/" ++ id ++ post
    /\ id <> "" /\ all_task_chars id = true /\ ends_task_id post
    /\ ~ has_task_segment (pre ++ "/tasks/").
Proof.
  split.
  - revert id. induction url as [| a url IH]; intros id H; [discriminate |].
    rewrite extract_task_id_unfold in H.
    destruct (Report.task_id_here (String a url)) as [id' |] eqn:E.
    + injection H as ->. unfold Report.task_id_here in E.
      destruct (Report.strip_prefix "/tasks/" (String a url)) as [rest |] eqn:Hp; [| discriminate].
      apply strip_prefix_Some in Hp.
      destruct (take_while_split rest) as (post & Hrest & Hall & Hend).
      assert (Hid : Report.take_while Report.is_task_char rest = id)
        by (destruct (Report.take_while Report.is_task_char rest); congruence).
      rewrite Hid in *. exists "", post. repeat split; try assumption.
      * rewrite Hp, Hrest. reflexivity.
      * intros ->. destruct (Report.take_while Report.is_task_char rest); discriminate.
      * apply extract_task_id_None_iff. reflexivity.
    + destruct (IH id H) as (pre & post & -> & Hne & Hall & Hend & Hleft).
      exists (String a pre), post. repeat split; try assumption.
      apply extract_task_id_None_iff. apply extract_task_id_None_iff in Hleft.
      change (String a pre ++ "/tasks/") with (String a (pre ++ "/tasks/")).
      rewrite extract_task_id_unfold.
      replace (String a (pre ++ "/tasks/" ++ id ++ post))
        with (String a (pre ++ "/tasks/") ++ (id ++ post)) in E
        by (simpl; rewrite !string_app_assoc; reflexivity).
      rewrite (task_id_here_None_prefix _ _ E). exact Hleft.
  - intros (pre & post & -> & Hne & Hall & Hend & Hleft).
    apply extract_task_id_None_iff in Hleft.
    induction pre as [| a pre IH].
    + change ("" ++ "/tasks/" ++ id ++ post) with ("/tasks/" ++ (id ++ post)).
      rewrite extract_task_id_unfold. unfold Report.task_id_here.
      rewrite strip_prefix_app, take_while_run by assumption.
      destruct id; [congruence | reflexivity].
    + change (String a pre ++ "/tasks/") with (String a (pre ++ "/tasks/")) in Hleft.
      rewrite extract_task_id_unfold in Hleft.
      destruct (Report.task_id_here (String a (pre ++ "/tasks/"))) eqn:E; [discriminate |].
      change (String a pre ++ "/tasks/" ++ id ++ post)
        with (String a (pre ++ "/tasks/" ++ id ++ post)).
      rewrite extract_task_id_unfold.
      replace (String a (pre ++ "/tasks/" ++ id ++ post))
        with (String a (pre ++ "/tasks/") ++ (id ++ post))
        by (simpl; rewrite !string_app_assoc; reflexivity).
      rewrite task_id_here_None_app; [| | exact E].
      * replace (String a (pre ++ "/tasks/") ++ id ++ post)
          with (String a (pre ++ "/tasks/" ++ id ++ post))
          by (simpl; rewrite !string_app_assoc; reflexivity).
        apply IH, Hleft.
      * simpl. rewrite string_length_app. simpl. lia.
Qed.

Lemma extract_task_id_first_segment_witness :
  Report.extract_task_id "https://app.any.run/tasks/1f2e-77/?ref=/tasks/beef" = Some "1f2e-77".
Proof.
  apply (extract_task_id_first_segment
           "https://app.any.run/tasks/1f2e-77/?ref=/tasks/beef" "1f2e-77").
  exists "https://app.any.run", "/?ref=/tasks/beef".
  repeat split; [discriminate |].
  apply extract_task_id_None_iff. reflexivity.
Defined.

(** ** The checkpoint of the report scraper, written and read again *)

(** What [_load_checkpoint] reads after [_save_checkpoint]: the processed
    set when the write completed, what it read before when the file could not
    be opened, and the empty set when the write was cut short: a torn
    checkpoint makes the next run start over. *)
Theorem checkpoint_round_trip (env : Env) (s : Report.run_state) :
  let path := Report.checkpoint_file (obj s) in
  let reloaded := Report.load_checkpoint path (disk (snd (Report.save_checkpoint env s))) in
  match disk_at env (tick s) with
  | Written => reloaded = Report.processed_urls (obj s)
  | NotOpened => reloaded = Report.load_checkpoint path (disk s)
  | Cut n =>
      reloaded =
      if (n <? String.length (Json.dumps (Report.checkpoint_doc (obj s))))%nat then ∅
      else Report.processed_urls (obj s)
  end.
Proof.
  intros path reloaded. subst path reloaded.
  rewrite load_checkpoint_set.
  assert (Hdisk : disk (snd (Report.save_checkpoint env s))
                  = write_file (Report.checkpoint_file (obj s))
                      (Report.checkpoint_doc (obj s)) (disk_at env (tick s)) (disk s))
    by reflexivity.
  rewrite Hdisk. clear Hdisk.
  destruct (disk_at env (tick s)) as [| | n]; unfold write_file.
  - rewrite lookup_insert_eq. apply checkpoint_set_doc.
  - reflexivity.
  - rewrite lookup_insert_eq. unfold interrupted_write.
    destruct (n <? String.length (Json.dumps (Report.checkpoint_doc (obj s))))%nat.
    + reflexivity.
    + apply checkpoint_set_doc.
Qed.

(** ** Which pages a run of the report scraper visits *)

Lemma finishes_preserves {O A} (I : state O -> Prop) (m : M O A) :
  finishes I m -> preserves I m.
Proof. intros H s Hs. apply (H s Hs). Qed.

Lemma finishes_ret {O A} (I : state O -> Prop) (a : A) : finishes I (ret a).
Proof. intros s Hs. split; [discriminate | exact Hs]. Qed.

Lemma finishes_raise {O A} (I : state O -> Prop) (e : exn) : finishes I (@raise O A e).
Proof. intros s Hs. split; [discriminate | exact Hs]. Qed.

Lemma finishes_get_obj {O} (I : state O -> Prop) : finishes I get_obj.
Proof. intros s Hs. split; [discriminate | exact Hs]. Qed.

Lemma finishes_bind {O A B} (I : state O -> Prop) (m : M O A) (k : A -> M O B) :
  finishes I m -> (forall a, finishes I (k a)) -> finishes I (bind m k).
Proof.
  intros Hm Hk s Hs. specialize (Hm s Hs). unfold bind.
  destruct (m s) as [[a | e |] s']; simpl in *.
  - apply Hk, Hm.
  - split; [discriminate | apply Hm].
  - destruct Hm as [Hm _]. congruence.
Qed.

Lemma finishes_try_except {O A} (I : state O -> Prop) (body : M O A) h recover :
  finishes I body -> (forall e, finishes I (recover e)) ->
  finishes I (try_except body h recover).
Proof.
  intros Hb Hr s Hs. specialize (Hb s Hs). unfold try_except.
  destruct (body s) as [[a | e |] s']; simpl in *; auto.
  destruct (catches h e); simpl; auto. apply Hr, Hb.
Qed.

Lemma finishes_for_each {O A} (I : state O -> Prop) (xs : list A) (body : A -> M O unit) :
  (forall x, finishes I (body x)) -> finishes I (for_each xs body).
Proof.
  intros Hb. induction xs as [| x xs IH]; simpl.
  - apply finishes_ret.
  - apply finishes_bind; auto.
Qed.

Lemma finishes_observe {O A} (I : state O -> Prop) (reading : nat -> A) :
  (forall s t, I s -> I (touch s t)) -> finishes I (observe reading).
Proof. intros H s Hs. split; [discriminate | apply (H s (S (tick s)) Hs)]. Qed.

Lemma finishes_emit {O} (I : state O -> Prop) (ev : event) :
  (forall s, I s -> I (log s ev)) -> finishes I (emit ev).
Proof. intros H s Hs. split; [discriminate | apply (H s Hs)]. Qed.

Lemma finishes_set_obj {O} (I : state O -> Prop) (f : O -> O) :
  (forall s, I s -> I (update s f)) -> finishes I (set_obj f).
Proof. intros H s Hs. split; [discriminate | apply (H s Hs)]. Qed.

Lemma finishes_sleep {O} (I : state O -> Prop) (secs : Py.pyfloat) : finishes I (sleep secs).
Proof.
  intros s Hs. unfold sleep. destruct (sleep_error secs); (split; [discriminate | exact Hs]).
Qed.

Lemma finishes_finally {O A} (I : state O -> Prop) (body : M O A) (cleanup : M O unit) :
  finishes I body -> finishes I cleanup -> finishes I (finally body cleanup).
Proof.
  intros Hb Hc s Hs. specialize (Hb s Hs). unfold finally.
  destruct (body s) as [r s']. simpl in Hb. destruct Hb as [Hr Hs'].
  specialize (Hc s' Hs').
  destruct (cleanup s') as [[[] | e |] s'']; simpl in *.
  - split; [exact Hr | apply Hc].
  - split; [discriminate | apply Hc].
  - destruct Hc as [Hc _]. congruence.
Qed.

Ltac finishes_step :=
  lazymatch goal with
  | |- finishes _ (bind _ _) => apply finishes_bind; [| intros ?]
  | |- finishes _ (finally _ _) => apply finishes_finally
  | |- finishes _ (sleep _) => apply finishes_sleep
  | |- finishes _ (try_except _ _ _) => apply finishes_try_except; [| intros ?]
  | |- finishes _ (ret _) => apply finishes_ret
  | |- finishes _ (raise _) => apply finishes_raise
  | |- finishes _ get_obj => apply finishes_get_obj
  | |- finishes _ (for_each _ _) => apply finishes_for_each; intros ?
  | |- finishes _ (let _ := _ in _) => cbv zeta
  | |- finishes _ (if ?b then _ else _) => destruct b eqn:?
  | |- finishes _ (match ?x with _ => _ end) => destruct x eqn:?
  end.

Create HintDb run_fin discriminated.

Ltac finishes_auto := repeat (first [ solve [eauto with run_fin] | finishes_step ]).

(** The report scraper navigates in [_initial_login] and at the head of
    [scrape_report] only: every other routine keeps an invariant that only a
    navigation can break, and none runs out of fuel. *)
Section Visits.

Import Report.

Variable env : Env.
Variable I : run_state -> Prop.

Hypothesis I_touch : forall s t, I s -> I (touch s t).
Hypothesis I_quiet : forall s ev, (forall u, ev <> EvNavigate u) -> I s -> I (log s ev).
Hypothesis I_update :
  forall s f,
    (forall o, page_delay (f o) = page_delay o) -> (forall o, driver (f o) = driver o) ->
    I s -> I (update s f).
Hypothesis I_disk : forall s f, I s -> I (MkState (obj s) (tick s) (trace s) (f (disk s))).

Lemma visits_observe A (reading : nat -> A) : finishes I (observe reading).
Proof. apply finishes_observe, I_touch. Qed.

Lemma visits_emit ev : (forall u, ev <> EvNavigate u) -> finishes I (emit ev).
Proof. intros H. apply finishes_emit. intros s. apply I_quiet, H. Qed.

Lemma visits_set_obj f :
  (forall o, page_delay (f o) = page_delay o) -> (forall o, driver (f o) = driver o) ->
  finishes I (set_obj f).
Proof. intros Hdelay Hdriver. apply finishes_set_obj. intros s. apply I_update; assumption. Qed.

Lemma visits_set_disk f : finishes I (set_disk f).
Proof. intros s Hs. split; [discriminate | apply I_disk, Hs]. Qed.

Hint Resolve visits_observe visits_set_disk : run_fin.
Hint Extern 1 (finishes _ (emit _)) => apply visits_emit; intros ?; discriminate : run_fin.
Hint Extern 1 (finishes _ (set_obj _)) => apply visits_set_obj; intros ?; reflexivity : run_fin.

Lemma visits_probe : finishes I (is_bot_challenge_present env).
Proof. unfold is_bot_challenge_present. finishes_auto. Qed.

Lemma visits_send : finishes I (send_email_notification env).
Proof. unfold send_email_notification. finishes_auto. Qed.

Hint Resolve visits_probe visits_send : run_fin.

Lemma visits_notify : finishes I (notify_bot_challenge env).
Proof. unfold notify_bot_challenge. finishes_auto. Qed.

Lemma visits_recovery_click : finishes I (click_on_bot_challenge env).
Proof. unfold click_on_bot_challenge. finishes_auto. Qed.

Lemma visits_prompt : finishes I (prompt_operator env).
Proof. unfold prompt_operator. finishes_auto. Qed.

Hint Resolve visits_notify visits_recovery_click visits_prompt : run_fin.

Lemma visits_check : finishes I (check_for_bot_challenge env).
Proof. unfold check_for_bot_challenge, now. finishes_auto. Qed.

Hint Resolve visits_check : run_fin.

Lemma visits_handle_login : finishes I (handle_login_if_needed env).
Proof. unfold handle_login_if_needed. finishes_auto. Qed.

Lemma visits_body_longer_than least : finishes I (body_longer_than env least).
Proof. unfold body_longer_than. finishes_auto. Qed.

Hint Resolve visits_handle_login visits_body_longer_than : run_fin.

Lemma visits_wait_for_selectors sels : finishes I (wait_for_selectors env sels).
Proof. induction sels as [| sel rest IH]; simpl; finishes_auto. Qed.

Hint Resolve visits_wait_for_selectors : run_fin.

Lemma visits_wait_for_page_load : finishes I (wait_for_page_load env).
Proof. unfold wait_for_page_load. finishes_auto. Qed.

Lemma visits_find_and_click : finishes I (find_and_click_pcap_download env).
Proof. unfold find_and_click_pcap_download. finishes_auto. Qed.

Hint Resolve visits_wait_for_page_load visits_find_and_click : run_fin.

Lemma visits_download_pcap task_id report : finishes I (download_pcap env task_id report).
Proof. unfold download_pcap. finishes_auto. Qed.

Lemma visits_extractor name : finishes I (extractor env name).
Proof. unfold extractor. finishes_auto. Qed.

Lemma visits_poll_section sec end_time rounds :
  finishes I (poll_section env sec end_time rounds).
Proof. induction rounds as [| n IH]; simpl; unfold now; finishes_auto. Qed.

Hint Resolve visits_download_pcap visits_extractor visits_poll_section : run_fin.

Lemma visits_wait_for_section sec : finishes I (wait_for_deep_analysis_section env sec).
Proof. unfold wait_for_deep_analysis_section, now. finishes_auto. Qed.

Hint Resolve visits_wait_for_section : run_fin.

Lemma visits_scrape_sections sections tabs data :
  finishes I (scrape_sections env sections tabs data).
Proof.
  revert tabs data. induction sections as [| sec sections' IH]; intros tabs data;
    [destruct tabs; apply finishes_ret |].
  destruct tabs as [| tab tabs']; [apply finishes_ret |].
  cbn [scrape_sections]. finishes_auto.
Qed.

Hint Resolve visits_scrape_sections : run_fin.

Lemma visits_scrape_deep_analysis : finishes I (scrape_deep_analysis env).
Proof. unfold scrape_deep_analysis. finishes_auto. Qed.

Lemma visits_write_report task_id report : finishes I (write_report env task_id report).
Proof. unfold write_report. finishes_auto. Qed.

Lemma visits_save_checkpoint : finishes I (save_checkpoint env).
Proof. unfold save_checkpoint. finishes_auto. Qed.

Hint Resolve visits_scrape_deep_analysis visits_write_report visits_save_checkpoint : run_fin.

(** After [driver.get(url)], the rest of the [try] block of
    [scrape_report]. *)
Lemma visits_scrape_report url :
  (forall s, I s -> I (log s (EvNavigate url))) ->
  finishes I (scrape_report env url).
Proof.
  intros Hnav. unfold scrape_report.
  destruct (extract_task_id url) as [task_id |]; [| apply finishes_ret].
  apply finishes_try_except; [| intros ?; apply finishes_ret].
  apply finishes_bind; [apply visits_observe | intros pg].
  apply finishes_bind; [apply finishes_emit, Hnav | intros _].
  finishes_auto.
Qed.

Lemma visits_process_url url :
  (forall s, I s -> I (log s (EvNavigate url))) ->
  finishes I (process_url env url).
Proof.
  intros Hnav. unfold process_url.
  apply finishes_bind; [apply visits_scrape_report, Hnav | intros result].
  finishes_auto.
Qed.

Lemma visits_initial_login :
  (forall s, I s -> I (log s (EvNavigate "https://app.any.run/"))) ->
  finishes I (initial_login env).
Proof.
  intros Hnav. unfold initial_login.
  apply finishes_bind; [apply finishes_get_obj | intros o].
  destruct (negb _); [apply finishes_ret |].
  apply finishes_try_except; [| intros ?; apply finishes_ret].
  apply finishes_bind; [apply visits_observe | intros pg].
  apply finishes_bind; [apply finishes_emit, Hnav | intros _].
  finishes_auto.
Qed.

Lemma scrape_report_no_raise url s e : fst (scrape_report env url s) <> Raise e.
Proof.
  unfold scrape_report. destruct (extract_task_id url); [| discriminate].
  unfold try_except.
  match goal with |- context [match ?x with _ => _ end] => destruct x as [[a | e' |] s'] end;
    simpl; discriminate.
Qed.

Lemma process_url_no_raise url s e : fst (process_url env url s) <> Raise e.
Proof.
  unfold process_url, bind.
  pose proof (scrape_report_no_raise url s) as H.
  destruct (scrape_report env url s) as [[[data |] | e' |] s']; simpl in *;
    try discriminate.
  exfalso. exact (H e' eq_refl).
Qed.

Lemma initial_login_no_raise s e : fst (initial_login env s) <> Raise e.
Proof.
  unfold initial_login, bind, get_obj.
  destruct (negb _); [discriminate |].
  unfold try_except.
  match goal with |- context [match ?x with _ => _ end] => destruct x as [[a | e' |] s'] end;
    simpl; discriminate.
Qed.

(** One turn of the loop of [run] returns, whatever the page does. *)
Lemma visits_process_url_ok url :
  (forall s, I s -> I (log s (EvNavigate url))) ->
  triple I (process_url env url) (fun r s' => r = Ok tt /\ I s').
Proof.
  intros Hnav s Hs. destruct (visits_process_url url Hnav s Hs) as [Hfuel HI].
  split; [| exact HI].
  pose proof (process_url_no_raise url s) as Hraise.
  destruct (fst (process_url env url s)) as [[] | e |]; [reflexivity | | congruence].
  exfalso. exact (Hraise e eq_refl).
Qed.

Lemma visits_initial_login_ok :
  (forall s, I s -> I (log s (EvNavigate "https://app.any.run/"))) ->
  triple I (initial_login env) (fun r s' => r = Ok tt /\ I s').
Proof.
  intros Hnav s Hs. destruct (visits_initial_login Hnav s Hs) as [Hfuel HI].
  split; [| exact HI].
  pose proof (initial_login_no_raise s) as Hraise.
  destruct (fst (initial_login env s)) as [[] | e |]; [reflexivity | | congruence].
  exfalso. exact (Hraise e eq_refl).
Qed.

(** A URL with a task id is navigated to: from a state in [P], the turn of
    the loop for [url] ends in [I] when the navigation takes [P] to [I]. *)
Lemma visits_process_url_navigated (P : run_state -> Prop) url task_id :
  extract_task_id url = Some task_id ->
  (forall s, P s -> I (log (touch s (S (tick s))) (EvNavigate url))) ->
  triple P (process_url env url) (fun r s' => r = Ok tt /\ I s').
Proof.
  intros Hid Hnav.
  assert (Hscrape : triple P (scrape_report env url) (fun r s' => r <> OutOfFuel /\ I s')).
  { unfold scrape_report. rewrite Hid.
    intros s Hs. unfold try_except.
    match goal with |- context [match ?b s with _ => _ end] => set (body := b) end.
    assert (Hbody : triple P body (fun r s' => r <> OutOfFuel /\ I s')).
    { subst body.
      eapply triple_bind with
        (R := fun (r : outcome page) s1 =>
                (exists a, r = Ok a) /\ exists s0, P s0 /\ s1 = touch s0 (S (tick s0))).
      - intros s0 Hs0. split; [eexists; reflexivity | exists s0; split; [exact Hs0 | reflexivity]].
      - intros pg.
        eapply triple_bind with (R := fun (r : outcome unit) s2 => r <> OutOfFuel /\ I s2).
        + intros s1 (_ & s0 & Hs0 & ->). split; [discriminate | apply Hnav, Hs0].
        + intros []. eapply triple_weaken with (P' := I);
            [| intros s2 [_ H2]; exact H2 | intros r s2 H2; exact H2].
          change (finishes I
            match pg_get pg with
            | Some e => raise e
            | None =>
                let* _ := handle_login_if_needed env in
                let* _ := check_for_bot_challenge env in
                let* loaded := wait_for_page_load env in
                let* loaded := (if loaded then ret true else wait_for_page_load env) in
                if negb loaded then ret None
                else
                  let* general_info := extractor env "general_info" in
                  let* process_info := extractor env "process_info" in
                  let* ioc_details := extractor env "ioc_details" in
                  let* mitre_attack := extractor env "mitre_attack" in
                  let* deep_analysis := scrape_deep_analysis env in
                  let report :=
                    [("task_id", JStr task_id); ("url", JStr url);
                     ("general_info", general_info); ("process_info", process_info);
                     ("ioc_details", ioc_details); ("mitre_attack", mitre_attack);
                     ("deep_analysis", deep_analysis)] in
                  let* pcap := download_pcap env task_id report in
                  let report :=
                    if Py.truthy pcap
                    then (report ++ [("pcap_file", JStr (default "" pcap))])%list
                    else report in
                  write_report env task_id report
            end).
          finishes_auto.
        + intros e s2 [_ H2]. split; [discriminate | exact H2].
        + intros s2 [H2 _]. congruence.
      - intros e s1 [[a Ha] _]. discriminate.
      - intros s1 [[a Ha] _]. discriminate. }
    specialize (Hbody s Hs).
    destruct (body s) as [[a | e |] s1]; simpl in *; try exact Hbody.
    split; [discriminate | apply Hbody]. }
  intros s Hs.
  pose proof (process_url_no_raise url s) as Hraise.
  assert (Hfin : fst (process_url env url s) <> OutOfFuel /\ I (snd (process_url env url s))).
  { unfold process_url.
    eapply triple_bind with (R := fun (r : outcome (option json)) s' => r <> OutOfFuel /\ I s');
      [exact Hscrape | | | | exact Hs].
    - intros result. eapply triple_weaken with (P' := I);
        [| intros s2 [_ H2]; exact H2 | intros r s2 H2; exact H2].
      change (finishes I
        match result with
        | Some _ =>
            let* _ := set_obj (fun o => with_processed ({[ url ]} ∪ processed_urls o) o) in
            let* _ := emit (EvProcessed url) in
            save_checkpoint env
        | None => ret tt
        end).
      finishes_auto.
    - intros e s2 [_ H2]. split; [discriminate | exact H2].
    - intros s2 [H2 _]. congruence. }
  destruct Hfin as [Hfuel HI]. split; [| exact HI].
  destruct (fst (process_url env url s)) as [[] | e |]; [reflexivity | | congruence].
  exfalso. exact (Hraise e eq_refl).
Qed.

(** Starting and quitting the browser navigate nowhere. *)
Lemma visits_init_driver :
  (forall s b, I s -> I (update s (with_driver b))) -> finishes I (init_driver env).
Proof.
  intros Hdrv. unfold init_driver.
  apply finishes_bind; [apply visits_observe | intros started].
  destruct started; [apply finishes_raise |].
  apply finishes_bind; [apply finishes_set_obj; intros s; apply Hdrv | intros _].
  finishes_auto.
Qed.

Lemma visits_close_driver :
  (forall s b, I s -> I (update s (with_driver b))) -> finishes I (close_driver env).
Proof.
  intros Hdrv. unfold close_driver.
  apply finishes_bind; [apply finishes_get_obj | intros o].
  destruct (negb (driver o)); [apply finishes_ret |].
  apply finishes_bind; [apply visits_observe | intros quit].
  destruct quit; [apply finishes_raise |].
  apply finishes_set_obj. intros s. apply Hdrv.
Qed.

(** One turn of the loop of [run], pause included. *)
Lemma visits_turn total numbered :
  finishes I (process_url env (snd numbered)) -> finishes I (turn env total numbered).
Proof. intros Hurl. unfold turn. apply finishes_bind; [exact Hurl | intros _]. finishes_auto. Qed.

End Visits.
Lemma for_each_ok {O A} (I : state O -> Prop) (xs : list A) (body : A -> M O unit) :
  (forall x, x ∈ xs -> triple I (body x) (fun r s' => r = Ok tt /\ I s')) ->
  triple I (for_each xs body) (fun r s' => r = Ok tt /\ I s').
Proof.
  induction xs as [| x xs IH]; intros Hb; simpl.
  - intros s Hs. split; [reflexivity | exact Hs].
  - eapply triple_bind with (R := fun (r : outcome unit) s' => r = Ok tt /\ I s').
    + apply Hb. left.
    + intros a. eapply triple_weaken; [apply IH | intros s [_ Hs]; exact Hs | auto].
      intros y Hy. apply Hb. right. exact Hy.
    + intros e s [E _]. discriminate.
    + intros s [E _]. discriminate.
Qed.

Lemma for_each_reaches {O A} (G L : state O -> Prop) (xs : list A) (body : A -> M O unit) u :
  u ∈ xs ->
  (forall x, triple G (body x) (fun r s' => r = Ok tt /\ G s')) ->
  (forall x, triple L (body x) (fun r s' => r = Ok tt /\ L s')) ->
  triple G (body u) (fun r s' => r = Ok tt /\ L s') ->
  triple G (for_each xs body) (fun r s' => r = Ok tt /\ L s').
Proof.
  intros Hin HG HL Hu. induction xs as [| x xs IH]; [inversion Hin |].
  apply elem_of_cons in Hin as [<- | Hin]; simpl.
  - eapply triple_bind with (R := fun (r : outcome unit) s' => r = Ok tt /\ L s').
    + exact Hu.
    + intros a. eapply triple_weaken;
        [apply (for_each_ok L xs body); intros y _; apply HL
        | intros s [_ Hs]; exact Hs | auto].
    + intros e s [E _]. discriminate.
    + intros s [E _]. discriminate.
  - eapply triple_bind with (R := fun (r : outcome unit) s' => r = Ok tt /\ G s').
    + apply HG.
    + intros a. eapply triple_weaken; [apply IH, Hin | intros s [_ Hs]; exact Hs | auto].
    + intros e s [E _]. discriminate.
    + intros s [E _]. discriminate.
Qed.

Lemma visits_only_start {O} allowed (s : state O) : visits_only allowed (trace s) s.
Proof. exists []. split; [symmetry; apply app_nil_r | intros u Hu; inversion Hu]. Qed.

Lemma visits_only_log {O} (allowed : string -> Prop) tr0 (s : state O) ev :
  (forall u, ev = EvNavigate u -> allowed u) ->
  visits_only allowed tr0 s -> visits_only allowed tr0 (log s ev).
Proof.
  intros Hev (new & E & Hnew). exists (new ++ [ev])%list. split.
  - simpl. rewrite E, app_assoc. reflexivity.
  - intros u Hu. apply elem_of_app in Hu as [Hu | Hu]; [apply Hnew, Hu |].
    apply list_elem_of_singleton in Hu. apply Hev. congruence.
Qed.

(** The log has grown from [tr0] and shows a navigation to [u] since. *)
Lemma visited_log {O} tr0 u (s : state O) ev :
  (exists new, trace s = (tr0 ++ new)%list /\ EvNavigate u ∈ new) ->
  exists new, trace (log s ev) = (tr0 ++ new)%list /\ EvNavigate u ∈ new.
Proof.
  intros (new & E & Hnew). exists (new ++ [ev])%list. split.
  - simpl. rewrite E, app_assoc. reflexivity.
  - apply elem_of_app. left. exact Hnew.
Qed.

Lemma finishes_for_each_in {O A} (I : state O -> Prop) (xs : list A) (body : A -> M O unit) :
  (forall x, x ∈ xs -> finishes I (body x)) -> finishes I (for_each xs body).
Proof.
  induction xs as [| x xs IH]; intros Hb; simpl; [apply finishes_ret |].
  apply finishes_bind; [apply Hb; left | intros _].
  apply IH. intros y Hy. apply Hb. right. exact Hy.
Qed.

Lemma run_unfold env urls (s : Report.run_state) :
  Report.run env (Some urls) s =
  let todo :=
    List.filter (fun url => negb (bool_decide (url ∈ Report.processed_urls (obj s)))) urls in
  match todo with
  | [] => (Ok tt, s)
  | _ =>
      (let* _ := Report.init_driver env in
       let* _ := Report.initial_login env in
       finally (for_each (Report.enumerate todo) (Report.turn env (length todo)))
         (Report.close_driver env)) s
  end.
Proof.
  unfold Report.run. unfold bind at 1. unfold get_obj. cbv zeta.
  destruct (List.filter _ urls) as [| u rest]; reflexivity.
Qed.

(** [_init_driver] on one run: the exception of the start or of the
    configuration, or the browser started after two observations. *)
Lemma init_driver_run env (s : Report.run_state) :
  Report.init_driver env s =
  match driver_at env (tick s), driver_at env (S (tick s)) with
  | Some e, _ => (Raise e, touch s (S (tick s)))
  | None, Some e => (Raise e, update (touch s (S (S (tick s)))) (Report.with_driver true))
  | None, None => (Ok tt, update (touch s (S (S (tick s)))) (Report.with_driver true))
  end.
Proof.
  unfold Report.init_driver, bind, observe, set_obj. simpl.
  destruct (driver_at env (tick s)); [reflexivity |]. simpl.
  destruct (driver_at env (S (tick s))); reflexivity.
Qed.

(** [_close_driver] with the browser started. *)
Lemma close_driver_run env (s : Report.run_state) :
  Report.driver (obj s) = true ->
  Report.close_driver env s =
  match driver_at env (tick s) with
  | Some e => (Raise e, touch s (S (tick s)))
  | None => (Ok tt, update (touch s (S (tick s))) (Report.with_driver false))
  end.
Proof.
  intros Hd. unfold Report.close_driver, bind, get_obj, observe, set_obj. simpl.
  rewrite Hd. simpl. destruct (driver_at env (tick s)); reflexivity.
Qed.

Lemma enumerate_snd {A} (xs : list A) (x : nat * A) : x ∈ Report.enumerate xs -> snd x ∈ xs.
Proof.
  unfold Report.enumerate. intros H. apply list_elem_of_In in H. destruct x as [i a].
  apply in_combine_r in H. apply list_elem_of_In, H.
Qed.

Lemma combine_reaches {A} (xs : list A) a : forall ns : list nat,
  length ns = length xs -> a ∈ xs -> exists i, (i, a) ∈ combine ns xs.
Proof.
  induction xs as [| x xs IH]; intros ns Hlen Hin; [inversion Hin |].
  destruct ns as [| n ns]; [discriminate |]. injection Hlen as Hlen.
  apply elem_of_cons in Hin as [-> | Hin].
  - exists n. left.
  - destruct (IH ns Hlen Hin) as [i Hi]. exists i. right. exact Hi.
Qed.

Lemma enumerate_reaches {A} (xs : list A) a :
  a ∈ xs -> exists i, (i, a) ∈ Report.enumerate xs.
Proof. apply combine_reaches, length_seq. Qed.

(** One turn of the loop of [run] returns when the URL is processed and the
    pause does not raise. *)
Lemma turn_ok env (P Q : Report.run_state -> Prop) total numbered :
  (forall s, Q s -> sleep_error (Report.page_delay (obj s)) = None) ->
  triple P (Report.process_url env (snd numbered)) (fun r s' => r = Ok tt /\ Q s') ->
  triple P (Report.turn env total numbered) (fun r s' => r = Ok tt /\ Q s').
Proof.
  intros Hdelay Hurl s Hs. specialize (Hurl s Hs). unfold Report.turn, bind.
  destruct (Report.process_url env (snd numbered) s) as [r s1]. simpl in Hurl.
  destruct Hurl as [-> H1].
  destruct (fst numbered <? total)%nat; [| split; [reflexivity | exact H1]].
  unfold get_obj, sleep. rewrite (Hdelay s1 H1). split; [reflexivity | exact H1].
Qed.

(** In the loop of [run], with a log property that only navigations can
    break. *)
Section RunLoop.

Variable env : Env.
Variable delay : Py.pyfloat.
Variable T : list event -> Prop.
Hypothesis T_quiet : forall tr ev, (forall u, ev <> EvNavigate u) -> T tr -> T (tr ++ [ev]).

Lemma looping_touch s t : looping delay T s -> looping delay T (touch s t).
Proof. exact (fun H => H). Qed.

Lemma looping_quiet s ev :
  (forall u, ev <> EvNavigate u) -> looping delay T s -> looping delay T (log s ev).
Proof. intros Hev (H1 & H2 & H3). split; [apply T_quiet; assumption | split; assumption]. Qed.

Lemma looping_update s f :
  (forall o, Report.page_delay (f o) = Report.page_delay o) ->
  (forall o, Report.driver (f o) = Report.driver o) ->
  looping delay T s -> looping delay T (update s f).
Proof.
  intros Hdelay Hdriver (H1 & H2 & H3). split; [exact H1 |].
  simpl. rewrite Hdelay, Hdriver. split; assumption.
Qed.

Lemma looping_disk s f :
  looping delay T s -> looping delay T (MkState (obj s) (tick s) (trace s) (f (disk s))).
Proof. exact (fun H => H). Qed.

Lemma looping_initial_login :
  (forall tr, T tr -> T (tr ++ [EvNavigate "https://app.any.run/"])) ->
  triple (looping delay T) (Report.initial_login env)
    (fun r s' => r = Ok tt /\ looping delay T s').
Proof.
  intros Hnav.
  apply visits_initial_login_ok; [apply looping_touch | apply looping_quiet |].
  intros s (H1 & H2 & H3). split; [apply Hnav, H1 | split; assumption].
Qed.

Lemma looping_process_url url :
  (forall tr, T tr -> T (tr ++ [EvNavigate url])) ->
  triple (looping delay T) (Report.process_url env url)
    (fun r s' => r = Ok tt /\ looping delay T s').
Proof.
  intros Hnav.
  apply visits_process_url_ok;
    [apply looping_touch | apply looping_quiet | apply looping_update | apply looping_disk |].
  intros s (H1 & H2 & H3). split; [apply Hnav, H1 | split; assumption].
Qed.

Lemma looping_turn total numbered :
  sleep_error delay = None ->
  (forall tr, T tr -> T (tr ++ [EvNavigate (snd numbered)])) ->
  triple (looping delay T) (Report.turn env total numbered)
    (fun r s' => r = Ok tt /\ looping delay T s').
Proof.
  intros Hdelay Hnav. apply turn_ok; [| apply looping_process_url, Hnav].
  intros s (_ & -> & _). exact Hdelay.
Qed.

End RunLoop.

(** The turn for a URL with a task id takes a log in [T] to a log in [T']
    when the navigation does. *)
Lemma looping_turn_navigated env delay (T T' : list event -> Prop) total numbered task_id :
  sleep_error delay = None ->
  Report.extract_task_id (snd numbered) = Some task_id ->
  (forall tr ev, T' tr -> T' (tr ++ [ev])%list) ->
  (forall tr, T tr -> T' (tr ++ [EvNavigate (snd numbered)])%list) ->
  triple (looping delay T) (Report.turn env total numbered)
    (fun r s' => r = Ok tt /\ looping delay T' s').
Proof.
  intros Hdelay Hid Hany Hnav. apply turn_ok; [intros s (_ & -> & _); exact Hdelay |].
  apply (visits_process_url_navigated env (looping delay T')) with (task_id := task_id).
  - exact (fun s t H => H).
  - intros s ev _ (H1 & H2 & H3). split; [apply Hany, H1 | split; assumption].
  - intros s f Hdelay' Hdriver (H1 & H2 & H3). split; [exact H1 |].
    simpl. rewrite Hdelay', Hdriver. split; assumption.
  - exact (fun s f H => H).
  - exact Hid.
  - intros s (H1 & H2 & H3). split; [apply Hnav, H1 | split; assumption].
Qed.

Lemma pending_in_filter urls (s : Report.run_state) u :
  u ∈ urls -> u ∉ Report.processed_urls (obj s) ->
  u ∈ List.filter (fun url => negb (bool_decide (url ∈ Report.processed_urls (obj s)))) urls.
Proof.
  intros Hin Hnot. apply list_elem_of_In, List.filter_In. split.
  - apply list_elem_of_In, Hin.
  - apply negb_true_iff, bool_decide_eq_false, Hnot.
Qed.

Lemma filter_in_pending urls (s : Report.run_state) u :
  u ∈ List.filter (fun url => negb (bool_decide (url ∈ Report.processed_urls (obj s)))) urls ->
  u ∈ urls /\ u ∉ Report.processed_urls (obj s).
Proof.
  intros H. apply list_elem_of_In, List.filter_In in H as [Hin Hnot]. split.
  - apply list_elem_of_In, Hin.
  - apply negb_true_iff, bool_decide_eq_false in Hnot. exact Hnot.
Qed.

(** A run of the report scraper over a sheet of URLs.  It ends, and it
    navigates nowhere but to URLs of the sheet that are not in the processed
    set and have a task id, the start page of the login apart.  With nothing
    left to process it returns at once.  An exception of the start of the
    browser, or of its configuration, leaves [run].  Once the browser has
    started and when [time.sleep(page_delay)] does not raise, [run] navigates
    to every such URL, also after earlier URLs failed, and it returns with
    the browser closed unless [driver.quit()] raises.  When
    [time.sleep(page_delay)] raises (a negative delay, a NaN, a delay out of
    range) and two URLs or more are left, [run] ends in that exception, or
    in the one of [driver.quit()], after the first of them: no other URL is
    navigated to. *)
Theorem run_visits_pending_urls (env : Env) (urls : list string) (s : Report.run_state) :
  let r := Report.run env (Some urls) s in
  let todo :=
    List.filter (fun url => negb (bool_decide (url ∈ Report.processed_urls (obj s)))) urls in
  let started := driver_at env (tick s) = None /\ driver_at env (S (tick s)) = None in
  let delay := Report.page_delay (obj s) in
  fst r <> OutOfFuel
  /\ (todo = [] -> r = (Ok tt, s))
  /\ (todo <> [] ->
      forall e, driver_at env (tick s) = Some e -> r = (Raise e, touch s (S (tick s))))
  /\ (todo <> [] ->
      forall e,
        driver_at env (tick s) = None -> driver_at env (S (tick s)) = Some e ->
        r = (Raise e, update (touch s (S (S (tick s)))) (Report.with_driver true)))
  /\ exists new,
       trace (snd r) = (trace s ++ new)%list
       /\ (forall u, EvNavigate u ∈ new -> pending urls s u \/ u = "https://app.any.run/")
       /\ (started -> sleep_error delay = None ->
           (forall u, pending urls s u -> EvNavigate u ∈ new)
           /\ (todo <> [] ->
               (fst r = Ok tt /\ Report.driver (obj (snd r)) = false)
               \/ exists e n, driver_at env n = Some e /\ fst r = Raise e))
       /\ (started ->
           forall e first second rest,
             sleep_error delay = Some e -> todo = first :: second :: rest ->
             (forall u, EvNavigate u ∈ new -> u = first \/ u = "https://app.any.run/")
             /\ (fst r = Raise e \/ exists e' n, driver_at env n = Some e' /\ fst r = Raise e')).
Proof.
  intros r todo started delay.
  assert (Htodo : forall u, u ∈ todo <-> u ∈ urls /\ u ∉ Report.processed_urls (obj s)).
  { intros u. split; [apply filter_in_pending | intros [H1 H2]; apply pending_in_filter; assumption]. }
  assert (Hrun : r = match todo with
                     | [] => (Ok tt, s)
                     | _ =>
                         (let* _ := Report.init_driver env in
                          let* _ := Report.initial_login env in
                          finally
                            (for_each (Report.enumerate todo) (Report.turn env (length todo)))
                            (Report.close_driver env)) s
                     end) by apply run_unfold.
  clearbody r.
  destruct todo as [| u0 rest0] eqn:Etodo.
  { subst r. split; [discriminate |]. split; [reflexivity |].
    split; [congruence |]. split; [congruence |].
    exists []. split; [symmetry; apply app_nil_r |].
    split; [intros u Hu; inversion Hu |]. split.
    - intros _ _. split; [| congruence].
      intros u (H1 & H2 & _). exfalso.
      assert (H : u ∈ @nil string) by (apply Htodo; split; assumption). inversion H.
    - intros _ e first second rest _ E. discriminate. }
  rewrite <- Etodo in *.
  assert (Hsome : todo <> []) by (rewrite Etodo; discriminate).
  assert (Hprog : r = (let* _ := Report.init_driver env in
                       let* _ := Report.initial_login env in
                       finally
                         (for_each (Report.enumerate todo) (Report.turn env (length todo)))
                         (Report.close_driver env)) s)
    by (rewrite Hrun, Etodo; reflexivity).
  clear Hrun Etodo u0 rest0.
  unfold bind at 1 in Hprog. rewrite init_driver_run in Hprog.
  destruct (driver_at env (tick s)) as [e1 |] eqn:D1.
  { subst r. split; [discriminate |]. split; [congruence |].
    split; [intros _ e [= <-]; reflexivity |]. split; [intros _ e; discriminate |].
    exists []. split; [symmetry; apply app_nil_r |].
    split; [intros u Hu; inversion Hu |].
    split; [intros [H _]; discriminate | intros [H _]; discriminate]. }
  destruct (driver_at env (S (tick s))) as [e2 |] eqn:D2.
  { subst r. split; [discriminate |]. split; [congruence |].
    split; [intros _ e; discriminate |]. split; [intros _ e _ [= <-]; reflexivity |].
    exists []. split; [symmetry; apply app_nil_r |].
    split; [intros u Hu; inversion Hu |].
    split; [intros [_ H]; discriminate | intros [_ H]; discriminate]. }
  set (s1 := update (touch s (S (S (tick s)))) (Report.with_driver true)) in Hprog.
  set (loop := for_each (Report.enumerate todo) (Report.turn env (length todo))) in Hprog.
  (* nothing but pending URLs and the start page is navigated to *)
  set (allowed := fun u => pending urls s u \/ u = "https://app.any.run/").
  set (V := visits_only allowed (trace s) : Report.run_state -> Prop).
  assert (V_touch : forall s' t, V s' -> V (touch s' t)) by (intros s' t H; exact H).
  assert (V_quiet : forall s' ev, (forall u, ev <> EvNavigate u) -> V s' -> V (log s' ev)).
  { intros s' ev Hev. apply visits_only_log. intros u E. destruct (Hev u E). }
  assert (V_update : forall s' f,
            (forall o, Report.page_delay (f o) = Report.page_delay o) ->
            (forall o, Report.driver (f o) = Report.driver o) ->
            V s' -> V (update s' f)) by (intros s' f _ _ H; exact H).
  assert (V_disk : forall s' f, V s' ->
            V (MkState (obj s') (tick s') (trace s') (f (disk s'))))
    by (intros s' f H; exact H).
  assert (V_driver : forall s' b, V s' -> V (update s' (Report.with_driver b)))
    by (intros s' b H; exact H).
  assert (V_turn : forall x, x ∈ Report.enumerate todo ->
            finishes V (Report.turn env (length todo) x)).
  { intros x Hx. apply enumerate_snd in Hx. apply visits_turn.
    destruct (Report.extract_task_id (snd x)) as [id |] eqn:Hid.
    - apply visits_process_url; try assumption.
      intros s'. apply visits_only_log. intros u [= <-]. left.
      apply Htodo in Hx as [H1 H2]. repeat split; [exact H1 | exact H2 | congruence].
    - intros s' Hs'. rewrite process_url_without_task_id by exact Hid.
      split; [discriminate | exact Hs']. }
  assert (Hrest : finishes V
            (let* _ := Report.initial_login env in finally loop (Report.close_driver env))).
  { apply finishes_bind; [| intros _; apply finishes_finally].
    - apply visits_initial_login; try assumption.
      intros s'. apply visits_only_log. intros u [= <-]. right. reflexivity.
    - apply finishes_for_each_in, V_turn.
    - apply visits_close_driver; assumption. }
  destruct (Hrest s1 (visits_only_start allowed s)) as [Hfuel (new & Enew & Hsound)].
  rewrite <- Hprog in Hfuel, Enew.
  split; [exact Hfuel |]. split; [congruence |].
  split; [intros _ e; discriminate |]. split; [intros _ e; discriminate |].
  exists new. split; [exact Enew |]. split; [exact Hsound |].
  (* the login, on one run *)
  set (G := (fun tr => exists mid, tr = (trace s ++ mid)%list) : list event -> Prop).
  assert (G_any : forall tr ev, G tr -> G (tr ++ [ev])%list).
  { intros tr ev [mid E]. exists (mid ++ [ev])%list. rewrite E, app_assoc. reflexivity. }
  assert (G1 : looping delay G s1).
  { split; [exists []; symmetry; apply app_nil_r | split; reflexivity]. }
  destruct (looping_initial_login env delay G (fun tr ev _ => G_any tr ev)
              (fun tr => G_any tr _) s1 G1) as [Elogin G2].
  unfold bind at 1 in Hprog.
  destruct (Report.initial_login env s1) as [rl s2] eqn:El. simpl in Elogin, G2. subst rl.
  unfold finally in Hprog.
  destruct (loop s2) as [rf s3] eqn:Ef.
  split.
  - (* the pause does not raise *)
    intros _ Hdelay.
    assert (HG : forall x, triple (looping delay G) (Report.turn env (length todo) x)
                             (fun r s' => r = Ok tt /\ looping delay G s')).
    { intros x. apply looping_turn; [intros tr ev _; apply G_any | exact Hdelay |].
      intros tr. apply G_any. }
    destruct (for_each_ok (looping delay G) (Report.enumerate todo)
                (Report.turn env (length todo)) (fun x _ => HG x) s2 G2) as [Eloop G3].
    fold loop in Eloop, G3. rewrite Ef in Eloop, G3. simpl in Eloop, G3. subst rf.
    pose proof G3 as (_ & _ & Hd3).
    rewrite (close_driver_run env s3 Hd3) in Hprog.
    assert (Etrace : trace (snd r) = trace s3)
      by (subst r; destruct (driver_at env (tick s3)); reflexivity).
    split.
    + intros u (H1 & H2 & H3).
      set (L := (fun tr => exists mid, tr = (trace s ++ mid)%list /\ EvNavigate u ∈ mid)
                : list event -> Prop).
      assert (L_any : forall tr ev, L tr -> L (tr ++ [ev])%list).
      { intros tr ev (mid & E & Hmid). exists (mid ++ [ev])%list. split.
        - rewrite E, app_assoc. reflexivity.
        - apply elem_of_app. left. exact Hmid. }
      assert (HL : forall x, triple (looping delay L) (Report.turn env (length todo) x)
                               (fun r s' => r = Ok tt /\ looping delay L s')).
      { intros x. apply looping_turn; [intros tr ev _; apply L_any | exact Hdelay |].
        intros tr. apply L_any. }
      assert (Hin : u ∈ todo) by (apply Htodo; split; assumption).
      destruct (enumerate_reaches todo u Hin) as [i Hi].
      destruct (Report.extract_task_id u) as [id |] eqn:Hid; [| congruence].
      assert (Hu : triple (looping delay G) (Report.turn env (length todo) (i, u))
                     (fun r s' => r = Ok tt /\ looping delay L s')).
      { apply looping_turn_navigated with (task_id := id);
          [exact Hdelay | exact Hid | exact L_any |].
        intros tr [mid E]. exists (mid ++ [EvNavigate u])%list. split.
        - rewrite E, app_assoc. reflexivity.
        - apply elem_of_app. right. apply list_elem_of_singleton. reflexivity. }
      destruct (for_each_reaches (looping delay G) (looping delay L)
                  (Report.enumerate todo) (Report.turn env (length todo)) (i, u)
                  Hi HG HL Hu s2 G2) as [_ ((mid & Emid & Hmid) & _)].
      fold loop in Emid. rewrite Ef in Emid. simpl in Emid.
      rewrite Etrace, Emid in Enew. apply app_inv_head in Enew. subst mid. exact Hmid.
    + intros _. subst r. destruct (driver_at env (tick s3)) as [e |] eqn:D3.
      * right. exists e, (tick s3). split; [exact D3 | reflexivity].
      * left. split; reflexivity.
  - (* the pause raises *)
    intros _ e first second rest Hdelay Etodo.
    set (allowed' := fun u => u = first \/ u = "https://app.any.run/").
    set (W := (fun tr => exists mid, tr = (trace s ++ mid)%list
                                     /\ forall u, EvNavigate u ∈ mid -> allowed' u)
              : list event -> Prop).
    assert (W_log : forall tr ev,
              (forall u, ev = EvNavigate u -> allowed' u) -> W tr -> W (tr ++ [ev])%list).
    { intros tr ev Hev (mid & E & Hmid). exists (mid ++ [ev])%list. split.
      - rewrite E, app_assoc. reflexivity.
      - intros u Hu. apply elem_of_app in Hu as [Hu | Hu]; [apply Hmid, Hu |].
        apply list_elem_of_singleton in Hu. apply Hev. congruence. }
    assert (W_quiet : forall tr ev, (forall u, ev <> EvNavigate u) -> W tr -> W (tr ++ [ev])%list).
    { intros tr ev Hev. apply W_log. intros u E. destruct (Hev u E). }
    assert (W1 : looping delay W s1).
    { split; [| split; reflexivity].
      exists []. split; [symmetry; apply app_nil_r | intros u Hu; inversion Hu]. }
    assert (W_start : forall tr, W tr -> W (tr ++ [EvNavigate "https://app.any.run/"])%list)
      by (intros tr; apply W_log; intros u [= <-]; right; reflexivity).
    assert (W_first : forall tr, W tr -> W (tr ++ [EvNavigate first])%list)
      by (intros tr; apply W_log; intros u [= <-]; left; reflexivity).
    destruct (looping_initial_login env delay W W_quiet W_start s1 W1) as [_ W2].
    rewrite El in W2. simpl in W2.
    destruct (looping_process_url env delay W W_quiet first W_first s2 W2) as [Eurl W3].
    assert (Eloop : loop s2 = (Raise e, snd (Report.process_url env first s2))).
    { subst loop. rewrite Etodo. cbn [Report.enumerate length seq combine for_each].
      unfold bind at 1. unfold Report.turn. unfold bind at 1. cbn [fst snd].
      destruct (Report.process_url env first s2) as [ru su]. simpl in Eurl, W3. subst ru.
      cbn [Nat.ltb Nat.leb]. unfold bind, get_obj, sleep. simpl.
      destruct W3 as (_ & Hd & _). rewrite Hd, Hdelay. reflexivity. }
    rewrite Ef in Eloop. injection Eloop as -> ->.
    pose proof W3 as ((mid & Emid & Hmid) & _ & Hd3).
    rewrite (close_driver_run env _ Hd3) in Hprog.
    set (s3 := snd (Report.process_url env first s2)) in *.
    assert (Etrace : trace (snd r) = trace s3)
      by (subst r; destruct (driver_at env (tick s3)); reflexivity).
    split.
    + rewrite Etrace, Emid in Enew. apply app_inv_head in Enew. subst mid. exact Hmid.
    + subst r. destruct (driver_at env (tick s3)) as [e' |] eqn:D3.
      * right. exists e', (tick s3). split; [exact D3 | reflexivity].
      * left. reflexivity.
Qed.

Lemma run_visits_pending_urls_witness :
  fst (Report.run (Fixture.env_of (fun _ => Fixture.fails_to_load))
         (Some [Fixture.second_url; "https://app.any.run/submissions"; Fixture.first_url])
         (Fixture.start Fixture.reporter)) = Ok tt
  /\ EvNavigate Fixture.first_url
     ∈ trace (snd (Report.run (Fixture.env_of (fun _ => Fixture.fails_to_load))
                     (Some [Fixture.second_url; "https://app.any.run/submissions";
                            Fixture.first_url])
                     (Fixture.start Fixture.reporter)))
  /\ fst (Report.run (Fixture.env_of (fun _ => Fixture.quiet_page))
            (Some [Fixture.second_url; "https://app.any.run/submissions"; Fixture.first_url])
            (Fixture.start Fixture.hasty)) = Raise ValueError.
Proof.
  destruct (run_visits_pending_urls (Fixture.env_of (fun _ => Fixture.fails_to_load))
              [Fixture.second_url; "https://app.any.run/submissions"; Fixture.first_url]
              (Fixture.start Fixture.reporter))
    as (_ & _ & _ & _ & new & E & _ & Hlive & _).
  destruct (Hlive (conj eq_refl eq_refl) eq_refl) as [Hall Hend].
  split; [| split].
  - destruct Hend as [[Hok _] | (e & n & Hquit & _)]; [discriminate | exact Hok | discriminate].
  - rewrite E. apply elem_of_app. right. apply Hall.
    split; [| split].
    + do 2 right. left.
    + simpl. apply not_elem_of_empty.
    + discriminate.
  - destruct (run_visits_pending_urls (Fixture.env_of (fun _ => Fixture.quiet_page))
                [Fixture.second_url; "https://app.any.run/submissions"; Fixture.first_url]
                (Fixture.start Fixture.hasty))
      as (_ & _ & _ & _ & new' & _ & _ & _ & Hraise).
    destruct (Hraise (conj eq_refl eq_refl) ValueError Fixture.second_url
                "https://app.any.run/submissions" [Fixture.first_url] eq_refl eq_refl)
      as [_ [Hvalue | (e & n & Hquit & _)]]; [exact Hvalue | discriminate].
Defined.

(** ** The Deep Analysis record *)

Lemma yields_ret {O A} (a : A) (good : A -> Prop) : good a -> yields (@ret O A a) good.
Proof. intros H s. exists a. split; [reflexivity | exact H]. Qed.

Lemma yields_bind {O A B} (m : M O A) (k : A -> M O B) mid good :
  yields m mid -> (forall a, mid a -> yields (k a) good) -> yields (bind m k) good.
Proof.
  intros Hm Hk s. destruct (Hm s) as (a & E & Ha). unfold bind.
  destruct (m s) as [r s']. simpl in E. subst r. apply Hk, Ha.
Qed.

Lemma yields_weaken {O A} (m : M O A) (good good' : A -> Prop) :
  yields m good -> (forall a, good a -> good' a) -> yields m good'.
Proof. intros H Hg s. destruct (H s) as (a & E & Ha). exists a. auto. Qed.

Lemma yields_observe {O A} (reading : nat -> A) :
  yields (@observe O A reading) (fun a => exists n, a = reading n).
Proof. intros s. exists (reading (tick s)). split; [reflexivity | eexists; reflexivity]. Qed.

Lemma yields_emit {O} ev : yields (@emit O ev) (fun _ => True).
Proof. intros s. exists tt. split; [reflexivity | exact I]. Qed.

(** A body under [except Exception] that does not run out of fuel returns
    what the body or the handler returns. *)
Lemma yields_try_any {O A} (body : M O A) (recover : exn -> M O A) good :
  finishes (fun _ => True) body ->
  (forall a, good a) ->
  (forall e, yields (recover e) good) ->
  yields (try_except body AnyException recover) good.
Proof.
  intros Hfuel Hgood Hrec s. unfold try_except.
  destruct (Hfuel s Logic.I) as [Hne _].
  destruct (body s) as [[a | e |] s']; simpl in *.
  - exists a. split; [reflexivity | apply Hgood].
  - apply Hrec.
  - congruence.
Qed.

Lemma set_item_keys key v fields : map fst (Report.set_item key v fields) = map fst fields.
Proof.
  induction fields as [| [k old] rest IH]; simpl; [reflexivity |].
  destruct (String.eqb k key); simpl; [reflexivity | f_equal; exact IH].
Qed.

Lemma set_item_sections env key v data :
  (exists n, pg_section (page_at env n) key = Some v) ->
  is_sections env data -> is_sections env (Report.set_item key v data).
Proof.
  intros Hv [Hkeys Hall]. split; [rewrite set_item_keys; exact Hkeys |].
  clear Hkeys. induction Hall as [| [k old] rest Hx Hrest IH]; simpl; [constructor |].
  destruct (String.eqb k key) eqn:E.
  - apply String.eqb_eq in E. subst k. constructor; [right; exact Hv | exact Hrest].
  - constructor; [exact Hx | exact IH].
Qed.

Lemma sections_yield env sections tabs data :
  is_sections env data ->
  yields (Report.scrape_sections env sections tabs data) (is_sections env).
Proof.
  revert tabs data. induction sections as [| sec sections' IH]; intros tabs data Hdata;
    [destruct tabs; apply yields_ret, Hdata |].
  destruct tabs as [| tab tabs']; [apply yields_ret, Hdata |].
  cbn [Report.scrape_sections].
  eapply yields_bind; [apply yields_observe | intros pg _].
  eapply yields_bind; [apply yields_emit | intros _ _].
  eapply yields_bind with (mid := fun _ => True).
  { destruct (pg_click pg); [| apply yields_ret; exact Logic.I].
    eapply yields_bind; [apply yields_observe | intros pg' _].
    eapply yields_bind; [apply yields_emit | intros _ _].
    apply yields_ret. exact Logic.I. }
  intros clicked _. destruct (negb clicked); [apply IH, Hdata |].
  eapply yields_bind with (mid := fun _ => True).
  { apply yields_try_any; [| auto | intros e; apply yields_ret; exact Logic.I].
    apply finishes_bind; [| intros ?; apply finishes_ret].
    apply visits_wait_for_section; auto. }
  intros waited _. destruct (negb waited); [apply yields_ret, Hdata |].
  eapply yields_bind; [apply yields_observe | intros pg' [n ->]].
  eapply yields_bind; [apply yields_emit | intros _ _].
  destruct (pg_section (page_at env n) (Report.sec_key sec)) as [payload |] eqn:E;
    [| apply yields_ret, Hdata].
  apply IH, set_item_sections; [exists n; exact E | exact Hdata].
Qed.

Lemma deep_analysis_yields (env : Env) :
  yields (Report.scrape_deep_analysis env) (is_deep_analysis env).
Proof.
  unfold Report.scrape_deep_analysis.
  assert (Hstart : is_sections env
            [("http_requests", JList []); ("connections", JList []);
             ("dns_requests", JList []); ("threats", JList []); ("files", JList [])]).
  { split; [reflexivity |]. repeat constructor. }
  cbv zeta.
  eapply yields_bind; [apply yields_observe | intros pg _].
  eapply yields_bind; [apply yields_emit | intros _ _].
  destruct (pg_css pg "li.deep-analysis-navigation-item") as [tabs |].
  - eapply yields_bind; [apply sections_yield, Hstart | intros data Hdata].
    apply yields_ret. exists data. split; [reflexivity | exact Hdata].
  - apply yields_ret. eexists. split; [reflexivity | exact Hstart].
Qed.

(** [scrape_deep_analysis] returns from every state and whatever the pages
    do: a dict with the five sections in the order of the tabs, each either
    the empty list it started with or what the section scraper read off a
    page of the session; no exception leaves it, also when the challenge
    check inside the wait raises, and a section whose tab cannot be clicked
    or whose scraper fails keeps the empty list. *)
Theorem scrape_deep_analysis_returns_sections (env : Env) (s : Report.run_state) :
  exists data,
    fst (Report.scrape_deep_analysis env s) = Ok (JDict data)
    /\ map fst data = section_keys
    /\ Forall (fun kv => snd kv = JList []
                         \/ exists n, pg_section (page_at env n) (fst kv) = Some (snd kv)) data
    /\ (pg_css (page_at env (tick s)) "li.deep-analysis-navigation-item" = None ->
        Forall (fun kv => snd kv = JList []) data).
Proof.
  destruct (deep_analysis_yields env s) as (j & E & data & -> & Hkeys & Hall).
  exists data. repeat split; try assumption.
  intros Hnone. revert E.
  unfold Report.scrape_deep_analysis, bind, observe, emit. cbn [fst snd tick].
  rewrite Hnone. cbn. intros [= <-]. repeat constructor.
Qed.
(** ** The record of a report and its row in the summary *)

Section RecordShape.

Variable env : Env.
Variable dir : string.

Let I : Report.run_state -> Prop := fun s => Report.output_dir (obj s) = dir.

Lemma shape_touch s t : I s -> I (touch s t).
Proof. exact (fun H => H). Qed.

Lemma shape_log s ev : I s -> I (log s ev).
Proof. exact (fun H => H). Qed.

Lemma shape_check : preserves I (Report.check_for_bot_challenge env).
Proof.
  apply ReportFacts.keeps_check.
  - apply shape_touch.
  - intros s ev _. apply shape_log.
  - intros s b H. exact H.
  - intros s t H. exact H.
Qed.

Lemma shape_interaction s ev : is_interaction ev = true -> I s -> I (log s ev).
Proof. intros _. apply shape_log. Qed.

Hint Resolve shape_touch shape_interaction shape_check : core.

(** What [scrape_report] returns when it returns a record. *)
Let built (u : string) (r : outcome (option json)) (s' : Report.run_state) : Prop :=
  I s' /\
  forall data, r = Ok (Some data) ->
    exists id,
      Report.extract_task_id u = Some id
      /\ is_record env id u data
      /\ disk s' !! (dir ++ "/" ++ id ++ "_report.json") = Some (Doc data).

Lemma shape_write_report task_id report :
  triple I (Report.write_report env task_id report)
    (fun r s' => I s' /\ forall data, r = Ok (Some data) ->
       data = JDict report
       /\ disk s' !! (dir ++ "/" ++ task_id ++ "_report.json") = Some (Doc data)).
Proof.
  intros s Hs.
  unfold Report.write_report, bind, get_obj, observe, set_disk, emit. simpl.
  unfold Report.report_file. unfold I in Hs. rewrite Hs.
  destruct (disk_at env (tick s)) as [| | n] eqn:E; simpl.
  - split; [exact Hs |]. intros data [= <-]. split; [reflexivity | apply lookup_insert_eq].
  - split; [exact Hs | discriminate].
  - split; [exact Hs | discriminate].
Qed.

Lemma shape_deep_analysis :
  triple I (Report.scrape_deep_analysis env)
    (fun r s' => I s' /\ forall j, r = Ok j -> is_deep_analysis env j).
Proof.
  intros s Hs. split.
  - apply (ReportFacts.keeps_scrape_deep_analysis env I); auto.
  - intros j E. destruct (deep_analysis_yields env s) as (j' & E' & Hj).
    rewrite E' in E. injection E as <-. exact Hj.
Qed.

Lemma shape_scrape_report u : triple I (Report.scrape_report env u) (built u).
Proof.
  assert (Habrupt : forall (r : outcome (option json)) s,
             (forall data, r <> Ok (Some data)) -> I s -> built u r s).
  { intros r s Hr Hs. split; [exact Hs |]. intros data E. destruct (Hr data E). }
  unfold Report.scrape_report.
  destruct (Report.extract_task_id u) as [task_id |] eqn:Hid;
    [| apply triple_ret; intros s Hs; apply Habrupt; [discriminate | exact Hs]].
  intros s Hs. unfold try_except.
  match goal with |- context [?body s] => set (m := body) end.
  assert (Hbody : triple I m (built u)).
  { subst m.
    apply triple_bind_inv; [apply ReportFacts.keeps_look; auto | intros pg | |];
      [| intros; apply Habrupt; [discriminate | assumption] ..].
    apply triple_bind_inv; [apply ReportFacts.keeps_interaction; auto | intros _ | |];
      [| intros; apply Habrupt; [discriminate | assumption] ..].
    destruct (pg_get pg);
      [intros s1 Hs1; apply Habrupt; [discriminate | exact Hs1] |].
    apply triple_bind_inv; [apply ReportFacts.keeps_handle_login; auto | intros _ | |];
      [| intros; apply Habrupt; [discriminate | assumption] ..].
    apply triple_bind_inv; [auto | intros _ | |];
      [| intros; apply Habrupt; [discriminate | assumption] ..].
    apply triple_bind_inv;
      [apply ReportFacts.keeps_wait_for_page_load; auto | intros loaded | |];
      [| intros; apply Habrupt; [discriminate | assumption] ..].
    apply triple_bind_inv;
      [destruct loaded; [apply preserves_ret | apply ReportFacts.keeps_wait_for_page_load; auto]
      | intros loaded' | |];
      [| intros; apply Habrupt; [discriminate | assumption] ..].
    destruct loaded'; simpl;
      [| apply triple_ret; intros s1 Hs1; apply Habrupt; [discriminate | exact Hs1]].
    apply triple_bind_inv; [apply ReportFacts.keeps_extractor; auto | intros general_info | |];
      [| intros; apply Habrupt; [discriminate | assumption] ..].
    apply triple_bind_inv; [apply ReportFacts.keeps_extractor; auto | intros process_info | |];
      [| intros; apply Habrupt; [discriminate | assumption] ..].
    apply triple_bind_inv; [apply ReportFacts.keeps_extractor; auto | intros ioc_details | |];
      [| intros; apply Habrupt; [discriminate | assumption] ..].
    apply triple_bind_inv; [apply ReportFacts.keeps_extractor; auto | intros mitre_attack | |];
      [| intros; apply Habrupt; [discriminate | assumption] ..].
    eapply triple_bind; [apply shape_deep_analysis | intros deep_analysis | |];
      [| intros e s1 [H1 _]; apply Habrupt; [discriminate | exact H1]
       | intros s1 [H1 _]; apply Habrupt; [discriminate | exact H1]].
    intros s1 [Hs1 Hdeep]. specialize (Hdeep deep_analysis eq_refl). revert s1 Hs1.
    change (triple I
      (let* pcap := Report.download_pcap env task_id
           [("task_id", JStr task_id); ("url", JStr u);
            ("general_info", general_info); ("process_info", process_info);
            ("ioc_details", ioc_details); ("mitre_attack", mitre_attack);
            ("deep_analysis", deep_analysis)] in
       Report.write_report env task_id
         (if Py.truthy pcap
          then ([("task_id", JStr task_id); ("url", JStr u);
                 ("general_info", general_info); ("process_info", process_info);
                 ("ioc_details", ioc_details); ("mitre_attack", mitre_attack);
                 ("deep_analysis", deep_analysis)]
                ++ [("pcap_file", JStr (default "" pcap))])%list
          else [("task_id", JStr task_id); ("url", JStr u);
                ("general_info", general_info); ("process_info", process_info);
                ("ioc_details", ioc_details); ("mitre_attack", mitre_attack);
                ("deep_analysis", deep_analysis)]))
      (built u)).
    apply triple_bind_inv; [apply ReportFacts.keeps_download_pcap; auto | intros pcap | |];
      [| intros; apply Habrupt; [discriminate | assumption] ..].
    eapply triple_weaken; [apply shape_write_report | auto |].
    intros r s2 [Hs2 Hw]. split; [exact Hs2 |].
    intros data E. destruct (Hw data E) as [-> Hdisk].
    exists task_id. split; [exact Hid |]. split; [| exact Hdisk].
    exists general_info, process_info, ioc_details, mitre_attack, deep_analysis, pcap.
    split; [exact Hdeep |]. destruct (Py.truthy pcap); [reflexivity |].
    rewrite app_nil_r. reflexivity. }
  specialize (Hbody s Hs). destruct (m s) as [[a | e |] s1]; simpl in *; try exact Hbody.
  apply Habrupt; [discriminate | apply Hbody].
Qed.

End RecordShape.

Lemma summary_get_present key fallback fields v :
  Json.get key fields = Some v -> Summary.get key fallback (JDict fields) = Some v.
Proof. intros H. unfold Summary.get. rewrite H. reflexivity. Qed.

(** The row of a record of [scrape_report]: the record has no
    [behavior_activities] and no [network_data], so both counts are zero. *)
Lemma summary_row_of_record env task_id url data row :
  is_record env task_id url data ->
  Summary.summary_row data = Some row ->
  Json.get "task_id" row = Some (JStr task_id)
  /\ Json.get "url" row = Some (JStr url)
  /\ Json.get "num_behaviors" row = Some (JInt 0)
  /\ Json.get "num_network_connections" row = Some (JInt 0)
  /\ (exists n, Json.get "num_processes" row = Some (JInt n) /\ 0 <= n).
Proof.
  intros (gi & pi & ioc & ma & da & pcap & _ & ->) Hrow.
  unfold Summary.summary_row in Hrow.
  set (tail := if Py.truthy pcap then [("pcap_file", JStr (default "" pcap))] else [])
    in Hrow.
  assert (Hb : Json.get "behavior_activities" tail = None)
    by (subst tail; destruct (Py.truthy pcap); reflexivity).
  assert (Hn : Json.get "network_data" tail = None)
    by (subst tail; destruct (Py.truthy pcap); reflexivity).
  clearbody tail.
  cbn [Summary.get Json.get app String.eqb Ascii.eqb Bool.eqb default mbind option_bind] in Hrow.
  rewrite Hb, Hn in Hrow. cbn [default Summary.len length Z.of_nat mbind option_bind] in Hrow.
  repeat match type of Hrow with
         | context [mbind _ ?x] =>
             let E := fresh "E" in destruct x eqn:E; cbn [mbind option_bind] in Hrow;
             [| discriminate Hrow]
         end.
  injection Hrow as <-.
  repeat split; try reflexivity.
  match goal with E : Summary.len _ = Some ?z |- _ => exists z end.
  split; [reflexivity |].
  match goal with E : Summary.len ?x = Some _ |- _ =>
    destruct x; simpl in E; try discriminate E; injection E as <-; lia end.
Qed.
(** When [scrape_report] returns a record, the record has the seven fields
    [task_id], [url], [general_info], [process_info], [ioc_details],
    [mitre_attack] and [deep_analysis] in this order, [pcap_file] last when
    a capture was downloaded, and it is what the report file holds.  The
    record has no [behavior_activities] and no [network_data]: when
    [create_summary_dataset] makes a row of it, the row carries the task id
    and the URL of the record, and its [num_behaviors] and
    [num_network_connections] are 0; the row is in the summary whenever the
    report file is among the files listed. *)
Theorem summary_of_scraped_report (env : Env) (url : string) (s : Report.run_state)
    (data : json) :
  fst (Report.scrape_report env url s) = Ok (Some data) ->
  let d' := disk (snd (Report.scrape_report env url s)) in
  exists task_id,
    Report.extract_task_id url = Some task_id
    /\ is_record env task_id url data
    /\ Summary.read_report d' (Report.report_file (obj s) task_id) = Some data
    /\ forall row,
         Summary.summary_row data = Some row ->
         Json.get "task_id" row = Some (JStr task_id)
         /\ Json.get "url" row = Some (JStr url)
         /\ Json.get "num_behaviors" row = Some (JInt 0)
         /\ Json.get "num_network_connections" row = Some (JInt 0)
         /\ forall report_files,
              Report.report_file (obj s) task_id ∈ report_files ->
              exists rows,
                Summary.create_summary_dataset report_files d' = Some rows /\ row ∈ rows.
Proof.
  intros E d'. subst d'.
  destruct (shape_scrape_report env (Report.output_dir (obj s)) url s eq_refl) as [_ Hw].
  destruct (Hw data E) as (task_id & Hid & Hrec & Hdisk).
  exists task_id. split; [exact Hid |]. split; [exact Hrec |].
  assert (Hread : Summary.read_report (disk (snd (Report.scrape_report env url s)))
                    (Report.report_file (obj s) task_id) = Some data).
  { unfold Summary.read_report, Report.report_file. rewrite Hdisk. reflexivity. }
  split; [exact Hread |].
  intros row Hrow.
  destruct (summary_row_of_record env task_id url data row Hrec Hrow)
    as (H1 & H2 & H3 & H4 & _).
  repeat (split; [assumption |]).
  intros report_files Hin. unfold Summary.create_summary_dataset.
  destruct report_files as [| f fs] eqn:Efiles; [inversion Hin |].
  rewrite <- Efiles in *. clear Efiles f fs.
  assert (Hmem : row ∈ omap (fun path =>
                    Summary.read_report (disk (snd (Report.scrape_report env url s))) path
                    ≫= Summary.summary_row) report_files).
  { apply list_elem_of_omap. exists (Report.report_file (obj s) task_id).
    split; [exact Hin |]. rewrite Hread. exact Hrow. }
  destruct (omap _ report_files) as [| r rs] eqn:Erows; [inversion Hmem |].
  destruct report_files; [inversion Hin |].
  eexists. split; [reflexivity | exact Hmem].
Qed.
Lemma scrape_deep_analysis_returns_sections_witness :
  exists data,
    fst (Report.scrape_deep_analysis (Fixture.env_of (fun _ => Fixture.broken_queries))
           (Fixture.start Fixture.reporter)) = Ok (JDict data)
    /\ Forall (fun kv => snd kv = JList []) data.
Proof.
  destruct (scrape_deep_analysis_returns_sections
              (Fixture.env_of (fun _ => Fixture.broken_queries))
              (Fixture.start Fixture.reporter)) as (data & E & _ & _ & Hempty).
  exists data. split; [exact E | apply Hempty; reflexivity].
Defined.

Lemma summary_of_scraped_report_witness :
  exists data row,
    fst (Report.scrape_report (Fixture.env_of (fun _ => Fixture.report_page))
           Fixture.first_url (Fixture.start Fixture.reporter)) = Ok (Some data)
    /\ Summary.summary_row data = Some row
    /\ Json.get "num_mitre_techniques" row = Some (JInt 2)
    /\ Json.get "num_behaviors" row = Some (JInt 0)
    /\ Json.get "num_network_connections" row = Some (JInt 0)
    /\ exists rows,
         Summary.create_summary_dataset
           ["scraped_data/stale_report.json"; "scraped_data/abc-123_report.json"]
           (disk (snd (Report.scrape_report (Fixture.env_of (fun _ => Fixture.report_page))
                         Fixture.first_url (Fixture.start Fixture.reporter))))
         = Some rows
         /\ row ∈ rows.
Proof.
  do 2 eexists.
  split; [vm_compute; reflexivity |].
  split; [vm_compute; reflexivity |].
  split; [reflexivity |].
  match goal with
  | |- context [Json.get "num_behaviors" ?row] =>
      match goal with
      | |- context [Report.scrape_report ?env ?url ?s] =>
          destruct (summary_of_scraped_report env url s _ eq_refl)
            as (task_id & Hid & _ & _ & Hrow);
          injection Hid as <-;
          destruct (Hrow row eq_refl) as (_ & _ & Hb & Hn & Hfiles)
      end
  end.
  split; [exact Hb |]. split; [exact Hn |].
  apply Hfiles. right. left.
Defined.
